(** * Trustpilot ingestion pipeline: a shallow embedding and its properties

    The development follows the Python sources [app/dq_rules.py],
    [app/ingest.py], [app/models.py] and [app/db.py].

    Conventions of the embedding.
    - A Python [str] is a [string]: its sequence of UTF-8 bytes.  The
      character classes used by the code ([str.strip], [str.lower], the
      classes [\s] and [\d] of [re]) are modelled on the ASCII range, where
      they are exact; a byte above 127 is an ordinary character.
    - [Optional[str]] is [option string]; a [dict] used as a map is a
      [gmap]; a [set] is a [gset]; a Python [int] is a [Z].
    - A Python call that may raise returns a [Res]: [Ok v] or [Raise e].
    - The functions of the standard library that the code calls ([float],
      [datetime.strptime], [datetime.fromisoformat], [ipaddress.ip_address],
      [re], [os.path]) are modelled from their CPython behaviour in the
      modules [Py], [Re], [PyFloat], [Datetime], [IpAddress]; [hashlib],
      [openpyxl] and the shortest-digits printing of a [float] are the
      operations of the class [Runtime].
    - A statement executed on the SQLite connection is a function on the
      tables of the store, which are finite maps keyed by their primary
      key. *)

From Stdlib Require Import ZArith NArith Ascii String List Bool Lia DecimalString.
From stdpp Require Import base option list gmap strings sorting.

Open Scope Z_scope.

(** ** Python values and exceptions *)

Inductive PyExn : Type :=
  | ValueError
  | OverflowError
  | FileNotFoundError
  | InvalidFileException
  | IntegrityError (msg : string).

Inductive Res (A : Type) : Type :=
  | Ok (a : A)
  | Raise (e : PyExn).
Arguments Ok {A} a.
Arguments Raise {A} e.

#[global] Instance Res_ret : MRet Res := λ A a, Ok a.
#[global] Instance Res_fmap : FMap Res := λ A B f r,
  match r with
  | Ok a => Ok (f a)
  | Raise e => Raise e
  end.
#[global] Instance Res_bind : MBind Res := λ A B k r,
  match r with
  | Ok a => k a
  | Raise e => Raise e
  end.

(** ** Python built-ins used by the code *)

Module Py.

(** [str.isspace] on one character (ASCII range): tab to carriage return,
    the separators 28 to 31, and the space. *)
Definition isspace (c : ascii) : bool :=
  let n := N_of_ascii c in
  ((9 <=? n) && (n <=? 13) || (28 <=? n) && (n <=? 32))%N.

Definition isdigit (c : ascii) : bool :=
  let n := N_of_ascii c in ((48 <=? n) && (n <=? 57))%N.

Definition isupper (c : ascii) : bool :=
  let n := N_of_ascii c in ((65 <=? n) && (n <=? 90))%N.

Definition islower (c : ascii) : bool :=
  let n := N_of_ascii c in ((97 <=? n) && (n <=? 122))%N.

Definition lower_char (c : ascii) : ascii :=
  if isupper c then ascii_of_N (N_of_ascii c + 32) else c.

(** [s.lower()] *)
Fixpoint lower (s : string) : string :=
  match s with
  | EmptyString => EmptyString
  | String c s' => String (lower_char c) (lower s')
  end.

Fixpoint lstrip (s : string) : string :=
  match s with
  | EmptyString => EmptyString
  | String c s' => if isspace c then lstrip s' else s
  end.

Fixpoint rstrip (s : string) : string :=
  match s with
  | EmptyString => EmptyString
  | String c s' =>
      match rstrip s' with
      | EmptyString => if isspace c then EmptyString else String c EmptyString
      | r => String c r
      end
  end.

(** [s.strip()] *)
Definition strip (s : string) : string := rstrip (lstrip s).

(** Truth value of a string: [bool(s)]. *)
Definition truthy (s : string) : bool :=
  match s with EmptyString => false | _ => true end.

(** Truth value of an [Optional[str]]: [None] and the empty string are false. *)
Definition otruthy (o : option string) : bool :=
  match o with Some s => truthy s | None => false end.

(** [enumerate(l, start)] *)
Fixpoint enumerate {A : Type} (start : nat) (l : list A) : list (nat * A) :=
  match l with
  | [] => []
  | x :: l' => (start, x) :: enumerate (S start) l'
  end.

(** [s.split(sep)] for a one-character separator: never the empty list. *)
Fixpoint split (sep : ascii) (s : string) : list string :=
  match s with
  | EmptyString => [EmptyString]
  | String c s' =>
      if Ascii.eqb c sep then EmptyString :: split sep s'
      else match split sep s' with
           | h :: t => String c h :: t
           | [] => [String c EmptyString]
           end
  end.

(** [sep.join(l)] *)
Fixpoint join (sep : string) (l : list string) : string :=
  match l with
  | [] => EmptyString
  | [x] => x
  | x :: l' => x +:+ sep +:+ join sep l'
  end.

(** [c in s] for a character [c]. *)
Fixpoint contains (c : ascii) (s : string) : bool :=
  match s with
  | EmptyString => false
  | String d s' => Ascii.eqb c d || contains c s'
  end.

(** The last character [s[-1]], and [s[:-1]]. *)
Fixpoint last_char (s : string) : option ascii :=
  match s with
  | EmptyString => None
  | String c EmptyString => Some c
  | String _ s' => last_char s'
  end.

Fixpoint drop_last (s : string) : string :=
  match s with
  | EmptyString => EmptyString
  | String c EmptyString => EmptyString
  | String c s' => String c (drop_last s')
  end.

(** [s.endswith(c)] for a one-character suffix. *)
Definition endswith (s : string) (c : ascii) : bool :=
  match last_char s with
  | Some d => Ascii.eqb c d
  | None => false
  end.

(** Value of a decimal digit. *)
Definition digit_val (c : ascii) : Z := Z.of_N (N_of_ascii c) - 48.

(** The character of a digit below ten. *)
Definition digit_char (d : Z) : ascii := ascii_of_N (Z.to_N (48 + d)).

(** [int(s)] on a string of ASCII digits, most significant first. *)
Fixpoint int_of_digits_acc (acc : Z) (s : string) : Z :=
  match s with
  | EmptyString => acc
  | String c s' => int_of_digits_acc (10 * acc + digit_val c) s'
  end.
Definition int_of_digits (s : string) : Z := int_of_digits_acc 0 s.

Fixpoint all_chars (p : ascii → bool) (s : string) : bool :=
  match s with
  | EmptyString => true
  | String c s' => p c && all_chars p s'
  end.

(** [str(n)] for an [int]. *)
Definition str_of_Z (z : Z) : string := NilZero.string_of_int (Z.to_int z).

(** ["%0wd" % n] for a non-negative [n]: at least [w] digits. *)
Fixpoint zeros (n : nat) : string :=
  match n with O => EmptyString | S n' => String "0" (zeros n') end.
Definition zfill (w : nat) (n : Z) : string :=
  let s := str_of_Z n in zeros (w - String.length s) +:+ s.

(** [repr(s)]: in single quotes, unless [s] has a single quote and no
    double quote; the quote, the backslash and the control characters are
    escaped. *)
Definition hex_digit (n : N) : ascii :=
  if (n <? 10)%N then ascii_of_N (48 + n) else ascii_of_N (87 + n).

Definition repr_char (quote : ascii) (c : ascii) : string :=
  let n := N_of_ascii c in
  if Ascii.eqb c quote || Ascii.eqb c "\" then String "\" (String c EmptyString)
  else if (n =? 9)%N then "\t"
  else if (n =? 10)%N then "\n"
  else if (n =? 13)%N then "\r"
  else if (n <? 32)%N || (n =? 127)%N then
    String "\" (String "x" (String (hex_digit (n / 16)) (String (hex_digit (n mod 16)) EmptyString)))
  else String c EmptyString.

Fixpoint repr_body (quote : ascii) (s : string) : string :=
  match s with
  | EmptyString => EmptyString
  | String c s' => repr_char quote c +:+ repr_body quote s'
  end.

Definition dquote : ascii := ascii_of_N 34.
Definition squote : ascii := ascii_of_N 39.

Definition repr (s : string) : string :=
  let quote := if contains squote s && negb (contains dquote s) then dquote else squote in
  String quote (repr_body quote s +:+ String quote EmptyString).

(** [repr(o)] of an [Optional[str]]. *)
Definition repr_opt (o : option string) : string :=
  match o with
  | Some s => repr s
  | None => "None"
  end.

(** [s.replace(old, new)] for a non-empty [old]: every occurrence, from the
    left, without overlap.  [skip] counts the characters of an occurrence
    still to be passed over. *)
Fixpoint starts_with (p s : string) : bool :=
  match p, s with
  | EmptyString, _ => true
  | String a p', String b s' => Ascii.eqb a b && starts_with p' s'
  | _, EmptyString => false
  end.

Fixpoint replace_from (skip : nat) (old new s : string) : string :=
  match s with
  | EmptyString => EmptyString
  | String c s' =>
      match skip with
      | S k => replace_from k old new s'
      | O =>
          if starts_with old s
          then new +:+ replace_from (String.length old - 1) old new s'
          else String c (replace_from 0 old new s')
      end
  end.

Definition replace (old new s : string) : string := replace_from 0 old new s.

(** [os.path.basename(p)] (POSIX): what follows the last slash. *)
Fixpoint basename (p : string) : string :=
  match p with
  | EmptyString => EmptyString
  | String c p' =>
      if contains "/" p' then basename p'
      else if Ascii.eqb c "/" then p' else p
  end.

(** [os.path.splitext(b)[0]] for a name [b] without slash: the name up to
    its last dot, unless only dots come before that dot. *)
Fixpoint split_last_dot (b : string) : option (string * string) :=
  match b with
  | EmptyString => None
  | String c b' =>
      match split_last_dot b' with
      | Some (stem, ext) => Some (String c stem, ext)
      | None => if Ascii.eqb c "." then Some (EmptyString, b) else None
      end
  end.

Definition splitext_stem (b : string) : string :=
  match split_last_dot b with
  | Some (stem, ext) => if all_chars (Ascii.eqb ".") stem then b else stem
  | None => b
  end.

(** [os.path.splitext(p)[0]] for a path: the directories stay. *)
Definition splitext_root (p : string) : string :=
  let b := basename p in
  String.substring 0 (String.length p - String.length b) p +:+ splitext_stem b.

(** The first character of a string: one to four bytes of UTF-8. *)
Definition first_char (s : string) : string :=
  match s with
  | EmptyString => EmptyString
  | String c _ =>
      let n := N_of_ascii c in
      let len :=
        if (n <? 128)%N then 1%nat
        else if (N.land n 240 =? 224)%N then 3%nat
        else if (N.land n 240 =? 240)%N then 4%nat
        else 2%nat in
      String.substring 0 len s
  end.

End Py.

(** ** Regular expressions: the fragment of [re] the code uses *)

Module Re.

Inductive regex : Type :=
  | Class (p : ascii → bool)        (* one character of a class *)
  | Seq (r1 r2 : regex)             (* r1 r2 *)
  | Alt (r1 r2 : regex)             (* r1|r2 *)
  | Range (lo hi : nat) (r : regex) (* r{lo,hi}, greedy *)
  | Plus (r : regex)                (* r+ *)
  | Bos                             (* ^ *)
  | Eos                             (* $ *)
  | NotAhead (r : regex).           (* (?!r) *)

Definition Char (c : ascii) : regex := Class (Ascii.eqb c).
Definition Opt (r : regex) : regex := Range 0 1 r.

Fixpoint exactly (step : string → list string) (n : nat) (s : string) : list string :=
  match n with
  | O => [s]
  | S n' => flat_map (exactly step n') (step s)
  end.

Fixpoint at_most (step : string → list string) (n : nat) (s : string) : list string :=
  match n with
  | O => [s]
  | S n' => flat_map (at_most step n') (step s) ++ [s]
  end.

Definition shorter (s t : string) : bool := (String.length t <? String.length s)%nat.

(** Greedy repetition; an iteration that consumes nothing is not repeated,
    so [length s] iterations are enough. *)
Fixpoint star (step : string → list string) (fuel : nat) (s : string) : list string :=
  match fuel with
  | O => [s]
  | S f => flat_map (star step f) (List.filter (shorter s) (step s)) ++ [s]
  end.

(** [run n r s]: the suffixes of [s] left after a match of [r] at the start
    of [s], in the order in which a backtracking matcher tries them; [n] is
    the length of the whole subject, which [^] needs. *)
Fixpoint run (n : nat) (r : regex) (s : string) : list string :=
  match r with
  | Class p =>
      match s with
      | String c s' => if p c then [s'] else []
      | EmptyString => []
      end
  | Seq r1 r2 => flat_map (run n r2) (run n r1 s)
  | Alt r1 r2 => run n r1 s ++ run n r2 s
  | Range lo hi r' => flat_map (at_most (run n r') (hi - lo)) (exactly (run n r') lo s)
  | Plus r' => flat_map (star (run n r') (String.length s)) (run n r' s)
  | Bos => if (String.length s =? n)%nat then [s] else []
  | Eos =>
      match s with
      | EmptyString => [s]
      | String c EmptyString => if (N_of_ascii c =? 10)%N then [s] else []
      | _ => []
      end
  | NotAhead r' => match run n r' s with [] => [s] | _ => [] end
  end.

(** [r.match(s)] as a truth value. *)
Definition matches (r : regex) (s : string) : bool :=
  match run (String.length s) r s with
  | [] => false
  | _ => true
  end.

(** A sequence of regular expressions, one after the other. *)
Fixpoint seqs (rs : list regex) (last : regex) : regex :=
  match rs with
  | [] => last
  | r :: rs' => Seq r (seqs rs' last)
  end.

Definition digit : regex := Class Py.isdigit.               (* \d *)
Definition between (lo hi : ascii) : regex :=               (* [lo-hi] *)
  Class (λ c, (N_of_ascii lo <=? N_of_ascii c)%N && (N_of_ascii c <=? N_of_ascii hi)%N).

End Re.

(** ** [float]: parsing a string, rounding to a double, [int(float)] *)

Module PyFloat.

(** A double: not-a-number, an infinity, or [(-1)^neg * m * 2^e]. *)
Inductive float : Type :=
  | Nan
  | Inf (neg : bool)
  | Finite (neg : bool) (m : Z) (e : Z).

(** The correctly rounded double (nearest, ties to even) of the positive
    rational [num / den]: 53 bits of mantissa, exponent at least -1074,
    overflow to infinity from [2^1024]. *)
Definition of_ratio (neg : bool) (num den : Z) : float :=
  if num =? 0 then Finite neg 0 0 else
  let L := Z.log2 num - Z.log2 den in
  let above := if 0 <=? L then den * 2 ^ L <=? num else den <=? num * 2 ^ (- L) in
  let fl := if above then L else L - 1 in
  let e := Z.max (fl - 52) (-1074) in
  let n' := if 0 <=? e then num else num * 2 ^ (- e) in
  let d' := if 0 <=? e then den * 2 ^ e else den in
  let q := n' / d' in
  let r := n' mod d' in
  let m := match 2 * r ?= d' with
           | Lt => q
           | Gt => q + 1
           | Eq => if Z.even q then q else q + 1
           end in
  if (0 <=? e) && (2 ^ 1024 <=? m * 2 ^ e) then Inf neg else Finite neg m e.

(** The double of the decimal [m * 10^e10]. *)
Definition of_decimal (neg : bool) (m e10 : Z) : float :=
  if 0 <=? e10 then of_ratio neg (m * 10 ^ e10) 1 else of_ratio neg m (10 ^ (- e10)).

(** Underscores are allowed between two digits only; they are dropped. *)
Fixpoint drop_underscores (prev : ascii) (s : string) : option string :=
  match s with
  | EmptyString => if Ascii.eqb prev "_" then None else Some EmptyString
  | String c s' =>
      if Ascii.eqb c "_" then
        if Py.isdigit prev then drop_underscores c s' else None
      else if Ascii.eqb prev "_" && negb (Py.isdigit c) then None
      else String c <$> drop_underscores c s'
  end.

(** The white space that [float] itself strips. *)
Definition c_isspace (c : ascii) : bool :=
  let n := N_of_ascii c in ((9 <=? n) && (n <=? 13) || (n =? 32))%N.

Fixpoint lstrip (s : string) : string :=
  match s with
  | EmptyString => EmptyString
  | String c s' => if c_isspace c then lstrip s' else s
  end.

Fixpoint rstrip (s : string) : string :=
  match s with
  | EmptyString => EmptyString
  | String c s' =>
      match rstrip s' with
      | EmptyString => if c_isspace c then EmptyString else String c EmptyString
      | r => String c r
      end
  end.

Definition parse_sign (s : string) : bool * string :=
  match s with
  | String "-" s' => (true, s')
  | String "+" s' => (false, s')
  | _ => (false, s)
  end.

(** The longest prefix of digits, and what follows it. *)
Fixpoint take_digits (s : string) : string * string :=
  match s with
  | String c s' =>
      if Py.isdigit c then let '(d, r) := take_digits s' in (String c d, r)
      else (EmptyString, s)
  | EmptyString => (EmptyString, EmptyString)
  end.

(** [digits [. digits] [e [sign] digits]], with a digit before the exponent,
    up to the end of the string: the mantissa as an integer and the power
    of ten. *)
Definition parse_decimal (s : string) : option (Z * Z) :=
  let '(ipart, r1) := take_digits s in
  let '(fpart, r2) :=
    match r1 with
    | String "." r => take_digits r
    | _ => (EmptyString, r1)
    end in
  if negb (Py.truthy ipart) && negb (Py.truthy fpart) then None else
  let m := Py.int_of_digits (ipart +:+ fpart) in
  let k := Z.of_nat (String.length fpart) in
  match r2 with
  | EmptyString => Some (m, - k)
  | String c r3 =>
      if Ascii.eqb c "e" || Ascii.eqb c "E" then
        let '(eneg, r4) := parse_sign r3 in
        let '(edigits, r5) := take_digits r4 in
        if Py.truthy edigits && negb (Py.truthy r5) then
          let ex := Py.int_of_digits edigits in
          Some (m, (if eneg then - ex else ex) - k)
        else None
      else None
  end.

(** [float(s)]; [None] is the [ValueError] of a malformed string. *)
Definition of_string (s : string) : option float :=
  match drop_underscores " " s with
  | None => None
  | Some s1 =>
      let '(neg, body) := parse_sign (rstrip (lstrip s1)) in
      let low := Py.lower body in
      if String.eqb low "inf" || String.eqb low "infinity" then Some (Inf neg)
      else if String.eqb low "nan" then Some Nan
      else match parse_decimal body with
           | Some (m, e10) => Some (of_decimal neg m e10)
           | None => None
           end
  end.

(** [int(f)]: truncation toward zero; an infinity raises [OverflowError],
    not-a-number raises [ValueError]. *)
Definition to_int (f : float) : Res Z :=
  match f with
  | Nan => Raise ValueError
  | Inf _ => Raise OverflowError
  | Finite neg m e =>
      let a := if 0 <=? e then m * 2 ^ e else m / 2 ^ (- e) in
      Ok (if neg then - a else a)
  end.

(** [f.is_integer()] *)
Definition is_integer (f : float) : bool :=
  match f with
  | Finite _ m e => (0 <=? e) || (m mod 2 ^ (- e) =? 0)
  | _ => false
  end.

End PyFloat.

(** ** [datetime]: construction, ISO output, [fromisoformat], [strptime] *)

Module Datetime.

(** A [datetime] object; [tzinfo] is the UTC offset in microseconds of an
    aware value, [None] for a naive one. *)
Record datetime : Type := mk {
  year : Z; month : Z; day : Z;
  hour : Z; minute : Z; second : Z; microsecond : Z;
  tzinfo : option Z
}.

Definition is_leap (y : Z) : bool :=
  (y mod 4 =? 0) && (negb (y mod 100 =? 0) || (y mod 400 =? 0)).

Definition days_in_month (y m : Z) : Z :=
  if (m =? 2) && is_leap y then 29
  else nth (Z.to_nat m) [0; 31; 28; 31; 30; 31; 30; 31; 31; 30; 31; 30; 31] 0.

Definition days_before_year (y : Z) : Z :=
  let p := y - 1 in p * 365 + p / 4 - p / 100 + p / 400.

Definition days_before_month (y m : Z) : Z :=
  nth (Z.to_nat m) [0; 0; 31; 59; 90; 120; 151; 181; 212; 243; 273; 304; 334] 0
  + (if (2 <? m) && is_leap y then 1 else 0).

(** [_ymd2ord]: day number, 0001-01-01 is day 1. *)
Definition ymd2ord (y m d : Z) : Z :=
  days_before_year y + days_before_month y m + d.

(** [_ord2ymd] *)
Definition ord2ymd (ordinal : Z) : Z * Z * Z :=
  let n := ordinal - 1 in
  let n400 := n / 146097 in let n := n mod 146097 in
  let n100 := n / 36524 in let n := n mod 36524 in
  let n4 := n / 1461 in let n := n mod 1461 in
  let n1 := n / 365 in let n := n mod 365 in
  let y := n400 * 400 + 1 + n100 * 100 + n4 * 4 + n1 in
  if (n1 =? 4) || (n100 =? 4) then (y - 1, 12, 31)
  else
    let leapyear := (n1 =? 3) && (negb (n4 =? 24) || (n100 =? 3)) in
    let m := Z.shiftr (n + 50) 5 in
    let preceding :=
      nth (Z.to_nat m) [0; 0; 31; 59; 90; 120; 151; 181; 212; 243; 273; 304; 334] 0
      + (if (2 <? m) && leapyear then 1 else 0) in
    if n <? preceding then
      let m' := m - 1 in
      let preceding' :=
        preceding
        - (nth (Z.to_nat m') [0; 31; 28; 31; 30; 31; 30; 31; 31; 30; 31; 30; 31] 0
           + (if (m' =? 2) && leapyear then 1 else 0)) in
      (y, m', n - preceding' + 1)
    else (y, m, n - preceding + 1).

Definition MAXORDINAL : Z := 3652059.
Definition DAY_US : Z := 86400 * 1000000.

(** The range checks of the constructor ([_check_date_fields],
    [_check_time_fields], and the bound of [timezone]). *)
Definition valid_fields (dt : datetime) : bool :=
  (1 <=? year dt) && (year dt <=? 9999) &&
  (1 <=? month dt) && (month dt <=? 12) &&
  (1 <=? day dt) && (day dt <=? days_in_month (year dt) (month dt)) &&
  (0 <=? hour dt) && (hour dt <=? 23) &&
  (0 <=? minute dt) && (minute dt <=? 59) &&
  (0 <=? second dt) && (second dt <=? 59) &&
  (0 <=? microsecond dt) && (microsecond dt <=? 999999) &&
  match tzinfo dt with
  | Some off => (- DAY_US <? off) && (off <? DAY_US)
  | None => true
  end.

(** [datetime(y, m, d, H, M, S, us, tzinfo)]; [None] is its [ValueError]. *)
Definition make (y m d H M S us : Z) (tz : option Z) : option datetime :=
  let dt := mk y m d H M S us tz in
  if valid_fields dt then Some dt else None.

(** [dt.replace(tzinfo=timezone.utc)] and [dt.replace(microsecond=0)] *)
Definition replace_tzinfo_utc (dt : datetime) : datetime :=
  mk (year dt) (month dt) (day dt) (hour dt) (minute dt) (second dt) (microsecond dt) (Some 0).

Definition replace_microsecond_0 (dt : datetime) : datetime :=
  mk (year dt) (month dt) (day dt) (hour dt) (minute dt) (second dt) 0 (tzinfo dt).

(** [dt.astimezone(timezone.utc)] for an aware [dt]: the offset is
    subtracted; [None] is the [OverflowError] of a result out of range. *)
Definition astimezone_utc (dt : datetime) : option datetime :=
  let off := default 0 (tzinfo dt) in
  let secs := hour dt * 3600 + minute dt * 60 + second dt in
  let total :=
    (ymd2ord (year dt) (month dt) (day dt) * 86400 + secs) * 1000000
    + microsecond dt - off in
  let days := total / DAY_US in
  let rem := total mod DAY_US in
  if (0 <? days) && (days <=? MAXORDINAL) then
    let '(y, m, d) := ord2ymd days in
    let s := rem / 1000000 in
    make y m d (s / 3600) (s mod 3600 / 60) (s mod 60) (rem mod 1000000) (Some 0)
  else None.

(** The UTC offset as [isoformat] prints it: [+HH:MM[:SS[.ffffff]]]. *)
Definition format_offset (off : Z) : string :=
  let a := Z.abs off in
  let hh := a / 3600000000 in
  let mm := a mod 3600000000 / 60000000 in
  let ss := a mod 60000000 / 1000000 in
  let us := a mod 1000000 in
  (if off <? 0 then "-" else "+") +:+ Py.zfill 2 hh +:+ ":" +:+ Py.zfill 2 mm +:+
  (if (ss =? 0) && (us =? 0) then ""
   else ":" +:+ Py.zfill 2 ss +:+ (if us =? 0 then "" else "." +:+ Py.zfill 6 us)).

(** [dt.isoformat(sep)] *)
Definition isoformat_sep (sep : string) (dt : datetime) : string :=
  Py.zfill 4 (year dt) +:+ "-" +:+ Py.zfill 2 (month dt) +:+ "-" +:+ Py.zfill 2 (day dt) +:+
  sep +:+
  Py.zfill 2 (hour dt) +:+ ":" +:+ Py.zfill 2 (minute dt) +:+ ":" +:+ Py.zfill 2 (second dt) +:+
  (if microsecond dt =? 0 then "" else "." +:+ Py.zfill 6 (microsecond dt)) +:+
  match tzinfo dt with
  | Some off => format_offset off
  | None => ""
  end.

Definition isoformat : datetime → string := isoformat_sep "T".

(** [str(dt)] *)
Definition str : datetime → string := isoformat_sep " ".

(** [dt.strftime] for the formats of the code, in the C library's way: the
    year [%Y] unpadded, the other fields on two digits. *)
Definition strftime_ymd_hms (dsep mid tsep : string) (dt : datetime) : string :=
  Py.str_of_Z (year dt) +:+ dsep +:+ Py.zfill 2 (month dt) +:+ dsep +:+ Py.zfill 2 (day dt) +:+
  mid +:+
  Py.zfill 2 (hour dt) +:+ tsep +:+ Py.zfill 2 (minute dt) +:+ tsep +:+ Py.zfill 2 (second dt).

(** *** [datetime.fromisoformat]

    The format documented for Python 3.7 to 3.10, the inverse of
    [isoformat]: [YYYY-MM-DD[*HH[:MM[:SS[.fff[fff]]]][+HH:MM[:SS[.ffffff]]]]],
    where [*] is any one character. *)

(** Exactly [n] digits at the start of [s]: their value, and the rest. *)
Fixpoint digits (n : nat) (acc : Z) (s : string) : option (Z * string) :=
  match n with
  | O => Some (acc, s)
  | S n' =>
      match s with
      | String c s' =>
          if Py.isdigit c then digits n' (10 * acc + Py.digit_val c) s' else None
      | EmptyString => None
      end
  end.

(** The character [c] at the start of [s]: the rest. *)
Definition expect (c : ascii) (s : string) : option string :=
  match s with
  | String d s' => if Ascii.eqb c d then Some s' else None
  | EmptyString => None
  end.

Definition parse_isoformat_date (s : string) : option (Z * Z * Z * string) :=
  '(y, s) ← digits 4 0 s;
  s ← expect "-" s;
  '(m, s) ← digits 2 0 s;
  s ← expect "-" s;
  '(d, s) ← digits 2 0 s;
  Some (y, m, d, s).

(** [.fff] or [.ffffff] up to the end of the string. *)
Definition parse_fraction (s : string) : option Z :=
  match String.length s with
  | 3%nat => '(v, _) ← digits 3 0 s; Some (v * 1000)
  | 6%nat => '(v, _) ← digits 6 0 s; Some v
  | _ => None
  end.

(** [HH[:MM[:SS[.fff[fff]]]]] up to the end of the string. *)
Definition parse_hh_mm_ss_ff (s : string) : option (Z * Z * Z * Z) :=
  '(h, s) ← digits 2 0 s;
  match s with
  | EmptyString => Some (h, 0, 0, 0)
  | String c s =>
      if negb (Ascii.eqb c ":") then None else
      '(m, s) ← digits 2 0 s;
      match s with
      | EmptyString => Some (h, m, 0, 0)
      | String c s =>
          if negb (Ascii.eqb c ":") then None else
          '(sec, s) ← digits 2 0 s;
          match s with
          | EmptyString => Some (h, m, sec, 0)
          | String c s =>
              if negb (Ascii.eqb c ".") then None else
              us ← parse_fraction s; Some (h, m, sec, us)
          end
      end
  end.

(** The time and what follows the first sign, if there is one. *)
Fixpoint split_at_sign (s : string) : string * option (bool * string) :=
  match s with
  | EmptyString => (EmptyString, None)
  | String c s' =>
      if Ascii.eqb c "+" then (EmptyString, Some (false, s'))
      else if Ascii.eqb c "-" then (EmptyString, Some (true, s'))
      else let '(t, z) := split_at_sign s' in (String c t, z)
  end.

Definition parse_isoformat_time (s : string) : option (Z * Z * Z * Z * option Z) :=
  let '(tstr, tz) := split_at_sign s in
  '(h, m, sec, us) ← parse_hh_mm_ss_ff tstr;
  match tz with
  | None => Some (h, m, sec, us, None)
  | Some (neg, zstr) =>
      let n := String.length zstr in
      if negb ((n =? 5)%nat || (n =? 8)%nat || (n =? 15)%nat) then None else
      '(zh, zm, zs, zus) ← parse_hh_mm_ss_ff zstr;
      let off := ((zh * 3600 + zm * 60 + zs) * 1000000 + zus) in
      Some (h, m, sec, us, Some (if neg then - off else off))
  end.

(** The separator is one character: one to four bytes of UTF-8. *)
Definition skip_separator (s : string) : option string :=
  match s with
  | EmptyString => None
  | String c s' =>
      let n := N_of_ascii c in
      let extra :=
        if (n <? 128)%N then 0%nat
        else if (N.land n 240 =? 224)%N then 2%nat
        else if (N.land n 240 =? 240)%N then 3%nat
        else 1%nat in
      if (extra <=? String.length s')%nat
      then Some (String.substring extra (String.length s' - extra) s')
      else None
  end.

Definition fromisoformat (s : string) : option datetime :=
  '(y, m, d, rest) ← parse_isoformat_date s;
  match rest with
  | EmptyString => make y m d 0 0 0 0 None
  | _ =>
      tstr ← skip_separator rest;
      '(h, mi, sec, us, tz) ← parse_isoformat_time tstr;
      make y m d h mi sec us tz
  end.

(** *** [datetime.strptime]

    The format is compiled to a regular expression; each directive is a
    group with its alternatives in the order of [_strptime.TimeRE], a blank
    of the format is [\s+], and any other character stands for itself,
    whatever its case. *)

Inductive directive : Type :=
  | DYear | DMonth | DDay | DHour | DMinute | DSecond
  | DSpace
  | DLit (c : ascii).

Fixpoint compile_format (fmt : string) : list directive :=
  match fmt with
  | EmptyString => []
  | String "%" (String "Y" f) => DYear :: compile_format f
  | String "%" (String "m" f) => DMonth :: compile_format f
  | String "%" (String "d" f) => DDay :: compile_format f
  | String "%" (String "H" f) => DHour :: compile_format f
  | String "%" (String "M" f) => DMinute :: compile_format f
  | String "%" (String "S" f) => DSecond :: compile_format f
  | String c f =>
      if Py.isspace c then
        match compile_format f with
        | DSpace :: ds => DSpace :: ds
        | ds => DSpace :: ds
        end
      else DLit c :: compile_format f
  end.

Definition directive_regex (d : directive) : Re.regex :=
  match d with
  | DYear => Re.seqs [Re.digit; Re.digit; Re.digit] Re.digit
  | DMonth =>
      Re.Alt (Re.Seq (Re.Char "1") (Re.between "0" "2"))
        (Re.Alt (Re.Seq (Re.Char "0") (Re.between "1" "9")) (Re.between "1" "9"))
  | DDay =>
      Re.Alt (Re.Seq (Re.Char "3") (Re.between "0" "1"))
        (Re.Alt (Re.Seq (Re.between "1" "2") Re.digit)
           (Re.Alt (Re.Seq (Re.Char "0") (Re.between "1" "9"))
              (Re.Alt (Re.between "1" "9") (Re.Seq (Re.Char " ") (Re.between "1" "9")))))
  | DHour =>
      Re.Alt (Re.Seq (Re.Char "2") (Re.between "0" "3"))
        (Re.Alt (Re.Seq (Re.between "0" "1") Re.digit) Re.digit)
  | DMinute => Re.Alt (Re.Seq (Re.between "0" "5") Re.digit) Re.digit
  | DSecond =>
      Re.Alt (Re.Seq (Re.Char "6") (Re.between "0" "1"))
        (Re.Alt (Re.Seq (Re.between "0" "5") Re.digit) Re.digit)
  | DSpace => Re.Plus (Re.Class Py.isspace)
  | DLit c => Re.Class (λ d, Ascii.eqb (Py.lower_char d) (Py.lower_char c))
  end.

(** The values found so far: year, month, day, hour, minute, second. *)
Record found : Type := mk_found {
  f_year : Z; f_month : Z; f_day : Z; f_hour : Z; f_minute : Z; f_second : Z
}.

Definition set_found (d : directive) (v : Z) (f : found) : found :=
  match d with
  | DYear => mk_found v (f_month f) (f_day f) (f_hour f) (f_minute f) (f_second f)
  | DMonth => mk_found (f_year f) v (f_day f) (f_hour f) (f_minute f) (f_second f)
  | DDay => mk_found (f_year f) (f_month f) v (f_hour f) (f_minute f) (f_second f)
  | DHour => mk_found (f_year f) (f_month f) (f_day f) v (f_minute f) (f_second f)
  | DMinute => mk_found (f_year f) (f_month f) (f_day f) (f_hour f) v (f_second f)
  | DSecond => mk_found (f_year f) (f_month f) (f_day f) (f_hour f) (f_minute f) v
  | _ => f
  end.

(** The text a match consumed: [s] without the suffix [rest]. *)
Definition consumed (s rest : string) : string :=
  String.substring 0 (String.length s - String.length rest) s.

(** All ways to match the directives at the start of [s], first choice
    first: the values found and the text left. *)
Fixpoint match_format (ds : list directive) (f : found) (s : string) : list (found * string) :=
  match ds with
  | [] => [(f, s)]
  | d :: ds' =>
      flat_map
        (λ rest, match_format ds'
                   (set_found d (Py.int_of_digits (Py.strip (consumed s rest))) f) rest)
        (Re.run (String.length s) (directive_regex d) s)
  end.

(** [datetime.strptime(s, fmt)]; [None] is its [ValueError]: no match,
    unconverted data after the match, or fields out of range. *)
Definition strptime (s fmt : string) : option datetime :=
  match match_format (compile_format fmt) (mk_found 1900 1 1 0 0 0) s with
  | (f, EmptyString) :: _ =>
      make (f_year f) (f_month f) (f_day f) (f_hour f) (f_minute f) (f_second f) 0 None
  | _ => None
  end.

End Datetime.

(** ** [ipaddress.ip_address]: which version, if any, a string denotes *)

Module IpAddress.

Inductive version : Type := V4 | V6.

(** [IPv4Address._parse_octet]: one to three ASCII digits, no leading
    zero, at most 255. *)
Definition parse_octet (o : string) : bool :=
  Py.truthy o && Py.all_chars Py.isdigit o && (String.length o <=? 3)%nat &&
  (String.eqb o "0" || negb (String.eqb (String.substring 0 1 o) "0")) &&
  (Py.int_of_digits o <=? 255).

(** [IPv4Address(s)] succeeds. *)
Definition is_ipv4 (s : string) : bool :=
  negb (Py.contains "/" s) && Py.truthy s &&
  match Py.split "." s with
  | [a; b; c; d] => parse_octet a && parse_octet b && parse_octet c && parse_octet d
  | _ => false
  end.

Definition ishex (c : ascii) : bool :=
  let n := N_of_ascii c in
  Py.isdigit c || ((65 <=? n) && (n <=? 70))%N || ((97 <=? n) && (n <=? 102))%N.

(** [IPv6Address._parse_hextet]: one to four hexadecimal digits. *)
Definition parse_hextet (h : string) : bool :=
  Py.all_chars ishex h && (String.length h <=? 4)%nat && Py.truthy h.

(** [IPv6Address._split_scope_id]: the address before a [%], which must be
    followed by a scope without [%]. *)
Definition split_scope_id (s : string) : option string :=
  match Py.split "%" s with
  | [addr] => Some addr
  | [addr; scope] => if Py.truthy scope then Some addr else None
  | _ => None
  end.

(** The positions from 1 to [length parts - 2] whose part is empty. *)
Definition inner_empty (parts : list string) : list nat :=
  List.filter (λ i, negb (Py.truthy (nth i parts "x"))) (seq 1 (length parts - 2)).

(** [IPv6Address._ip_int_from_string] succeeds. *)
Definition ipv6_body (s : string) : bool :=
  Py.truthy s &&
  let parts := Py.split ":" s in
  (3 <=? length parts)%nat &&
  let last := List.last parts "" in
  (* an IPv4 suffix is replaced by its two hextets *)
  (negb (Py.contains "." last) || is_ipv4 last) &&
  let parts := if Py.contains "." last then removelast parts ++ ["0"; "0"] else parts in
  let n := length parts in
  (n <=? 9)%nat &&
  match inner_empty parts with
  | [] =>
      (n =? 8)%nat && forallb parse_hextet parts
  | [skip] =>
      let first_empty := negb (Py.truthy (nth 0 parts "x")) in
      let last_empty := negb (Py.truthy (List.last parts "x")) in
      let hi := if first_empty then (skip - 1)%nat else skip in
      let lo := if last_empty then (n - skip - 2)%nat else (n - skip - 1)%nat in
      (negb first_empty || (hi =? 0)%nat) &&
      (negb last_empty || (lo =? 0)%nat) &&
      (hi + lo <? 8)%nat &&
      forallb parse_hextet (firstn hi parts) &&
      forallb parse_hextet (skipn (n - lo) parts)
  | _ => false
  end.

(** [IPv6Address(s)] succeeds. *)
Definition is_ipv6 (s : string) : bool :=
  negb (Py.contains "/" s) &&
  match split_scope_id s with
  | Some addr => ipv6_body addr
  | None => false
  end.

(** [ipaddress.ip_address(s).version]; [None] is the [ValueError]. *)
Definition ip_version (s : string) : option version :=
  if is_ipv4 s then Some V4
  else if is_ipv6 s then Some V6
  else None.

End IpAddress.

(** ** [app/dq_rules.py] *)

(** A raw row as the reader produces it: header name to cell text. *)
Abbreviation raw_row := (gmap string string).

Definition RAW_REQUIRED_COLS : list string :=
  ["Review Id"; "Reviewer Id"; "Business Id"; "Review Rating"; "Review Date"].

(** [[^@\s]]: neither an at sign nor white space. *)
Definition not_at_space : Re.regex :=
  Re.Class (λ c, negb (Ascii.eqb c "@" || Py.isspace c)).

(** [^[^@\s]+@[^@\s]+\.[^@\s]+$] *)
Definition EMAIL_RE : Re.regex :=
  Re.seqs [Re.Bos; Re.Plus not_at_space; Re.Char "@"; Re.Plus not_at_space;
           Re.Char "."; Re.Plus not_at_space] Re.Eos.

(** [25[0-5]|2[0-4]\d|[01]?\d?\d] *)
Definition octet_re : Re.regex :=
  Re.Alt (Re.seqs [Re.Char "2"; Re.Char "5"] (Re.between "0" "5"))
    (Re.Alt (Re.seqs [Re.Char "2"; Re.between "0" "4"] Re.digit)
       (Re.seqs [Re.Opt (Re.between "0" "1"); Re.Opt Re.digit] Re.digit)).

Definition hex_re : Re.regex := Re.Class IpAddress.ishex.

(** [^((25[0-5]|2[0-4]\d|[01]?\d?\d)(\.(?!$)|$)){4}$|^([0-9a-fA-F]{0,4}:){2,7}[0-9a-fA-F]{0,4}$] *)
Definition IP_RE : Re.regex :=
  Re.Alt
    (Re.seqs
       [Re.Bos;
        Re.Range 4 4
          (Re.Seq octet_re (Re.Alt (Re.Seq (Re.Char ".") (Re.NotAhead Re.Eos)) Re.Eos))]
       Re.Eos)
    (Re.seqs
       [Re.Bos; Re.Range 2 7 (Re.Seq (Re.Range 0 4 hex_re) (Re.Char ":"));
        Re.Range 0 4 hex_re]
       Re.Eos).

Definition _DATE_PATTERNS : list string :=
  [ "%Y-%m-%d";
    "%Y-%m-%d %H:%M:%S";
    "%d/%m/%Y";
    "%d/%m/%Y %H:%M:%S";
    "%m/%d/%Y";
    "%m/%d/%Y %H:%M:%S";
    "%Y-%m-%dT%H:%M:%S";
    "%Y-%m-%dT%H:%M:%SZ";
    "%Y-%m-%d %H:%M" ].

(** [([+-]\d{2})(\d{2})$] *)
Definition OFFSET_RE : Re.regex :=
  Re.seqs [Re.Class (λ c, Ascii.eqb c "+" || Ascii.eqb c "-");
           Re.digit; Re.digit; Re.digit; Re.digit] Re.Eos.

(** [re.sub(r'([+-]\d{2})(\d{2})$', r'\1:\2', s)]: at the leftmost match the
    colon goes between the two groups. *)
Fixpoint normalize_offset (s : string) : string :=
  if Re.matches OFFSET_RE s
  then String.substring 0 3 s +:+ ":" +:+ String.substring 3 (String.length s - 3) s
  else match s with
       | EmptyString => EmptyString
       | String c s' => String c (normalize_offset s')
       end.

(** The [try] block of the ISO fast path: the aware UTC value, or [None]
    when an exception is raised in it. *)
Definition iso_fast_path (s : string) : option Datetime.datetime :=
  if Py.endswith s "Z" then
    Datetime.replace_tzinfo_utc <$> Datetime.fromisoformat (Py.drop_last s)
  else
    dt ← Datetime.fromisoformat (normalize_offset s);
    match Datetime.tzinfo dt with
    | None => Some (Datetime.replace_tzinfo_utc dt)
    | Some _ => Datetime.astimezone_utc dt
    end.

(** [dt.replace(microsecond=0).isoformat().replace("+00:00", "Z")] *)
Definition iso_z (dt : Datetime.datetime) : string :=
  Py.replace "+00:00" "Z" (Datetime.isoformat (Datetime.replace_microsecond_0 dt)).

(** The loop over the known patterns: the first that parses. *)
Fixpoint try_patterns (pats : list string) (s : string) : option Datetime.datetime :=
  match pats with
  | [] => None
  | pat :: pats' =>
      match Datetime.strptime s pat with
      | Some dt => Some (Datetime.replace_tzinfo_utc dt)
      | None => try_patterns pats' s
      end
  end.

Definition parse_date_to_iso_utc (s : string) : option string :=
  if negb (Py.truthy s) then None else
  let s := Py.strip s in
  match iso_fast_path s with
  | Some dt => Some (iso_z dt)
  | None => iso_z <$> try_patterns _DATE_PATTERNS s
  end.

(** [coerce_int]: only the [ValueError] of [int(float(v))] is caught. *)
Definition coerce_int (v : option string) : Res (option Z) :=
  match v with
  | None => Ok None
  | Some v =>
      let v := Py.strip v in
      if String.eqb v "" then Ok None else
      match PyFloat.of_string v with
      | None => Ok None
      | Some f =>
          match PyFloat.to_int f with
          | Ok z => Ok (Some z)
          | Raise ValueError => Ok None
          | Raise e => Raise e
          end
      end
  end.

(** [trim(s)]: [s.strip()] for a string, [None] stays [None]. *)
Definition trim (s : option string) : option string := Py.strip <$> s.

(** The normalized row: the dictionary with the snake_case keys, and the
    two lineage keys that [process_file] adds. *)
Record normalized : Type := mk_normalized {
  n_user_id : option string;
  n_email_address : option string;
  n_user_name : option string;
  n_reviewer_country : option string;
  n_business_id : option string;
  n_business_name : option string;
  n_review_id : option string;
  n_review_date : option string;
  n_review_rating : option Z;
  n_review_title : option string;
  n_review_content : option string;
  n_review_ip_address : option string;
  n_source_file : option string;
  n_source_row : option Z
}.

(** [x or None] *)
Definition or_none (o : option string) : option string :=
  if Py.otruthy o then o else None.

Definition missing_column_errors (raw : raw_row) : list string :=
  flat_map (λ col, match raw !! col with
                   | None => ["missing required column: " +:+ col]
                   | Some _ => []
                   end) RAW_REQUIRED_COLS.

Definition rating_in_range (r : option Z) : bool :=
  match r with
  | Some z => bool_decide (z ∈ [1; 2; 3; 4; 5])
  | None => false
  end.

Definition validate_row (raw : raw_row) : Res (bool * list string * normalized) :=
  let errors := missing_column_errors raw in
  let review_id := trim (raw !! "Review Id") in
  let reviewer_id := trim (raw !! "Reviewer Id") in
  let business_id := trim (raw !! "Business Id") in
  review_rating ← coerce_int (Some (default "" (raw !! "Review Rating")));
  let review_date_iso :=
    parse_date_to_iso_utc (Py.strip (default "" (raw !! "Review Date"))) in
  let errors := errors ++
    (if Py.otruthy review_id then [] else ["Review Id is null/empty"]) ++
    (if Py.otruthy reviewer_id then [] else ["Reviewer Id is null/empty"]) ++
    (if Py.otruthy business_id then [] else ["Business Id is null/empty"]) ++
    (if rating_in_range review_rating then []
     else ["Review Rating invalid: " +:+ Py.repr_opt (raw !! "Review Rating")]) ++
    (if Py.otruthy review_date_iso then []
     else ["Review Date unparsable: " +:+ Py.repr_opt (raw !! "Review Date")]) in
  let email := trim (raw !! "Email Address") in
  let errors := errors ++
    match email with
    | Some e => if Py.truthy e && negb (Re.matches EMAIL_RE e)
                then ["Email Address invalid: " +:+ Py.repr e] else []
    | None => []
    end in
  let ip := trim (raw !! "Review IP Address") in
  let errors := errors ++
    match ip with
    | Some i => if Py.truthy i && negb (Re.matches IP_RE i)
                then ["Review IP Address invalid: " +:+ Py.repr i] else []
    | None => []
    end in
  let normalized :=
    {| n_user_id := reviewer_id;
       n_email_address := or_none email;
       n_user_name := trim (raw !! "Reviewer Name");
       n_reviewer_country := trim (raw !! "Reviewer Country");
       n_business_id := business_id;
       n_business_name := trim (raw !! "Business Name");
       n_review_id := review_id;
       n_review_date := review_date_iso;
       n_review_rating := review_rating;
       n_review_title := trim (raw !! "Review Title");
       n_review_content := trim (raw !! "Review Content");
       n_review_ip_address := ip;
       n_source_file := None;
       n_source_row := None |} in
  Ok (bool_decide (errors = []), errors, normalized).

Definition DUPLICATE_MSG : string := "Duplicate Review Id within file".

(** The loop state of [validate_batch]: [seen], [dups], [per_row_errors]. *)
Definition batch_state : Type := gset string * list nat * gmap nat (list string).

(** One iteration of [for idx, row in enumerate(rows)]. *)
Definition validate_batch_step (st : batch_state) (ir : nat * raw_row) : batch_state :=
  let '(seen, dups, per_row_errors) := st in
  let '(idx, row) := ir in
  match trim (row !! "Review Id") with
  | Some rid =>
      if Py.truthy rid then
        if decide (rid ∈ seen) then
          (seen, dups ++ [idx],
           <[idx := default [] (per_row_errors !! idx) ++ [DUPLICATE_MSG]]> per_row_errors)
        else ({[rid]} ∪ seen, dups, per_row_errors)
      else st
  | None => st
  end.

Definition validate_batch (rows : list raw_row) : list nat * gmap nat (list string) :=
  let '(_, dups, per_row_errors) :=
    fold_left validate_batch_step (Py.enumerate 0 rows) (∅, [], ∅) in
  (dups, per_row_errors).

(** ** [app/models.py]: the tables and the two views *)

(** A row of [business]; [business_name] is [NOT NULL]. *)
Record Business : Type := mk_business {
  b_business_name : string;
  b_first_review_date : option string;
  b_last_review_date : option string;
  b_total_reviews : Z
}.

(** A row of [user]. *)
Record User : Type := mk_user {
  u_email_address : option string;
  u_email_hash : option string;
  u_user_name : option string;
  u_user_name_redacted : option string;
  u_reviewer_country : option string;
  u_first_review_date : option string;
  u_total_reviews : Z
}.

(** A row of [review]; the first four columns are [NOT NULL]. *)
Record Review : Type := mk_review {
  r_user_id : string;
  r_business_id : string;
  r_review_date : string;
  r_review_rating : Z;
  r_review_title : option string;
  r_review_content : option string;
  r_review_ip_address : option string;
  r_review_ip_redacted : option string;
  r_source_file : option string;
  r_source_row : option Z
}.

(** A row of [load_audit]; the list order is the order of [id]. *)
Record LoadAudit : Type := mk_audit {
  la_file : string;
  la_sha256 : string;
  la_rows_in : Z;
  la_rows_loaded : Z;
  la_rows_rejected : Z;
  la_dq_pass : Z;
  la_dq_fail : Z
}.

(** The tables.  A [TEXT PRIMARY KEY] of SQLite accepts [NULL], and two
    [NULL] keys never conflict: the rows with such a key are kept apart,
    in insertion order. *)
Record Store : Type := mk_store {
  business : gmap string Business;
  business_null : list Business;
  user : gmap string User;
  user_null : list User;
  review : gmap string Review;
  review_null : list Review;
  load_audit : list LoadAudit
}.

Definition empty_store : Store := mk_store ∅ [] ∅ [] ∅ [] [].

(** All rows of [review], with their key. *)
Definition review_rows (st : Store) : list (option string * Review) :=
  (prod_map Some id <$> map_to_list (review st)) ++ ((λ r, (None, r)) <$> review_null st).

(** A row of [v_reviews_public]. *)
Record PublicRow : Type := mk_public {
  pub_review_id : option string;
  pub_business_id : string;
  pub_user_id : string;
  pub_review_date : string;
  pub_review_rating : Z;
  pub_review_title : option string;
  pub_review_content : option string
}.

Definition v_reviews_public (st : Store) : list PublicRow :=
  (λ kr, let r := kr.2 in
         mk_public kr.1 (r_business_id r) (r_user_id r) (r_review_date r)
           (r_review_rating r) (r_review_title r) (r_review_content r))
  <$> review_rows st.

(** A row of [v_reviews_private]: the columns of the public view, then
    [u.email_hash AS email_address], [u.user_name_redacted AS user_name]
    and [r.review_ip_redacted AS review_ip_address]. *)
Record PrivateRow : Type := mk_private {
  prv_review_id : option string;
  prv_business_id : string;
  prv_user_id : string;
  prv_review_date : string;
  prv_review_rating : Z;
  prv_review_title : option string;
  prv_review_content : option string;
  prv_email_address : option string;
  prv_user_name : option string;
  prv_review_ip_address : option string
}.

(** [FROM review r JOIN "user" u ON u.user_id = r.user_id] *)
Definition v_reviews_private (st : Store) : list PrivateRow :=
  omap (λ kr, let r := kr.2 in
              u ← user st !! r_user_id r;
              Some (mk_private kr.1 (r_business_id r) (r_user_id r) (r_review_date r)
                      (r_review_rating r) (r_review_title r) (r_review_content r)
                      (u_email_hash u) (u_user_name_redacted u) (r_review_ip_redacted r)))
       (review_rows st).

(** ** [app/db.py] and the world around the pipeline *)

(** The world: the committed database, the database as the open connection
    sees it, the source files (path to bytes), the artifacts written under
    [data/quarantine] (file name to CSV records) and at the stage path, and
    the clock. *)
Record World : Type := mk_world {
  w_db : Store;
  w_conn : Store;
  w_files : gmap string string;
  w_quarantine : gmap string (list (list string));
  w_stage : gmap string (list normalized);
  w_utcnow : Datetime.datetime
}.

Definition set_conn (st : Store) (w : World) : World :=
  mk_world (w_db w) st (w_files w) (w_quarantine w) (w_stage w) (w_utcnow w).
Definition set_db (st : Store) (w : World) : World :=
  mk_world st (w_conn w) (w_files w) (w_quarantine w) (w_stage w) (w_utcnow w).
Definition set_quarantine (q : gmap string (list (list string))) (w : World) : World :=
  mk_world (w_db w) (w_conn w) (w_files w) q (w_stage w) (w_utcnow w).
Definition set_stage (s : gmap string (list normalized)) (w : World) : World :=
  mk_world (w_db w) (w_conn w) (w_files w) (w_quarantine w) s (w_utcnow w).

(** A computation on the world that returns or raises. *)
Definition IO (A : Type) : Type := World → Res A * World.

#[global] Instance IO_ret : MRet IO := λ A a w, (Ok a, w).
#[global] Instance IO_bind : MBind IO := λ A B k m w,
  match m w with
  | (Ok a, w') => k a w'
  | (Raise e, w') => (Raise e, w')
  end.

(** A pure result, in the world. *)
Definition lift {A} (r : Res A) : IO A := λ w, (r, w).

(** A statement on the connection. *)
Definition execute (f : Store → Res Store) : IO unit := λ w,
  match f (w_conn w) with
  | Ok st => (Ok tt, set_conn st w)
  | Raise e => (Raise e, w)
  end.

(** A query on the connection. *)
Definition query {A} (f : Store → A) : IO A := λ w, (Ok (f (w_conn w)), w).

(** [with connect() as conn: body]: a new connection sees the committed
    data; its statements run in one transaction, committed when the body
    returns; when the body raises, the connection is closed without a
    commit and the transaction is lost. *)
Definition connect {A} (body : IO A) : IO A := λ w,
  match body (set_conn (w_db w) w) with
  | (Ok a, w') => (Ok a, set_db (w_conn w') w')
  | (Raise e, w') => (Raise e, set_conn (w_db w') w')
  end.

(** ** [app/ingest.py] *)

(** The value of a worksheet cell, as [iter_rows(values_only=True)] gives
    it: [None], a [datetime], a [bool], an [int], a [float], a [str], or an
    object of another type, known by its [str()]. *)
Inductive cell : Type :=
  | CNone
  | CDatetime (dt : Datetime.datetime)
  | CBool (b : bool)
  | CInt (z : Z)
  | CFloat (f : PyFloat.float)
  | CStr (s : string)
  | COther (text : string).

(** The libraries that the embedding does not open: [hashlib.sha256] on
    bytes, as a hexadecimal digest; [openpyxl.load_workbook] on the bytes of
    a file, as the rows of the active sheet; [str] of a [float]; [glob.glob]
    on the files that exist; and whether [pandas] has a parquet engine. *)
Class Runtime : Type := mk_runtime {
  sha256_hexdigest : string → string;
  load_workbook : string → Res (list (list cell));
  float_str : PyFloat.float → string;
  glob_glob : gmap string string → string → list string;
  parquet_engine : bool
}.

Definition QUARANTINE_DIR : string := "data/quarantine".

(** *** Utilities *)

Definition sha256_file `{Runtime} (path : string) : IO string := λ w,
  match w_files w !! path with
  | Some bytes => (Ok (sha256_hexdigest bytes), w)
  | None => (Raise FileNotFoundError, w)
  end.

(** [sorted(set(files))] over the matches of every pattern. *)
Definition discover_files `{Runtime} (patterns : list string) : IO (list string) := λ w,
  (Ok (merge_sort String.le
         (remove_dups (flat_map (glob_glob (w_files w)) patterns))), w).

Definition email_hash_value `{Runtime} (email : option string) : option string :=
  match email with
  | Some e => if Py.truthy e then Some (sha256_hexdigest (Py.lower (Py.strip e))) else None
  | None => None
  end.

Definition redact_name (name : option string) : option string :=
  match name with
  | Some s =>
      if Py.truthy s then
        let n := Py.strip s in
        if Py.truthy n then Some (Py.first_char n +:+ "***") else None
      else None
  | None => None
  end.

(** [parts[-1] = "0000"] *)
Definition set_last (parts : list string) (x : string) : list string :=
  match parts with
  | [] => []
  | _ => removelast parts ++ [x]
  end.

Definition redact_ip (value : option string) : option string :=
  match value with
  | Some s =>
      if Py.truthy s then
        let v := Py.strip s in
        match IpAddress.ip_version v with
        | Some IpAddress.V4 => Some (Py.join "." (firstn 3 (Py.split "." v) ++ ["0"]))
        | Some IpAddress.V6 => Some (Py.join ":" (set_last (Py.split ":" v) "0000"))
        | None => Some "REDACTED"
        end
      else None
  | None => None
  end.

(** The rejected rows: row number, raw row, reasons. *)
Definition bad_row : Type := Z * raw_row * list string.

Definition quarantine_record (header : list string) (b : bad_row) : list string :=
  let '(_, raw_row, errs) := b in
  ((λ col, default "" (raw_row !! col)) <$> header) ++ [Py.join "; " errs].

Definition write_quarantine (basename : string) (header : list string)
    (bad_rows : list bad_row) : IO string := λ w,
  let stamp := Datetime.strftime_ymd_hms "" "_" "" (w_utcnow w) in
  let out := QUARANTINE_DIR +:+ "/" +:+ basename +:+ "_" +:+ stamp +:+ "_bad_rows.csv" in
  let out_header := header ++ ["__reason__"] in
  let records := out_header :: (quarantine_record header <$> bad_rows) in
  (Ok out, set_quarantine (<[out := records]> (w_quarantine w)) w).

(** [write_stage_parquet]: the rows go to [stage_path], or to the CSV next
    to it when no parquet engine is there. *)
Definition write_stage_parquet `{Runtime} (normalized_rows : list normalized)
    (stage_path : string) : IO string := λ w,
  let out := if parquet_engine then stage_path
             else Py.splitext_root stage_path +:+ ".csv" in
  (Ok out, set_stage (<[out := normalized_rows]> (w_stage w)) w).

(** *** The upserts *)

Module Sql.

(** The three truth values of SQL: [None] is unknown. *)
Definition is_null {A} (a : option A) : option bool :=
  match a with None => Some true | Some _ => Some false end.

Definition lt (a b : option string) : option bool :=
  match a, b with
  | Some x, Some y => Some (String.ltb x y)
  | _, _ => None
  end.

Definition gt (a b : option string) : option bool := lt b a.

Definition or (a b : option bool) : option bool :=
  match a, b with
  | Some true, _ | _, Some true => Some true
  | Some false, Some false => Some false
  | _, _ => None
  end.

(** [CASE WHEN c THEN x ELSE y END] *)
Definition case_when {A} (c : option bool) (x y : A) : A :=
  match c with Some true => x | _ => y end.

Definition coalesce {A} (a b : option A) : option A :=
  match a with Some _ => a | None => b end.

End Sql.

Definition set_business (m : gmap string Business) (st : Store) : Store :=
  mk_store m (business_null st) (user st) (user_null st) (review st) (review_null st)
    (load_audit st).
Definition set_business_null (l : list Business) (st : Store) : Store :=
  mk_store (business st) l (user st) (user_null st) (review st) (review_null st)
    (load_audit st).
Definition set_user (m : gmap string User) (st : Store) : Store :=
  mk_store (business st) (business_null st) m (user_null st) (review st) (review_null st)
    (load_audit st).
Definition set_user_null (l : list User) (st : Store) : Store :=
  mk_store (business st) (business_null st) (user st) l (review st) (review_null st)
    (load_audit st).
Definition set_review (m : gmap string Review) (st : Store) : Store :=
  mk_store (business st) (business_null st) (user st) (user_null st) m (review_null st)
    (load_audit st).
Definition set_review_null (l : list Review) (st : Store) : Store :=
  mk_store (business st) (business_null st) (user st) (user_null st) (review st) l
    (load_audit st).
Definition set_load_audit (l : list LoadAudit) (st : Store) : Store :=
  mk_store (business st) (business_null st) (user st) (user_null st) (review st)
    (review_null st) l.

(** The [DO UPDATE SET] of [upsert_business], on the stored row. *)
Definition business_on_conflict (excluded old : Business) : Business :=
  {| b_business_name :=
       (* COALESCE(excluded.business_name, business.business_name), where
          excluded.business_name has passed the NOT NULL check *)
       b_business_name excluded;
     b_first_review_date :=
       Sql.case_when
         (Sql.or (Sql.is_null (b_first_review_date old))
            (Sql.lt (b_first_review_date excluded) (b_first_review_date old)))
         (b_first_review_date excluded) (b_first_review_date old);
     b_last_review_date :=
       Sql.case_when
         (Sql.or (Sql.is_null (b_last_review_date old))
            (Sql.gt (b_last_review_date excluded) (b_last_review_date old)))
         (b_last_review_date excluded) (b_last_review_date old);
     b_total_reviews := b_total_reviews old + 1 |}.

(** [upsert_business].  SQLite checks [NOT NULL] on the row to insert
    before it looks for a conflict: a [NULL] name fails the statement
    whether or not the business is there. *)
Definition upsert_business (n : normalized) (st : Store) : Res Store :=
  match n_business_name n with
  | None => Raise (IntegrityError "NOT NULL constraint failed: business.business_name")
  | Some name =>
      let excluded := mk_business name (n_review_date n) (n_review_date n) 1 in
      match n_business_id n with
      | None => Ok (set_business_null (business_null st ++ [excluded]) st)
      | Some bid =>
          match business st !! bid with
          | None => Ok (set_business (<[bid := excluded]> (business st)) st)
          | Some old =>
              Ok (set_business (<[bid := business_on_conflict excluded old]> (business st)) st)
          end
      end
  end.

(** The [DO UPDATE SET] of [upsert_user]. *)
Definition user_on_conflict (excluded old : User) : User :=
  {| u_email_address := Sql.coalesce (u_email_address excluded) (u_email_address old);
     u_email_hash := Sql.coalesce (u_email_hash excluded) (u_email_hash old);
     u_user_name := Sql.coalesce (u_user_name excluded) (u_user_name old);
     u_user_name_redacted :=
       Sql.coalesce (u_user_name_redacted excluded) (u_user_name_redacted old);
     u_reviewer_country := Sql.coalesce (u_reviewer_country excluded) (u_reviewer_country old);
     u_first_review_date :=
       Sql.case_when
         (Sql.or (Sql.is_null (u_first_review_date old))
            (Sql.lt (u_first_review_date excluded) (u_first_review_date old)))
         (u_first_review_date excluded) (u_first_review_date old);
     u_total_reviews := u_total_reviews old + 1 |}.

Definition upsert_user `{Runtime} (n : normalized) (st : Store) : Res Store :=
  let excluded :=
    mk_user (n_email_address n) (email_hash_value (n_email_address n))
      (n_user_name n) (redact_name (n_user_name n))
      (n_reviewer_country n) (n_review_date n) 1 in
  match n_user_id n with
  | None => Ok (set_user_null (user_null st ++ [excluded]) st)
  | Some uid =>
      match user st !! uid with
      | None => Ok (set_user (<[uid := excluded]> (user st)) st)
      | Some old => Ok (set_user (<[uid := user_on_conflict excluded old]> (user st)) st)
      end
  end.

(** The [DO UPDATE SET] of [upsert_review]: the keys stay, the rest is
    overwritten. *)
Definition review_on_conflict (excluded old : Review) : Review :=
  {| r_user_id := r_user_id old;
     r_business_id := r_business_id old;
     r_review_date := r_review_date excluded;
     r_review_rating := r_review_rating excluded;
     r_review_title := r_review_title excluded;
     r_review_content := r_review_content excluded;
     r_review_ip_address := r_review_ip_address excluded;
     r_review_ip_redacted := r_review_ip_redacted excluded;
     r_source_file := r_source_file excluded;
     r_source_row := r_source_row excluded |}.

(** The foreign keys of a new row of [review]. *)
Definition foreign_keys_ok (r : Review) (st : Store) : bool :=
  bool_decide (is_Some (business st !! r_business_id r)) &&
  bool_decide (is_Some (user st !! r_user_id r)).

Definition FOREIGN_KEY_FAILED : PyExn := IntegrityError "FOREIGN KEY constraint failed".

(** [upsert_review]: the [NOT NULL] columns are checked first; an existing
    review is updated; a new one must have its business and its user. *)
Definition upsert_review (n : normalized) (st : Store) : Res Store :=
  match n_user_id n, n_business_id n, n_review_date n, n_review_rating n with
  | None, _, _, _ => Raise (IntegrityError "NOT NULL constraint failed: review.user_id")
  | _, None, _, _ => Raise (IntegrityError "NOT NULL constraint failed: review.business_id")
  | _, _, None, _ => Raise (IntegrityError "NOT NULL constraint failed: review.review_date")
  | _, _, _, None => Raise (IntegrityError "NOT NULL constraint failed: review.review_rating")
  | Some uid, Some bid, Some date, Some rating =>
      let excluded :=
        mk_review uid bid date rating (n_review_title n) (n_review_content n)
          (n_review_ip_address n) (redact_ip (n_review_ip_address n))
          (n_source_file n) (n_source_row n) in
      match n_review_id n with
      | None =>
          if foreign_keys_ok excluded st
          then Ok (set_review_null (review_null st ++ [excluded]) st)
          else Raise FOREIGN_KEY_FAILED
      | Some rid =>
          match review st !! rid with
          | Some old =>
              Ok (set_review (<[rid := review_on_conflict excluded old]> (review st)) st)
          | None =>
              if foreign_keys_ok excluded st
              then Ok (set_review (<[rid := excluded]> (review st)) st)
              else Raise FOREIGN_KEY_FAILED
          end
      end
  end.

(** *** Reading the workbook *)

(** [str(cell)], as used for the header. *)
Definition cell_str `{Runtime} (c : cell) : string :=
  match c with
  | CNone => "None"
  | CDatetime dt => Datetime.str dt
  | CBool b => if b then "True" else "False"
  | CInt z => Py.str_of_Z z
  | CFloat f => float_str f
  | CStr s => s
  | COther text => text
  end.

(** The text of a data cell. *)
Definition cell_to_str `{Runtime} (c : cell) : string :=
  match c with
  | CNone => ""
  | CDatetime dt =>
      match Datetime.tzinfo dt with
      | Some _ => Datetime.strftime_ymd_hms "-" "T" ":" dt +:+ "Z"
      | None => Datetime.strftime_ymd_hms "-" "T" ":" dt
      end
  | CFloat f =>
      if PyFloat.is_integer f then
        match PyFloat.to_int f with
        | Ok z => Py.str_of_Z z
        | Raise _ => float_str f
        end
      else float_str f
  | _ => cell_str c
  end.

(** The body of [for col_idx, cell_value in enumerate(row_values)]; past
    the header the loop breaks, so the later cells change nothing. *)
Definition read_cell `{Runtime} (header : list string) (row_dict : raw_row)
    (ic : nat * cell) : raw_row :=
  match header !! ic.1 with
  | Some col_name => <[col_name := cell_to_str ic.2]> row_dict
  | None => row_dict
  end.

Definition read_row `{Runtime} (header : list string) (row_values : list cell) : raw_row :=
  fold_left (read_cell header) (Py.enumerate 0 row_values) ∅.

Definition header_name `{Runtime} (c : cell) : string :=
  match c with
  | CNone => ""
  | _ => Py.strip (cell_str c)
  end.

Definition read_xlsx_rows `{Runtime} (path : string) : IO (list string * list raw_row) := λ w,
  match w_files w !! path with
  | None => (Raise FileNotFoundError, w)
  | Some bytes =>
      match load_workbook bytes with
      | Raise e => (Raise e, w)
      | Ok [] | Ok ([] :: _) => (Ok ([], []), w)
      | Ok (header_row :: rows) =>
          let header := header_name <$> header_row in
          (Ok (header, read_row header <$> rows), w)
      end
  end.

(** *** Ingestion *)

(** The counters and the two lists of the loop over the rows. *)
Record row_loop : Type := mk_row_loop {
  l_rows_in : Z;
  l_rows_rejected : Z;
  l_dq_pass : Z;
  l_dq_fail : Z;
  l_bad_rows : list bad_row;
  l_good_norm : list normalized
}.

Definition with_lineage (basename : string) (xlsx_rownum : Z) (n : normalized) : normalized :=
  mk_normalized (n_user_id n) (n_email_address n) (n_user_name n) (n_reviewer_country n)
    (n_business_id n) (n_business_name n) (n_review_id n) (n_review_date n)
    (n_review_rating n) (n_review_title n) (n_review_content n) (n_review_ip_address n)
    (Some basename) (Some xlsx_rownum).

(** One iteration of [for xlsx_rownum, raw in enumerate(raw_rows, start=2)];
    [idx] is [xlsx_rownum - 2]. *)
Definition row_step (basename : string) (dups : list nat) (st : row_loop)
    (ir : nat * raw_row) : Res row_loop :=
  let '(idx, raw) := ir in
  let xlsx_rownum := Z.of_nat idx + 2 in
  '(is_ok, errs, norm) ← validate_row raw;
  let errs := if bool_decide (idx ∈ dups) then errs ++ [DUPLICATE_MSG] else errs in
  if is_ok && bool_decide (errs = []) then
    Ok (mk_row_loop (l_rows_in st + 1) (l_rows_rejected st) (l_dq_pass st + 1) (l_dq_fail st)
          (l_bad_rows st) (l_good_norm st ++ [with_lineage basename xlsx_rownum norm]))
  else
    Ok (mk_row_loop (l_rows_in st + 1) (l_rows_rejected st + 1) (l_dq_pass st)
          (l_dq_fail st + 1) (l_bad_rows st ++ [(xlsx_rownum, raw, errs)]) (l_good_norm st)).

(** A loop whose body may raise. *)
Fixpoint for_each {A S : Type} (body : S → A → Res S) (l : list A) (st : S) : Res S :=
  match l with
  | [] => Ok st
  | x :: l' => st' ← body st x; for_each body l' st'
  end.

(** The same in the world. *)
Fixpoint for_each_io {A S : Type} (body : S → A → IO S) (l : list A) (st : S) : IO S :=
  match l with
  | [] => mret st
  | x :: l' => st' ← body st x; for_each_io body l' st'
  end.

(** [SELECT 1 FROM load_audit WHERE file=? AND sha256=? LIMIT 1] *)
Definition audit_exists (path file_hash : string) (st : Store) : bool :=
  existsb (λ a, String.eqb (la_file a) path && String.eqb (la_sha256 a) file_hash)
    (load_audit st).

Definition insert_audit (a : LoadAudit) (st : Store) : Res Store :=
  Ok (set_load_audit (load_audit st ++ [a]) st).

(** The body of [for n in good_norm]. *)
Definition load_row `{Runtime} (rows_loaded : Z) (n : normalized) : IO Z :=
  execute (upsert_business n);;
  execute (upsert_user n);;
  execute (upsert_review n);;
  mret (rows_loaded + 1).

(** What [process_file] returns: [rows_in], [rows_loaded], [rows_rejected],
    [dq_pass], [dq_fail] and the good rows. *)
Definition file_result : Type := Z * Z * Z * Z * Z * list normalized.

Definition process_file `{Runtime} (path : string) : IO file_result :=
  let basename := Py.basename path in
  file_hash ← sha256_file path;
  prior ← query (audit_exists path file_hash);
  if prior : bool then mret (0, 0, 0, 0, 0, []) else
  '(header, raw_rows) ← read_xlsx_rows path;
  let '(dups, _batch_errs) := validate_batch raw_rows in
  st ← lift (for_each (row_step basename dups) (Py.enumerate 0 raw_rows)
               (mk_row_loop 0 0 0 0 [] []));
  (match l_bad_rows st with
   | [] => mret ""
   | bad_rows => write_quarantine (Py.splitext_stem basename) header bad_rows
   end);;
  rows_loaded ← for_each_io load_row (l_good_norm st) 0;
  execute (insert_audit
             (mk_audit path file_hash (l_rows_in st) rows_loaded (l_rows_rejected st)
                (l_dq_pass st) (l_dq_fail st)));;
  mret (l_rows_in st, rows_loaded, l_rows_rejected st, l_dq_pass st, l_dq_fail st,
        l_good_norm st).

(** The totals of a run: [agg] and [stage_rows]. *)
Definition run_totals : Type := Z * Z * Z * Z * Z * list normalized.

Definition run_step `{Runtime} (acc : run_totals) (path : string) : IO run_totals :=
  let '(a0, a1, a2, a3, a4, stage_rows) := acc in
  '(r_in, r_loaded, r_rej, r_pass, r_fail, good_norm) ← process_file path;
  mret (a0 + r_in, a1 + r_loaded, a2 + r_rej, a3 + r_pass, a4 + r_fail,
        stage_rows ++ good_norm).

(** [init_db()]: the tables are created if they are not there and the views
    are created again; the rows stay. *)
Definition init_db : IO unit := connect (mret tt).

(** What [build_stage_and_load] returns. *)
Definition run_result : Type := Z * Z * Z * Z * Z * Z * Z * string.

Definition build_stage_and_load `{Runtime} (patterns : list string) (stage_path : string)
    : IO run_result :=
  files ← discover_files patterns;
  let total_files := Z.of_nat (length files) in
  init_db;;
  '(a0, a1, a2, a3, a4, stage_rows) ←
    connect (for_each_io run_step files (0, 0, 0, 0, 0, []));
  '(written_count, stage_path_used) ←
    match stage_rows with
    | [] => mret (0, "")
    | _ => used ← write_stage_parquet stage_rows stage_path;
           mret (Z.of_nat (length stage_rows), used)
    end;
  mret (total_files, a0, a1, a2, a3, a4, written_count, stage_path_used).

(** * Specification vocabulary

    The definitions below are not code of the repository: they say what
    the properties are about. *)

(** ** The batch check, in the words of the design *)

(** The trimmed, non-empty review identifier of a row. *)
Definition review_key (row : raw_row) : option string :=
  match trim (row !! "Review Id") with
  | Some rid => if Py.truthy rid then Some rid else None
  | None => None
  end.

Definition key_at (rows : list raw_row) (i : nat) : option string :=
  rows !! i ≫= review_key.

(** Position [i] is a second or later occurrence of its identifier. *)
Definition later_occurrence (rows : list raw_row) (i : nat) : bool :=
  match key_at rows i with
  | Some rid => existsb (λ j, bool_decide (key_at rows j = Some rid)) (seq 0 i)
  | None => false
  end.

Definition duplicate_positions (rows : list raw_row) : list nat :=
  List.filter (later_occurrence rows) (seq 0 (length rows)).

(** What the loop of [validate_batch] has established after the rows [pre]. *)
Definition batch_inv (pre : list raw_row) (st : batch_state) : Prop :=
  let '(seen, dups, errs) := st in
  (∀ rid, rid ∈ seen ↔ ∃ j, (j < length pre)%nat ∧ key_at pre j = Some rid) ∧
  dups = duplicate_positions pre ∧
  (∀ i, errs !! i = if decide (i ∈ dups) then Some [DUPLICATE_MSG] else None).

(** The scenario of [test_validate_batch_detects_duplicate_review_ids]. *)
Definition dup_scenario : list raw_row :=
  [ {["Review Id" := "dup-1"]}; {["Review Id" := "dup-1"]};
    {["Review Id" := "unique"]}; {["Review Id" := "dup-1"]} ].

(** ** Minimum and maximum of the dates seen, in the order of the store *)

(** [TEXT] values compare byte by byte: [String.le]. *)
Definition is_minimum (d : string) (l : list string) : Prop :=
  d ∈ l ∧ Forall (String.le d) l.

Definition is_maximum (d : string) (l : list string) : Prop :=
  d ∈ l ∧ Forall (λ x, String.le x d) l.

(** A sequence of [upsert_business] calls. *)
Definition upsert_business_all (ns : list normalized) (st : Store) : Res Store :=
  for_each (λ s n, upsert_business n s) ns st.

(** A normalized row for a business and a review date. *)
Definition business_review (bid name date : string) : normalized :=
  mk_normalized None None None None (Some bid) (Some name) None (Some date) None
    None None None None None.

(** ** The shape of a normalized date *)

(** [s] follows the template [tpl], where [d] stands for a decimal digit and
    any other character for itself. *)
Fixpoint matches_template (tpl s : string) : bool :=
  match tpl, s with
  | EmptyString, EmptyString => true
  | String t tpl', String c s' =>
      (if Ascii.eqb t "d" then Py.isdigit c else Ascii.eqb c t) && matches_template tpl' s'
  | _, _ => false
  end.

(** The template of [k] digits. *)
Fixpoint digits_template (k : nat) : string :=
  match k with
  | O => EmptyString
  | S k' => String "d" (digits_template k')
  end.

(** [YYYY-MM-DDTHH:MM:SSZ] *)
Definition ISO_UTC_TEMPLATE : string := "dddd-dd-ddTdd:dd:ddZ".

(** The input parses by some strategy: the ISO fast path, or one of the
    patterns. *)
Definition some_strategy_parses (s : string) : Prop :=
  is_Some (iso_fast_path (Py.strip s)) ∨
  ∃ pat, pat ∈ _DATE_PATTERNS ∧ is_Some (Datetime.strptime (Py.strip s) pat).

(** The zero-padded decimal of [n] has [w] digits and reads back as [n]. *)
Definition zfill_exact (w : nat) (n : Z) : bool :=
  (String.length (Py.zfill w n) =? w)%nat &&
  Py.all_chars Py.isdigit (Py.zfill w n) &&
  (Py.int_of_digits (Py.zfill w n) =? n).

(** The date and the time of [isoformat]. *)
Definition date_text (dt : Datetime.datetime) : string :=
  Py.zfill 4 (Datetime.year dt) +:+ "-" +:+ Py.zfill 2 (Datetime.month dt) +:+ "-" +:+
  Py.zfill 2 (Datetime.day dt).

Definition time_text (dt : Datetime.datetime) : string :=
  Py.zfill 2 (Datetime.hour dt) +:+ ":" +:+ Py.zfill 2 (Datetime.minute dt) +:+ ":" +:+
  Py.zfill 2 (Datetime.second dt).

(** A character of the date and time of [isoformat]. *)
Definition iso_char (c : ascii) : bool :=
  Py.isdigit c || Ascii.eqb c "-" || Ascii.eqb c "T" || Ascii.eqb c ":".

(** ** The checks of [validate_row], one by one *)

(** A row with an infinite rating: the failing input of the rating check. *)
Definition infinite_rating_row : raw_row :=
  list_to_map
    [("Review Id", "r-1"); ("Reviewer Id", "u-1"); ("Business Id", "b-1");
     ("Review Rating", "inf"); ("Review Date", "2024-01-01")].

(** The rating text of a row, as [coerce_int] gets it. *)
Definition rating_text (raw : raw_row) : option string :=
  Some (default "" (raw !! "Review Rating")).

Definition rating_error (raw : raw_row) : string :=
  "Review Rating invalid: " +:+ Py.repr_opt (raw !! "Review Rating").

(** The rating is accepted: it coerces to an integer from 1 to 5. *)
Definition rating_accepted (raw : raw_row) : Prop :=
  ∃ z, coerce_int (rating_text raw) = Ok (Some z) ∧ 1 <= z <= 5.

(** The e-mail address, or the IP address, is there and does not match. *)
Definition email_invalid (raw : raw_row) (e : string) : Prop :=
  trim (raw !! "Email Address") = Some e ∧ Py.truthy e = true ∧
  Re.matches EMAIL_RE e = false.

Definition ip_invalid (raw : raw_row) (i : string) : Prop :=
  trim (raw !! "Review IP Address") = Some i ∧ Py.truthy i = true ∧
  Re.matches IP_RE i = false.

(** ** The scenario of [test_process_file_handles_duplicates_and_audits] *)

Definition scenario_header : list string :=
  ["Review Id"; "Reviewer Id"; "Business Id"; "Review Rating"; "Review Date";
   "Review Title"; "Review Content"; "Email Address"; "Review IP Address";
   "Reviewer Name"; "Reviewer Country"; "Business Name"].

(** The first row is valid; the second has the identifier of the first, a
    bad e-mail address and a bad IP address. *)
Definition scenario_sheet : list (list cell) :=
  [ CStr <$> scenario_header;
    CStr <$> ["r-1"; "u-1"; "b-1"; "5"; "2024-01-01T12:00:00Z"; "Great"; "Loved it";
              "user@example.com"; "1.2.3.4"; "Alice"; "GB"; "Widgets Inc"];
    [CStr "r-1"; CStr "u-2"; CStr "b-1"; CStr "4"; CStr "2024-01-02"; CNone; CNone;
     CStr "bad-email"; CStr "not-an-ip"] ].

(** Two reviews of one reviewer; the second has no reviewer name. *)
Definition blank_name_sheet : list (list cell) :=
  [ CStr <$> scenario_header;
    CStr <$> ["r-1"; "u-1"; "b-1"; "5"; "2024-01-01T12:00:00Z"; "Great"; "Loved it";
              "user@example.com"; "1.2.3.4"; "Alice"; "GB"; "Widgets Inc"];
    [CStr "r-2"; CStr "u-1"; CStr "b-1"; CStr "4"; CStr "2024-01-02"; CNone; CNone;
     CNone; CStr "1.2.3.0"; CNone; CStr "GB"; CStr "Widgets Inc"] ].

(** One valid row in a sheet without the column Business Name. *)
Definition no_business_name_sheet : list (list cell) :=
  [ CStr <$> ["Review Id"; "Reviewer Id"; "Business Id"; "Review Rating"; "Review Date"];
    CStr <$> ["r-1"; "u-1"; "b-1"; "5"; "2024-01-01"] ].

(** One valid row whose Business Name is empty. *)
Definition empty_business_name_sheet : list (list cell) :=
  [ CStr <$> ["Review Id"; "Reviewer Id"; "Business Id"; "Review Rating"; "Review Date";
              "Business Name"];
    [CStr "r-1"; CStr "u-1"; CStr "b-1"; CStr "5"; CStr "2024-01-01"; CNone] ].

(** Two rows as in the test, in a sheet without the column Business Name. *)
Definition two_rows_no_business_name_sheet : list (list cell) :=
  [ CStr <$> ["Review Id"; "Reviewer Id"; "Business Id"; "Review Rating"; "Review Date";
              "Email Address"; "Review IP Address"];
    CStr <$> ["r-1"; "u-1"; "b-1"; "5"; "2024-01-01T12:00:00Z"; "user@example.com"; "1.2.3.4"];
    CStr <$> ["r-1"; "u-2"; "b-1"; "4"; "2024-01-02"; "bad-email"; "not-an-ip"] ].

(** A runtime for the scenarios: the workbook is told by the bytes of the
    file, the digest is a stand-in that keeps the bytes apart. *)
Definition scenario_runtime : Runtime :=
  {| sha256_hexdigest := λ bytes, "sha256:" +:+ bytes;
     load_workbook := λ bytes,
       if String.eqb bytes "placeholder" then Ok scenario_sheet
       else if String.eqb bytes "blank name" then Ok blank_name_sheet
       else if String.eqb bytes "no business name" then Ok no_business_name_sheet
       else if String.eqb bytes "empty business name" then Ok empty_business_name_sheet
       else if String.eqb bytes "two rows, no business name"
            then Ok two_rows_no_business_name_sheet
       else Raise InvalidFileException;
     float_str := λ _, "?";
     glob_glob := λ files _, (map_to_list files).*1;
     parquet_engine := false |}.

Definition scenario_clock : Datetime.datetime :=
  Datetime.mk 2024 1 3 4 5 6 0 None.

(** A world with the given files and an empty database. *)
Definition scenario_world (files : list (string * string)) : World :=
  mk_world empty_store empty_store (list_to_map files) ∅ ∅ scenario_clock.

(** ** The orchestrator *)

(** The pair of a path and a fingerprint is in [load_audit]. *)
Definition audited (path file_hash : string) (st : Store) : Prop :=
  ∃ a, a ∈ load_audit st ∧ la_file a = path ∧ la_sha256 a = file_hash.

(** The statistics of a skipped file. *)
Definition SKIPPED : file_result := (0, 0, 0, 0, 0, []).

(** A relation between the world before and the world after holds for
    every run of a computation, whether it returns or raises. *)
Definition io_rel {A} (R : relation World) (m : IO A) : Prop :=
  ∀ w r w', m w = (r, w') → R w w'.

(** What no step of [process_file] changes: the committed database, the
    source files, the stage and the clock. *)
Definition same_outside (w w' : World) : Prop :=
  w_db w' = w_db w ∧ w_files w' = w_files w ∧ w_stage w' = w_stage w ∧
  w_utcnow w' = w_utcnow w.

(** The audit log seen by the connection is the same. *)
Definition same_audit (w w' : World) : Prop :=
  load_audit (w_conn w') = load_audit (w_conn w).

(** The header and the rows that [read_xlsx_rows] makes of a sheet. *)
Definition sheet_rows `{Runtime} (sheet : list (list cell)) : list string * list raw_row :=
  match sheet with
  | [] | [] :: _ => ([], [])
  | header_row :: rows =>
      let header := header_name <$> header_row in
      (header, read_row header <$> rows)
  end.

(** The loop of [process_file] over the rows of a file. *)
Definition validate_rows (basename : string) (raw_rows : list raw_row) : Res row_loop :=
  for_each (row_step basename (validate_batch raw_rows).1) (Py.enumerate 0 raw_rows)
    (mk_row_loop 0 0 0 0 [] []).

(** The world after the quarantine step of [process_file]. *)
Definition after_quarantine (basename : string) (header : list string)
    (st : row_loop) (w : World) : World :=
  match l_bad_rows st with
  | [] => w
  | bad_rows => (write_quarantine (Py.splitext_stem basename) header bad_rows w).2
  end.

(** The audit row of a processed file. *)
Definition audit_row (path file_hash : string) (st : row_loop) (rows_loaded : Z) : LoadAudit :=
  mk_audit path file_hash (l_rows_in st) rows_loaded (l_rows_rejected st)
    (l_dq_pass st) (l_dq_fail st).

(** The error of SQLite for a [NULL] business name. *)
Definition NAME_NOT_NULL : PyExn :=
  IntegrityError "NOT NULL constraint failed: business.business_name".

(** A valid row that has no Business Name, and one whose Business Name is
    there and empty. *)
Definition row_without_business_name : raw_row :=
  list_to_map
    [("Review Id", "r-1"); ("Reviewer Id", "u-1"); ("Business Id", "b-1");
     ("Review Rating", "5"); ("Review Date", "2024-01-01")].

Definition row_with_empty_business_name : raw_row :=
  <["Business Name" := ""]> row_without_business_name.

(** The path of the quarantine artifact of a file. *)
Definition quarantine_path (basename : string) (now : Datetime.datetime) : string :=
  QUARANTINE_DIR +:+ "/" +:+ Py.splitext_stem basename +:+ "_" +:+
  Datetime.strftime_ymd_hms "" "_" "" now +:+ "_bad_rows.csv".

(** The errors and the normalized row of a raw row, when [validate_row]
    returns. *)
Definition errors_of (raw : raw_row) : list string :=
  match validate_row raw with
  | Ok (_, errs, _) => errs
  | Raise _ => []
  end.

Definition normalized_of (raw : raw_row) : normalized :=
  match validate_row raw with
  | Ok (_, _, n) => n
  | Raise _ => mk_normalized None None None None None None None None None None None None
                 None None
  end.

(** ** Reachable stores and the private projection *)

(** A normalized row that [process_file] may load: the row of an accepted
    raw row, with its lineage. *)
Definition accepted_row (n : normalized) : Prop :=
  ∃ raw errs n0 b k, validate_row raw = Ok (true, errs, n0) ∧ n = with_lineage b k n0.

(** The stores that the statements of the pipeline make from the empty
    database: upserts of accepted rows, and audit rows. *)
Inductive reachable `{Runtime} : Store → Prop :=
  | reachable_empty : reachable empty_store
  | reachable_business st n st' :
      reachable st → accepted_row n → upsert_business n st = Ok st' → reachable st'
  | reachable_user st n st' :
      reachable st → accepted_row n → upsert_user n st = Ok st' → reachable st'
  | reachable_review st n st' :
      reachable st → accepted_row n → upsert_review n st = Ok st' → reachable st'
  | reachable_audit st a st' :
      reachable st → insert_audit a st = Ok st' → reachable st'.

(** A redacted name: absent, or the first character of a non-blank name
    and the mask. *)
Definition masked_or_absent (o : option string) : Prop :=
  o = None ∨
  ∃ name, Py.truthy (Py.strip name) = true ∧
          o = Some (Py.first_char (Py.strip name) +:+ "***").

(** The derived columns of a user row agree with its raw columns. *)
Definition user_row_ok `{Runtime} (u : User) : Prop :=
  u_email_hash u = email_hash_value (u_email_address u) ∧
  (u_user_name u ≠ Some "" → u_user_name_redacted u = redact_name (u_user_name u)) ∧
  masked_or_absent (u_user_name_redacted u).

Definition review_row_ok (r : Review) : Prop :=
  r_review_ip_redacted r = redact_ip (r_review_ip_address r).

Definition redaction_inv `{Runtime} (st : Store) : Prop :=
  (∀ uid u, user st !! uid = Some u → user_row_ok u) ∧
  (∀ rid r, review st !! rid = Some r → review_row_ok r) ∧
  Forall review_row_ok (review_null st).

(** The store without its raw sensitive columns. *)
Definition erase_user (u : User) : User :=
  mk_user None (u_email_hash u) None (u_user_name_redacted u) (u_reviewer_country u)
    (u_first_review_date u) (u_total_reviews u).

Definition erase_review (r : Review) : Review :=
  mk_review (r_user_id r) (r_business_id r) (r_review_date r) (r_review_rating r)
    (r_review_title r) (r_review_content r) None (r_review_ip_redacted r)
    (r_source_file r) (r_source_row r).

Definition erase_raw (st : Store) : Store :=
  mk_store (business st) (business_null st) (erase_user <$> user st)
    (erase_user <$> user_null st) (erase_review <$> review st)
    (erase_review <$> review_null st) (load_audit st).

(** The row of the private view for a review and its user. *)
Definition private_row (key : option string) (r : Review) (u : User) : PrivateRow :=
  mk_private key (r_business_id r) (r_user_id r) (r_review_date r) (r_review_rating r)
    (r_review_title r) (r_review_content r)
    (u_email_hash u) (u_user_name_redacted u) (r_review_ip_redacted r).

(** The connection sees a reachable store before, then also after. *)
Definition keeps_reachable `{Runtime} (w w' : World) : Prop :=
  reachable (w_conn w) → reachable (w_conn w').

(** ** More vocabulary for the properties of the pipeline *)

(** The quarantine artifacts are the same. *)
Definition same_quarantine (w w' : World) : Prop :=
  w_quarantine w' = w_quarantine w.

(** The audit log that the connection sees has only grown. *)
Definition audit_grows (w w' : World) : Prop :=
  load_audit (w_conn w) `prefix_of` load_audit (w_conn w').

(** A good row of a file: the normalized form of a row of the sheet that
    [validate_row] accepts and that is no duplicate, with the base name of
    the file and the row number in the sheet. *)
Definition good_row_of (basename : string) (rows : list raw_row) (n : normalized) : Prop :=
  ∃ (idx : nat) raw n0,
    rows !! idx = Some raw ∧ validate_row raw = Ok (true, [], n0) ∧
    (idx ∉ (validate_batch rows).1) ∧
    n = with_lineage basename (Z.of_nat idx + 2) n0.

(** A rejected row of a file: a row of the sheet with its row number and
    at least one reason, the errors of [validate_row] and the duplicate
    message when the row is a duplicate. *)
Definition bad_row_of (rows : list raw_row) (b : bad_row) : Prop :=
  ∃ (idx : nat) ok errs n0,
    b.1.1 = Z.of_nat idx + 2 ∧ rows !! idx = Some b.1.2 ∧
    validate_row b.1.2 = Ok (ok, errs, n0) ∧
    b.2 = (if bool_decide (idx ∈ (validate_batch rows).1)
           then errs ++ [DUPLICATE_MSG] else errs) ∧
    b.2 ≠ [].

(** The counters of the loop agree with its two lists after [k] rows. *)
Definition counts_inv (k : nat) (rl : row_loop) : Prop :=
  l_rows_in rl = Z.of_nat k ∧
  l_rows_rejected rl = Z.of_nat (length (l_bad_rows rl)) ∧
  l_dq_fail rl = l_rows_rejected rl ∧
  l_dq_pass rl = Z.of_nat (length (l_good_norm rl)) ∧
  (length (l_good_norm rl) + length (l_bad_rows rl) = k)%nat.

(** The files that [discover_files] finds in a world. *)
Definition discovered `{Runtime} (patterns : list string) (w : World) : list string :=
  merge_sort String.le (remove_dups (flat_map (glob_glob (w_files w)) patterns)).
(** ** Properties of [validate_batch] *)

Section ValidateBatch.

Implicit Types (rows pre : list raw_row) (row : raw_row).

Lemma enumerate_app {A} (l1 l2 : list A) k :
  Py.enumerate k (l1 ++ l2) = Py.enumerate k l1 ++ Py.enumerate (k + length l1) l2.
Proof.
  revert k. induction l1 as [|x l1 IH]; intros k; simpl.
  - by rewrite Nat.add_0_r.
  - rewrite IH. do 3 f_equal. lia.
Qed.

Lemma key_at_app_l pre row j :
  (j < length pre)%nat → key_at (pre ++ [row]) j = key_at pre j.
Proof. intros Hj. unfold key_at. by rewrite lookup_app_l. Qed.

Lemma key_at_last pre row : key_at (pre ++ [row]) (length pre) = review_key row.
Proof. unfold key_at. by rewrite list_lookup_middle. Qed.

Lemma later_occurrence_app_l pre row i :
  (i < length pre)%nat → later_occurrence (pre ++ [row]) i = later_occurrence pre i.
Proof.
  intros Hi. unfold later_occurrence. rewrite key_at_app_l by done.
  destruct (key_at pre i) as [rid|]; [|done].
  apply eq_true_iff_eq. rewrite !existsb_exists.
  split; intros (j & Hj & Hb); exists j; split; try done;
    apply in_seq in Hj; [rewrite key_at_app_l in Hb | rewrite key_at_app_l]; (done || lia).
Qed.

Lemma later_occurrence_spec rows i :
  later_occurrence rows i = true ↔
  ∃ rid j, key_at rows i = Some rid ∧ (j < i)%nat ∧ key_at rows j = Some rid.
Proof.
  unfold later_occurrence. split.
  - destruct (key_at rows i) as [rid|] eqn:Hk; [|done].
    rewrite existsb_exists. intros (j & Hj & Hb).
    apply in_seq in Hj. apply bool_decide_eq_true in Hb. exists rid, j. repeat split; (done || lia).
  - intros (rid & j & -> & Hj & Hk). apply existsb_exists. exists j. split.
    + apply in_seq. lia.
    + by apply bool_decide_eq_true.
Qed.

Lemma duplicate_positions_snoc pre row :
  duplicate_positions (pre ++ [row]) =
  duplicate_positions pre ++
    (if later_occurrence (pre ++ [row]) (length pre) then [length pre] else []).
Proof.
  unfold duplicate_positions. rewrite length_app. simpl.
  rewrite Nat.add_1_r, seq_S, List.filter_app. simpl. f_equal.
  apply filter_ext_in. intros i Hi. apply in_seq in Hi.
  apply later_occurrence_app_l. lia.
Qed.

Lemma duplicate_positions_bound rows i :
  i ∈ duplicate_positions rows → (i < length rows)%nat.
Proof.
  unfold duplicate_positions. rewrite list_elem_of_In, filter_In, in_seq. lia.
Qed.

Lemma batch_inv_init : batch_inv [] (∅, [], ∅).
Proof.
  split; [|split]; [|done|].
  - intros rid. split; [set_solver|]. intros (j & Hj & _). simpl in Hj. lia.
  - intros i. rewrite lookup_empty. case_decide; [set_solver | done].
Qed.

Lemma batch_inv_step pre row st :
  batch_inv pre st →
  batch_inv (pre ++ [row]) (validate_batch_step st (length pre, row)).
Proof.
  destruct st as [[seen dups] errs]. intros (Hseen & Hdups & Herrs).
  assert (Hlater : later_occurrence (pre ++ [row]) (length pre) =
                   match review_key row with
                   | Some rid => bool_decide (rid ∈ seen)
                   | None => false
                   end).
  { unfold later_occurrence. rewrite key_at_last.
    destruct (review_key row) as [rid|]; [|done].
    apply eq_true_iff_eq. rewrite existsb_exists, bool_decide_eq_true, Hseen.
    split.
    - intros (j & Hj & Hb). apply in_seq in Hj. apply bool_decide_eq_true in Hb.
      exists j. rewrite key_at_app_l in Hb by lia. split; (done || lia).
    - intros (j & Hj & Hk). exists j. split; [apply in_seq; lia|].
      apply bool_decide_eq_true. by rewrite key_at_app_l. }
  assert (Hseen' : ∀ rid, (∃ j, (j < length (pre ++ [row]))%nat ∧
                                 key_at (pre ++ [row]) j = Some rid) ↔
                          rid ∈ seen ∨ review_key row = Some rid).
  { intros rid. rewrite Hseen, length_app. simpl. split.
    - intros (j & Hj & Hk). destruct (decide (j = length pre)) as [->|Hne].
      + right. by rewrite key_at_last in Hk.
      + left. exists j. rewrite key_at_app_l in Hk by lia. split; (done || lia).
    - intros [(j & Hj & Hk) | Hk].
      + exists j. rewrite key_at_app_l by done. split; (done || lia).
      + exists (length pre). rewrite key_at_last. split; (done || lia). }
  unfold batch_inv, validate_batch_step.
  rewrite duplicate_positions_snoc, Hlater. unfold review_key in *.
  destruct (trim (row !! "Review Id")) as [rid|] eqn:Htrim; simpl.
  - destruct (Py.truthy rid) eqn:Htruthy.
    + destruct (decide (rid ∈ seen)) as [Hin|Hnin].
      * rewrite bool_decide_eq_true_2 by done. split; [|split].
        -- intros r. rewrite Hseen'. naive_solver.
        -- by rewrite Hdups.
        -- intros i. destruct (decide (i = length pre)) as [->|Hne].
           ++ rewrite lookup_insert_eq, Herrs.
              rewrite decide_False, decide_True; [done|set_solver|].
              rewrite Hdups. intros Hi%duplicate_positions_bound. lia.
           ++ rewrite lookup_insert_ne by done. rewrite Herrs.
              repeat case_decide; set_solver.
      * rewrite bool_decide_eq_false_2 by done. rewrite app_nil_r. split; [|done].
        intros r. rewrite Hseen'. set_solver.
    + rewrite app_nil_r. split; [|done]. intros r. rewrite Hseen'. naive_solver.
  - rewrite app_nil_r. split; [|done]. intros r. rewrite Hseen'. naive_solver.
Qed.

Lemma batch_loop_inv rest pre st :
  batch_inv pre st →
  batch_inv (pre ++ rest)
    (fold_left validate_batch_step (Py.enumerate (length pre) rest) st).
Proof.
  revert pre st. induction rest as [|row rest IH]; intros pre st Hinv; simpl.
  - by rewrite app_nil_r.
  - replace (pre ++ row :: rest) with ((pre ++ [row]) ++ rest) by (by rewrite <- app_assoc).
    replace (S (length pre)) with (length (pre ++ [row])) by (rewrite length_app; simpl; lia).
    apply IH. by apply batch_inv_step.
Qed.

Lemma validate_batch_refines rows :
  (validate_batch rows).1 = duplicate_positions rows ∧
  ∀ i, (validate_batch rows).2 !! i =
       if decide (i ∈ duplicate_positions rows) then Some [DUPLICATE_MSG] else None.
Proof.
  pose proof (batch_loop_inv rows [] (∅, [], ∅) batch_inv_init) as H.
  unfold validate_batch. simpl in H.
  destruct (fold_left _ _ _) as [[seen dups] errs]. simpl.
  destruct H as (_ & -> & Herrs). done.
Qed.

Lemma duplicate_positions_sorted rows :
  StronglySorted lt (duplicate_positions rows).
Proof.
  unfold duplicate_positions. generalize 0%nat at 1 as k. generalize (length rows) as n.
  induction n as [|n IH]; intros k; simpl; [constructor|].
  destruct (later_occurrence rows k); [|apply IH].
  constructor; [apply IH|].
  apply Forall_forall. intros i Hi. apply list_elem_of_In, filter_In in Hi as [Hi _].
  apply in_seq in Hi. lia.
Qed.

Lemma elem_of_duplicate_positions rows i :
  i ∈ duplicate_positions rows ↔
  ∃ rid j, key_at rows i = Some rid ∧ (j < i)%nat ∧ key_at rows j = Some rid.
Proof.
  unfold duplicate_positions.
  rewrite list_elem_of_In, filter_In, in_seq, later_occurrence_spec.
  split; [naive_solver|]. intros (rid & j & Hi & Hj & Hk). split; [|eauto 6].
  unfold key_at in Hi. destruct (rows !! i) eqn:Hl; [|done].
  apply lookup_lt_Some in Hl. lia.
Qed.

(** C7. [validate_batch] flags exactly the second and later occurrences of
    each trimmed, non-empty review identifier: the flagged indices are the
    zero-based positions [i] whose identifier already occurs at some
    [j < i], listed once each in scan (increasing) order; exactly the
    flagged rows carry the duplicate message; a first occurrence and a row
    with an empty or absent identifier are never flagged; and the
    identifiers dup-1, dup-1, unique, dup-1 give the indices [1; 3]. *)
Theorem validate_batch_flags_later_occurrences rows :
  let dups := (validate_batch rows).1 in
  let per_row_errors := (validate_batch rows).2 in
  (∀ i, i ∈ dups ↔
        ∃ rid j, key_at rows i = Some rid ∧ (j < i)%nat ∧ key_at rows j = Some rid) ∧
  StronglySorted lt dups ∧
  (∀ i, per_row_errors !! i =
        if decide (i ∈ dups) then Some [DUPLICATE_MSG] else None) ∧
  (∀ i rid, key_at rows i = Some rid →
            (∀ j, (j < i)%nat → key_at rows j ≠ Some rid) → i ∉ dups) ∧
  (∀ i, key_at rows i = None → i ∉ dups) ∧
  (validate_batch dup_scenario).1 = [1; 3]%nat.
Proof.
  destruct (validate_batch_refines rows) as [Hd He]. simpl. rewrite Hd.
  split_and!.
  - apply elem_of_duplicate_positions.
  - apply duplicate_positions_sorted.
  - done.
  - intros i rid Hi Hfirst (rid' & j & Hi' & Hj & Hk)%elem_of_duplicate_positions.
    apply (Hfirst j Hj). congruence.
  - intros i Hi (rid' & j & Hi' & _)%elem_of_duplicate_positions. congruence.
  - by vm_compute.
Qed.

End ValidateBatch.
(** ** Properties of [upsert_business] *)

Section UpsertBusiness.

Implicit Types (st : Store) (n : normalized) (d : string).

Lemma ltb_le a b : String.ltb a b = true → String.le a b.
Proof.
  unfold String.le, String.leb, String.ltb.
  destruct (String.compare a b); simpl; intros H; first [exact I | discriminate H].
Qed.

Lemma ltb_false_le a b : String.ltb a b = false → String.le b a.
Proof.
  unfold String.le, String.leb, String.ltb. rewrite (String.compare_antisym a b).
  destruct (String.compare b a); simpl; intros H; first [exact I | discriminate H].
Qed.

Lemma is_minimum_singleton d : is_minimum d [d].
Proof. split; [set_solver|]. by repeat constructor. Qed.

Lemma is_maximum_singleton d : is_maximum d [d].
Proof. split; [set_solver|]. by repeat constructor. Qed.

Lemma is_minimum_snoc m d l :
  is_minimum m l → is_minimum (if String.ltb d m then d else m) (l ++ [d]).
Proof.
  intros [Hin Hall]. destruct (String.ltb d m) eqn:Hlt.
  - split; [set_solver|]. apply Forall_app. split; [|by repeat constructor].
    eapply Forall_impl; [exact Hall|]. intros x Hx. simpl in Hx.
    etrans; [by apply ltb_le|done].
  - split; [set_solver|]. apply Forall_app. split; [done|].
    repeat constructor. by apply ltb_false_le.
Qed.

Lemma is_maximum_snoc m d l :
  is_maximum m l → is_maximum (if String.ltb m d then d else m) (l ++ [d]).
Proof.
  intros [Hin Hall]. destruct (String.ltb m d) eqn:Hlt.
  - split; [set_solver|]. apply Forall_app. split; [|by repeat constructor].
    eapply Forall_impl; [exact Hall|]. intros x Hx. simpl in Hx.
    etrans; [done|by apply ltb_le].
  - split; [set_solver|]. apply Forall_app. split; [done|].
    repeat constructor. by apply ltb_false_le.
Qed.

(** A call with a name changes the row of its business only, and counts. *)
Lemma upsert_business_new st n bid name d :
  n_business_id n = Some bid → n_business_name n = Some name → n_review_date n = Some d →
  business st !! bid = None →
  ∃ st', upsert_business n st = Ok st' ∧
         business st' !! bid = Some (mk_business name (Some d) (Some d) 1).
Proof.
  intros Hb Hn Hd Hnone. unfold upsert_business. rewrite Hn, Hb, Hd, Hnone.
  eexists. split; [done|]. simpl. by rewrite lookup_insert_eq.
Qed.

Lemma upsert_business_again st n bid name d old lo hi :
  n_business_id n = Some bid → n_business_name n = Some name → n_review_date n = Some d →
  business st !! bid = Some old →
  b_first_review_date old = Some lo → b_last_review_date old = Some hi →
  ∃ st', upsert_business n st = Ok st' ∧
         business st' !! bid =
           Some (mk_business name
                   (Some (if String.ltb d lo then d else lo))
                   (Some (if String.ltb hi d then d else hi))
                   (b_total_reviews old + 1)).
Proof.
  intros Hb Hn Hd Hold Hlo Hhi. unfold upsert_business. rewrite Hn, Hb, Hd, Hold.
  eexists. split; [done|]. simpl. rewrite lookup_insert_eq.
  unfold business_on_conflict. simpl. rewrite Hlo, Hhi. simpl.
  by destruct (String.ltb d lo), (String.ltb hi d).
Qed.

Lemma upsert_business_name st st' n :
  upsert_business n st = Ok st' → is_Some (n_business_name n).
Proof. unfold upsert_business. destruct (n_business_name n); [eauto|done]. Qed.

(** The calls after the first one. *)
Lemma upsert_business_all_again ns : ∀ st st' bid old seen lo hi,
  Forall (λ n, n_business_id n = Some bid ∧ is_Some (n_review_date n)) ns →
  business st !! bid = Some old →
  b_first_review_date old = Some lo → b_last_review_date old = Some hi →
  is_minimum lo seen → is_maximum hi seen →
  upsert_business_all ns st = Ok st' →
  ∃ row lo' hi',
    business st' !! bid = Some row ∧
    b_total_reviews row = b_total_reviews old + Z.of_nat (length ns) ∧
    b_first_review_date row = Some lo' ∧ b_last_review_date row = Some hi' ∧
    is_minimum lo' (seen ++ omap n_review_date ns) ∧
    is_maximum hi' (seen ++ omap n_review_date ns).
Proof.
  induction ns as [|n ns IH]; intros st st' bid old seen lo hi Hall Hold Hlo Hhi Hmin Hmax Hrun.
  - simpl in Hrun. injection Hrun as <-. exists old, lo, hi.
    rewrite app_nil_r. simpl. repeat split; (done || lia || apply Hmin || apply Hmax).
  - apply Forall_cons in Hall as [[Hb [d Hd]] Hall].
    unfold upsert_business_all in Hrun. simpl in Hrun.
    destruct (upsert_business n st) as [st1|e] eqn:Hstep; [|done].
    destruct (upsert_business_name _ _ _ Hstep) as [name Hn].
    destruct (upsert_business_again st n bid name d old lo hi Hb Hn Hd Hold Hlo Hhi)
      as (st1' & Hstep' & Hrow).
    rewrite Hstep in Hstep'. injection Hstep' as <-.
    edestruct (IH st1 st' bid _ (seen ++ [d]) _ _ Hall Hrow eq_refl eq_refl)
      as (row & lo' & hi' & Hrow' & Htot & Hlo' & Hhi' & Hmin' & Hmax').
    { by apply is_minimum_snoc. }
    { by apply is_maximum_snoc. }
    { exact Hrun. }
    exists row, lo', hi'. simpl in Htot. simpl. rewrite Hd. simpl.
    rewrite <- app_assoc in Hmin', Hmax'. simpl in Hmin', Hmax'.
    repeat split; (done || lia || apply Hmin' || apply Hmax').
Qed.

(** C2. After [n >= 1] calls of [upsert_business] that run to completion
    for one business, not stored before, each with a review date, the
    row of the business has [total_reviews = n], [first_review_date] the
    minimum and [last_review_date] the maximum of the dates of the calls, in
    the order in which the store compares text; and the dates 2024-01-01
    then 2023-06-01 leave [first_review_date = 2023-06-01] and
    [total_reviews = 2]. *)
Theorem upsert_business_counts_and_extends (bid : string) (ns : list normalized)
    (st st' : Store) :
  ns ≠ [] →
  Forall (λ n, n_business_id n = Some bid ∧ is_Some (n_review_date n)) ns →
  business st !! bid = None →
  upsert_business_all ns st = Ok st' →
  (∃ row lo hi,
     business st' !! bid = Some row ∧
     b_total_reviews row = Z.of_nat (length ns) ∧
     b_first_review_date row = Some lo ∧ is_minimum lo (omap n_review_date ns) ∧
     b_last_review_date row = Some hi ∧ is_maximum hi (omap n_review_date ns)) ∧
  (business <$> upsert_business_all
     [business_review "b-1" "Widgets Inc" "2024-01-01";
      business_review "b-1" "Widgets Inc" "2023-06-01"] empty_store) =
  Ok {[ "b-1" := mk_business "Widgets Inc" (Some "2023-06-01") (Some "2024-01-01") 2 ]}.
Proof.
  intros Hne Hall Hnone Hrun. split; [|by vm_compute].
  destruct ns as [|n ns]; [done|].
  apply Forall_cons in Hall as [[Hb [d Hd]] Hall].
  unfold upsert_business_all in Hrun. simpl in Hrun.
  destruct (upsert_business n st) as [st1|e] eqn:Hstep; [|done].
  destruct (upsert_business_name _ _ _ Hstep) as [name Hn].
  destruct (upsert_business_new st n bid name d Hb Hn Hd Hnone) as (st1' & Hstep' & Hrow).
  rewrite Hstep in Hstep'. injection Hstep' as <-.
  edestruct (upsert_business_all_again ns st1 st' bid _ [d] d d Hall Hrow eq_refl eq_refl)
    as (row & lo' & hi' & Hrow' & Htot & Hlo' & Hhi' & Hmin' & Hmax').
  { apply is_minimum_singleton. }
  { apply is_maximum_singleton. }
  { exact Hrun. }
  exists row, lo', hi'. simpl in *. rewrite Hd. simpl.
  repeat split; (done || lia || apply Hmin' || apply Hmax').
Qed.

End UpsertBusiness.

(** Two reviews of one business, the second one earlier than the first. *)
Lemma upsert_business_counts_and_extends_witness :
  ∃ row lo hi,
    business (mk_store {[ "b-1" := mk_business "Widgets Inc" (Some "2023-06-01")
                                     (Some "2024-01-01") 2 ]} [] ∅ [] ∅ [] [])
      !! "b-1" = Some row ∧
    b_total_reviews row = 2 ∧
    b_first_review_date row = Some lo ∧ is_minimum lo ["2024-01-01"; "2023-06-01"] ∧
    b_last_review_date row = Some hi ∧ is_maximum hi ["2024-01-01"; "2023-06-01"].
Proof.
  refine (proj1 (upsert_business_counts_and_extends "b-1"
            [business_review "b-1" "Widgets Inc" "2024-01-01";
             business_review "b-1" "Widgets Inc" "2023-06-01"]
            empty_store _ _ _ _ _)).
  - discriminate.
  - repeat constructor; eexists; reflexivity.
  - reflexivity.
  - vm_compute. reflexivity.
Defined.

(** ** Properties of [parse_date_to_iso_utc] *)

Section StringFacts.

Implicit Types (s t : string) (c : ascii).

Lemma app_cons c s t : String c s +:+ t = String c (s +:+ t).
Proof. reflexivity. Qed.

Lemma app_empty_l t : "" +:+ t = t.
Proof. reflexivity. Qed.

Lemma app_empty_r s : s +:+ "" = s.
Proof. induction s as [|c s IH]; [done|]. by rewrite app_cons, IH. Qed.

Lemma app_assoc_str s t u : (s +:+ t) +:+ u = s +:+ t +:+ u.
Proof. induction s as [|c s IH]; [done|]. by rewrite !app_cons, IH. Qed.

Lemma length_app_str s t : String.length (s +:+ t) = (String.length s + String.length t)%nat.
Proof. induction s as [|c s IH]; [done|]. rewrite app_cons. simpl. by rewrite IH. Qed.

Lemma all_chars_app p s t :
  Py.all_chars p (s +:+ t) = Py.all_chars p s && Py.all_chars p t.
Proof.
  induction s as [|c s IH]; [done|]. rewrite app_cons. simpl.
  by rewrite IH, andb_assoc.
Qed.

Lemma all_chars_impl (p q : ascii → bool) s :
  (∀ c, p c = true → q c = true) → Py.all_chars p s = true → Py.all_chars q s = true.
Proof.
  intros Hpq. induction s as [|c s IH]; [done|]. simpl.
  intros [Hc Hs]%andb_true_iff. rewrite (Hpq _ Hc). by apply IH.
Qed.

Lemma substring_all s : String.substring 0 (String.length s) s = s.
Proof. induction s as [|c s IH]; [done|]. simpl. by rewrite IH. Qed.

(** A check on the numbers below [k] holds for each of them. *)
Lemma below_forallb (P : Z → bool) (k : Z) :
  forallb P (Z.of_nat <$> seq 0 (Z.to_nat k)) = true → ∀ n, 0 <= n < k → P n = true.
Proof.
  intros Hall n Hn. rewrite forallb_forall in Hall. apply Hall.
  apply list_elem_of_In, list_elem_of_fmap. exists (Z.to_nat n). split; [lia|].
  apply list_elem_of_In, in_seq. lia.
Qed.

Lemma zfill_2_exact n : 0 <= n < 100 → zfill_exact 2 n = true.
Proof. apply (below_forallb (zfill_exact 2) 100). by vm_compute. Qed.

Lemma zfill_4_exact n : 0 <= n < 10000 → zfill_exact 4 n = true.
Proof. apply (below_forallb (zfill_exact 4) 10000). by vm_compute. Qed.

Lemma zfill_exact_elim w n :
  zfill_exact w n = true →
  String.length (Py.zfill w n) = w ∧
  Py.all_chars Py.isdigit (Py.zfill w n) = true ∧
  Py.int_of_digits (Py.zfill w n) = n.
Proof.
  unfold zfill_exact. intros [[Hl Hd]%andb_true_iff Hv]%andb_true_iff.
  apply Nat.eqb_eq in Hl. apply Z.eqb_eq in Hv. done.
Qed.

End StringFacts.

Section DateFacts.

Import Datetime.
Implicit Types (s t : string) (c : ascii) (dt : datetime).

Lemma digits_app k : ∀ s rest acc,
  String.length s = k → Py.all_chars Py.isdigit s = true →
  digits k acc (s +:+ rest) = Some (Py.int_of_digits_acc acc s, rest).
Proof.
  induction k as [|k IH]; intros [|c s] rest acc Hlen Hall; try done.
  simpl in Hlen, Hall. apply andb_true_iff in Hall as [Hc Hs]. rewrite app_cons.
  simpl. rewrite Hc. apply IH; [lia|done].
Qed.

#[local] Arguments digits : simpl never.

Lemma digits_zfill w n rest :
  zfill_exact w n = true → digits w 0 (Py.zfill w n +:+ rest) = Some (n, rest).
Proof.
  intros (Hl & Hd & Hv)%zfill_exact_elim.
  rewrite digits_app by done. unfold Py.int_of_digits in Hv. by rewrite Hv.
Qed.

(** The fields of a valid value are in the ranges of their widths. *)
Lemma valid_fields_ranges dt :
  valid_fields dt = true →
  0 <= year dt < 10000 ∧ 0 <= month dt < 100 ∧ 0 <= day dt < 100 ∧
  0 <= hour dt < 100 ∧ 0 <= minute dt < 100 ∧ 0 <= second dt < 100 ∧
  0 <= microsecond dt <= 999999.
Proof.
  unfold valid_fields. rewrite !andb_true_iff, !Z.leb_le.
  intros [[[[[[[[[[[[[[? ?] ?] ?] ?] Hd] ?] ?] ?] ?] ?] ?] ?] ?] _].
  assert (days_in_month (year dt) (month dt) <= 31).
  { unfold days_in_month. destruct (_ && _); [lia|].
    assert (Hm : ∃ k, month dt = Z.of_nat k ∧ (k <= 12)%nat) by (exists (Z.to_nat (month dt)); lia).
    destruct Hm as (k & -> & Hk). rewrite Nat2Z.id.
    do 13 (destruct k as [|k]; [simpl; lia|]). lia. }
  lia.
Qed.

Lemma split_at_sign_plain s :
  Py.all_chars (λ c, Py.isdigit c || Ascii.eqb c ":") s = true → split_at_sign s = (s, None).
Proof.
  induction s as [|c s IH]; [done|]. simpl. intros [Hc Hs]%andb_true_iff.
  rewrite (IH Hs).
  destruct (Ascii.eqb c "+") eqn:E1.
  { apply Ascii.eqb_eq in E1 as ->. done. }
  destruct (Ascii.eqb c "-") eqn:E2.
  { apply Ascii.eqb_eq in E2 as ->. done. }
  done.
Qed.

Lemma time_text_plain dt :
  valid_fields dt = true →
  Py.all_chars (λ c, Py.isdigit c || Ascii.eqb c ":") (time_text dt) = true.
Proof.
  intros (_ & _ & _ & Hh & Hm & Hs & _)%valid_fields_ranges. unfold time_text.
  rewrite !all_chars_app.
  destruct (zfill_exact_elim _ _ (zfill_2_exact _ Hh)) as (_ & H1 & _).
  destruct (zfill_exact_elim _ _ (zfill_2_exact _ Hm)) as (_ & H2 & _).
  destruct (zfill_exact_elim _ _ (zfill_2_exact _ Hs)) as (_ & H3 & _).
  assert (Hi : ∀ c, Py.isdigit c = true → Py.isdigit c || Ascii.eqb c ":" = true)
    by (intros c ->; done).
  rewrite (all_chars_impl _ _ _ Hi H1), (all_chars_impl _ _ _ Hi H2),
    (all_chars_impl _ _ _ Hi H3).
  done.
Qed.

Lemma parse_time_text dt :
  valid_fields dt = true →
  parse_hh_mm_ss_ff (time_text dt) = Some (hour dt, minute dt, second dt, 0).
Proof.
  intros (_ & _ & _ & Hh & Hm & Hs & _)%valid_fields_ranges.
  unfold parse_hh_mm_ss_ff, time_text.
  rewrite digits_zfill by by apply zfill_2_exact. rewrite app_cons, app_empty_l. simpl.
  rewrite digits_zfill by by apply zfill_2_exact. rewrite app_cons, app_empty_l. simpl.
  replace (Py.zfill 2 (second dt)) with (Py.zfill 2 (second dt) +:+ "") by apply app_empty_r.
  rewrite digits_zfill by by apply zfill_2_exact. done.
Qed.

Lemma fromisoformat_isoformat dt :
  valid_fields dt = true → microsecond dt = 0 → tzinfo dt = None →
  fromisoformat (date_text dt +:+ "T" +:+ time_text dt) = Some dt.
Proof.
  intros Hv Hus Htz.
  pose proof (valid_fields_ranges _ Hv) as (Hy & Hmo & Hd & _).
  unfold fromisoformat, parse_isoformat_date, date_text.
  rewrite !app_assoc_str.
  rewrite digits_zfill by by apply zfill_4_exact. rewrite app_cons, app_empty_l. simpl.
  rewrite digits_zfill by by apply zfill_2_exact. rewrite app_cons, app_empty_l. simpl.
  rewrite digits_zfill by by apply zfill_2_exact. rewrite app_cons, app_empty_l. simpl.
  rewrite Nat.sub_0_r, substring_all. unfold parse_isoformat_time.
  rewrite split_at_sign_plain by by apply time_text_plain.
  rewrite parse_time_text by done. simpl.
  unfold make. destruct dt as [y mo d h mi sec us tz]. simpl in *. subst us tz.
  by rewrite Hv.
Qed.

Lemma isdigit_not_space c : Py.isdigit c = true → Py.isspace c = false.
Proof. by destruct c as [[] [] [] [] [] [] [] []]. Qed.

Lemma iso_char_not_plus c : iso_char c = true → Ascii.eqb "+" c = false.
Proof. by destruct c as [[] [] [] [] [] [] [] []]. Qed.

Lemma replace_offset_suffix s :
  Py.all_chars iso_char s = true →
  Py.replace "+00:00" "Z" (s +:+ "+00:00") = s +:+ "Z".
Proof.
  unfold Py.replace. induction s as [|c s IH]; [done|].
  intros Hall. simpl in Hall. apply andb_true_iff in Hall as [Hc Hs]. rewrite app_cons.
  change (Py.replace_from 0 "+00:00" "Z" (String c (s +:+ "+00:00"))) with
    (if Ascii.eqb "+" c && Py.starts_with "00:00" (s +:+ "+00:00")
     then "Z" +:+ Py.replace_from 5 "+00:00" "Z" (s +:+ "+00:00")
     else String c (Py.replace_from 0 "+00:00" "Z" (s +:+ "+00:00"))).
  rewrite (iso_char_not_plus _ Hc). simpl. by rewrite IH.
Qed.

Lemma rstrip_Z s : Py.rstrip (s +:+ "Z") = s +:+ "Z".
Proof.
  induction s as [|c s IH]; [done|]. rewrite app_cons. simpl. rewrite IH.
  by destruct s.
Qed.

Lemma endswith_Z s : Py.endswith (s +:+ "Z") "Z" = true.
Proof.
  unfold Py.endswith. assert (H : Py.last_char (s +:+ "Z") = Some "Z"%char); [|by rewrite H].
  induction s as [|c s IH]; [done|]. rewrite app_cons. simpl. rewrite IH. by destruct s.
Qed.

Lemma drop_last_Z s : Py.drop_last (s +:+ "Z") = s.
Proof.
  induction s as [|c s IH]; [done|]. rewrite app_cons. simpl. rewrite IH. by destruct s.
Qed.

Lemma zfill_digits_2 n : 0 <= n < 100 → Py.all_chars Py.isdigit (Py.zfill 2 n) = true.
Proof. intros H. by destruct (zfill_exact_elim _ _ (zfill_2_exact _ H)) as (_ & ? & _). Qed.

Lemma zfill_digits_4 n : 0 <= n < 10000 → Py.all_chars Py.isdigit (Py.zfill 4 n) = true.
Proof. intros H. by destruct (zfill_exact_elim _ _ (zfill_4_exact _ H)) as (_ & ? & _). Qed.

Lemma isdigit_iso_char s : Py.all_chars Py.isdigit s = true → Py.all_chars iso_char s = true.
Proof. apply all_chars_impl. unfold iso_char. by intros c ->. Qed.

Lemma date_time_iso_chars dt :
  valid_fields dt = true →
  Py.all_chars iso_char (date_text dt +:+ "T" +:+ time_text dt) = true.
Proof.
  intros (Hy & Hmo & Hd & Hh & Hmi & Hs & _)%valid_fields_ranges.
  unfold date_text, time_text. rewrite !all_chars_app.
  rewrite (isdigit_iso_char _ (zfill_digits_4 _ Hy)), (isdigit_iso_char _ (zfill_digits_2 _ Hmo)),
    (isdigit_iso_char _ (zfill_digits_2 _ Hd)), (isdigit_iso_char _ (zfill_digits_2 _ Hh)),
    (isdigit_iso_char _ (zfill_digits_2 _ Hmi)), (isdigit_iso_char _ (zfill_digits_2 _ Hs)).
  done.
Qed.

(** The normalized text of a valid UTC value. *)
Lemma iso_z_text dt :
  valid_fields dt = true → tzinfo dt = Some 0 →
  iso_z dt = date_text dt +:+ "T" +:+ time_text dt +:+ "Z".
Proof.
  intros Hv Htz. unfold iso_z, isoformat, isoformat_sep. simpl. rewrite Htz.
  change (format_offset 0) with "+00:00".
  rewrite app_empty_l.
  pose proof (replace_offset_suffix _ (date_time_iso_chars _ Hv)) as H.
  unfold date_text, time_text in *. rewrite !app_assoc_str in *. exact H.
Qed.

Lemma make_valid y m d H M S us tz dt :
  make y m d H M S us tz = Some dt → valid_fields dt = true.
Proof. unfold make. destruct (valid_fields _) eqn:Hv; [|done]. by intros [= <-]. Qed.

Lemma fromisoformat_valid s dt : fromisoformat s = Some dt → valid_fields dt = true.
Proof.
  unfold fromisoformat. intros H.
  destruct (parse_isoformat_date s) as [[[[y m] d] rest]|]; [|done]. simpl in H.
  destruct rest as [|c rest]; [by eapply make_valid|].
  destruct (skip_separator _) as [tstr|]; [|done]. simpl in H.
  destruct (parse_isoformat_time tstr) as [[[[[h mi] sec] us] tz]|]; [|done]. simpl in H.
  by eapply make_valid.
Qed.

Lemma strptime_valid s fmt dt : strptime s fmt = Some dt → valid_fields dt = true.
Proof.
  unfold strptime. destruct (match_format _ _ _) as [|[f [|c r]] l]; try done.
  apply make_valid.
Qed.

Lemma astimezone_utc_valid dt dt' :
  astimezone_utc dt = Some dt' → valid_fields dt' = true ∧ tzinfo dt' = Some 0.
Proof.
  unfold astimezone_utc. destruct (_ && _); [|done].
  destruct (ord2ymd _) as [[y m] d]. unfold make.
  destruct (valid_fields _) eqn:Hv; [|done]. by intros [= <-].
Qed.

Lemma replace_tzinfo_utc_valid dt :
  valid_fields dt = true →
  valid_fields (replace_tzinfo_utc dt) = true ∧ tzinfo (replace_tzinfo_utc dt) = Some 0.
Proof.
  unfold valid_fields. simpl. rewrite !andb_true_iff. intros [H _]. done.
Qed.

Lemma replace_microsecond_0_valid dt :
  valid_fields dt = true → valid_fields (replace_microsecond_0 dt) = true.
Proof.
  unfold valid_fields. simpl. rewrite !andb_true_iff.
  intros [[[[[[[[[[[[[[? ?] ?] ?] ?] ?] ?] ?] ?] ?] ?] ?] ?] ?] ?]. done.
Qed.

Lemma iso_fast_path_valid s dt :
  iso_fast_path s = Some dt → valid_fields dt = true ∧ tzinfo dt = Some 0.
Proof.
  unfold iso_fast_path. destruct (Py.endswith s "Z").
  - destruct (fromisoformat _) as [dt0|] eqn:Hf; [|done]. intros [= <-].
    apply replace_tzinfo_utc_valid. by eapply fromisoformat_valid.
  - destruct (fromisoformat _) as [dt0|] eqn:Hf; [|done]. simpl.
    destruct (tzinfo dt0).
    + apply astimezone_utc_valid.
    + intros [= <-]. apply replace_tzinfo_utc_valid. by eapply fromisoformat_valid.
Qed.

Lemma try_patterns_valid pats s dt :
  try_patterns pats s = Some dt → valid_fields dt = true ∧ tzinfo dt = Some 0.
Proof.
  induction pats as [|pat pats IH]; [done|]. simpl.
  destruct (strptime s pat) as [dt0|] eqn:Hp; [|done].
  intros [= <-]. apply replace_tzinfo_utc_valid. by eapply strptime_valid.
Qed.

Lemma try_patterns_some pats s :
  is_Some (try_patterns pats s) ↔ ∃ pat, pat ∈ pats ∧ is_Some (strptime s pat).
Proof.
  induction pats as [|pat pats IH]; simpl.
  - split; [by intros [? ?]|]. intros (? & ?%elem_of_nil & _). done.
  - destruct (strptime s pat) as [dt0|] eqn:Hp.
    + split; [|eauto]. intros _. exists pat. rewrite Hp. split; [set_solver|eauto].
    + rewrite IH. split.
      * intros (p & Hin & Hs). exists p. split; [set_solver|done].
      * intros (p & Hin & Hs). apply elem_of_cons in Hin as [->|Hin].
        -- rewrite Hp in Hs. by destruct Hs.
        -- eauto.
Qed.

(** What [parse_date_to_iso_utc] returns is the text of a valid UTC value. *)
Lemma parse_date_to_iso_utc_text s out :
  parse_date_to_iso_utc s = Some out →
  ∃ dt, valid_fields dt = true ∧ tzinfo dt = Some 0 ∧ out = iso_z dt.
Proof.
  unfold parse_date_to_iso_utc. destruct (negb _); [done|].
  destruct (iso_fast_path _) as [dt|] eqn:Hf.
  - intros [= <-]. exists dt. by destruct (iso_fast_path_valid _ _ Hf).
  - destruct (try_patterns _ _) as [dt|] eqn:Hp; [|done]. intros [= <-].
    exists dt. by destruct (try_patterns_valid _ _ _ Hp).
Qed.

Lemma template_app t1 : ∀ t2 s1 s2,
  matches_template t1 s1 = true → matches_template t2 s2 = true →
  matches_template (t1 +:+ t2) (s1 +:+ s2) = true.
Proof.
  induction t1 as [|a t1 IH]; intros t2 [|c s1] s2 H1 H2; try done.
  rewrite !app_cons. simpl in *. apply andb_true_iff in H1 as [Ha H1].
  rewrite Ha. simpl. by apply IH.
Qed.

Lemma template_digits s :
  Py.all_chars Py.isdigit s = true →
  matches_template (digits_template (String.length s)) s = true.
Proof.
  induction s as [|c s IH]; [done|]. simpl. intros [Hc Hs]%andb_true_iff.
  rewrite Hc. simpl. by apply IH.
Qed.

Lemma template_zfill w n :
  zfill_exact w n = true → matches_template (digits_template w) (Py.zfill w n) = true.
Proof.
  intros (Hl & Hd & _)%zfill_exact_elim. rewrite <- Hl at 1. by apply template_digits.
Qed.

Lemma iso_z_shape dt :
  valid_fields dt = true → tzinfo dt = Some 0 →
  matches_template ISO_UTC_TEMPLATE (iso_z dt) = true.
Proof.
  intros Hv Htz. rewrite iso_z_text by done.
  pose proof (valid_fields_ranges _ Hv) as (Hy & Hmo & Hd & Hh & Hmi & Hs & _).
  change ISO_UTC_TEMPLATE with
    ((digits_template 4 +:+ "-" +:+ digits_template 2 +:+ "-" +:+ digits_template 2) +:+
     "T" +:+ (digits_template 2 +:+ ":" +:+ digits_template 2 +:+ ":" +:+ digits_template 2) +:+
     "Z").
  unfold date_text, time_text.
  repeat first
    [ apply template_zfill; first [by apply zfill_4_exact | by apply zfill_2_exact]
    | apply template_app
    | done ].
Qed.

Lemma date_text_first dt :
  valid_fields dt = true →
  ∃ c rest, date_text dt = String c rest ∧ Py.isspace c = false.
Proof.
  intros (Hy & _)%valid_fields_ranges. unfold date_text.
  destruct (zfill_exact_elim _ _ (zfill_4_exact _ Hy)) as (Hl & Hd & _).
  destruct (Py.zfill 4 (year dt)) as [|c rest]; [done|].
  simpl in Hd. apply andb_true_iff in Hd as [Hc _].
  exists c. eexists. rewrite app_cons. split; [done|]. by apply isdigit_not_space.
Qed.

(** The normalized text of a valid UTC value parses to itself. *)
Lemma parse_date_to_iso_utc_iso_z dt :
  valid_fields dt = true → tzinfo dt = Some 0 →
  parse_date_to_iso_utc (iso_z dt) = Some (iso_z dt).
Proof.
  intros Hv Htz.
  pose proof (replace_microsecond_0_valid _ Hv) as Hv0.
  set (naive := mk (year dt) (month dt) (day dt) (hour dt) (minute dt) (second dt) 0 None).
  assert (Hn : valid_fields naive = true).
  { revert Hv0. unfold valid_fields, naive. simpl. rewrite Htz, !andb_true_iff.
    intros [H _]. done. }
  rewrite iso_z_text by done.
  destruct (date_text_first _ Hv) as (c & rest & Hc & Hsp).
  unfold parse_date_to_iso_utc.
  assert (Hstrip : Py.strip (date_text dt +:+ "T" +:+ time_text dt +:+ "Z") =
                   date_text dt +:+ "T" +:+ time_text dt +:+ "Z").
  { unfold Py.strip. rewrite Hc, app_cons. simpl. rewrite Hsp.
    rewrite <- app_cons, <- Hc, <- !app_assoc_str. apply rstrip_Z. }
  rewrite Hstrip. rewrite Hc at 1. rewrite app_cons. simpl.
  unfold iso_fast_path. rewrite <- !app_assoc_str, endswith_Z, drop_last_Z, app_assoc_str.
  change (date_text dt) with (date_text naive). change (time_text dt) with (time_text naive).
  rewrite fromisoformat_isoformat by done. simpl.
  f_equal. rewrite iso_z_text; [| |done].
  - by rewrite <- !app_assoc_str.
  - by apply replace_tzinfo_utc_valid.
Qed.

Lemma no_strategy_on_empty : ¬ some_strategy_parses "".
Proof.
  intros [H | (pat & Hin & H)].
  - by destruct H.
  - unfold _DATE_PATTERNS in Hin. set_unfold in Hin.
    destruct_or! Hin; subst pat; by destruct H.
Qed.

Lemma parse_date_to_iso_utc_some s :
  is_Some (parse_date_to_iso_utc s) ↔ some_strategy_parses s.
Proof.
  split.
  - unfold parse_date_to_iso_utc, some_strategy_parses.
    destruct (negb _); [by intros [? ?]|].
    destruct (iso_fast_path _); [eauto|]. intros [out Hout]. right.
    apply try_patterns_some. destruct (try_patterns _ _); [eauto|done].
  - intros H. destruct s as [|c s]; [by destruct no_strategy_on_empty|].
    unfold parse_date_to_iso_utc. simpl negb. cbv iota.
    destruct H as [H | H%try_patterns_some].
    + destruct H as [dt ->]. eauto.
    + destruct (iso_fast_path _); [eauto|]. destruct H as [dt ->]. eauto.
Qed.

(** C6. [parse_date_to_iso_utc] returns a value exactly for the inputs that
    one of its strategies parses (the ISO fast path, then the patterns in
    order), and no value, without raising, for the others; every value it
    returns has the shape YYYY-MM-DDTHH:MM:SSZ (UTC, whole seconds), and it
    maps each of its own outputs to itself. *)
Theorem parse_date_to_iso_utc_normal_form (s : string) :
  (some_strategy_parses s → is_Some (parse_date_to_iso_utc s)) ∧
  (¬ some_strategy_parses s → parse_date_to_iso_utc s = None) ∧
  (∀ out, parse_date_to_iso_utc s = Some out →
          matches_template ISO_UTC_TEMPLATE out = true ∧
          parse_date_to_iso_utc out = Some out).
Proof.
  split_and!.
  - apply parse_date_to_iso_utc_some.
  - intros Hno. destruct (parse_date_to_iso_utc s) eqn:H; [|done].
    destruct Hno. apply parse_date_to_iso_utc_some. eauto.
  - intros out (dt & Hv & Htz & ->)%parse_date_to_iso_utc_text. split.
    + by apply iso_z_shape.
    + by apply parse_date_to_iso_utc_iso_z.
Qed.

End DateFacts.

(** The offset +0200 is normalized, the value is converted to UTC, and the
    result parses to itself. *)
Lemma parse_date_to_iso_utc_normal_form_witness :
  parse_date_to_iso_utc "2024-10-17T10:43:39+0200" = Some "2024-10-17T08:43:39Z" ∧
  matches_template ISO_UTC_TEMPLATE "2024-10-17T08:43:39Z" = true ∧
  parse_date_to_iso_utc "2024-10-17T08:43:39Z" = Some "2024-10-17T08:43:39Z".
Proof.
  assert (H : parse_date_to_iso_utc "2024-10-17T10:43:39+0200" = Some "2024-10-17T08:43:39Z")
    by (vm_compute; reflexivity).
  split; [exact H|].
  exact (proj2 (proj2 (parse_date_to_iso_utc_normal_form _)) _ H).
Defined.

(** ** Properties of [validate_row] *)

Section ValidateRow.

Implicit Types (raw : raw_row) (n : normalized) (errs : list string).

Lemma coerce_int_raises v e :
  coerce_int v = Raise e →
  e = OverflowError ∧ ∃ s neg, v = Some s ∧ PyFloat.of_string (Py.strip s) = Some (PyFloat.Inf neg).
Proof.
  unfold coerce_int. destruct v as [s|]; [|done].
  destruct (String.eqb _ _); [done|].
  destruct (PyFloat.of_string _) as [[| neg | neg m ex]|] eqn:Hf; simpl; try done.
  intros [= <-]. eauto.
Qed.

(** [validate_row] raises exactly when the rating is an infinity. *)
Lemma validate_row_raises raw e :
  validate_row raw = Raise e ↔
  e = OverflowError ∧
  ∃ neg, PyFloat.of_string (Py.strip (default "" (raw !! "Review Rating")))
         = Some (PyFloat.Inf neg).
Proof.
  unfold validate_row. split.
  - destruct (coerce_int _) as [r|e'] eqn:Hc; [done|]. simpl. intros [= <-].
    apply coerce_int_raises in Hc as (-> & s & neg & [= <-] & Hf). eauto.
  - intros (-> & neg & Hf). unfold coerce_int. rewrite Hf.
    destruct (String.eqb _ _) eqn:He; [|done].
    apply String.eqb_eq in He. rewrite He in Hf. done.
Qed.

Lemma validate_row_ok raw ok errs n :
  validate_row raw = Ok (ok, errs, n) →
  ∃ rating,
    coerce_int (rating_text raw) = Ok rating ∧
    ok = bool_decide (errs = []) ∧
    n_user_id n = trim (raw !! "Reviewer Id") ∧
    n_business_id n = trim (raw !! "Business Id") ∧
    n_review_id n = trim (raw !! "Review Id") ∧
    n_review_rating n = rating ∧
    n_review_date n = parse_date_to_iso_utc (Py.strip (default "" (raw !! "Review Date"))) ∧
    n_email_address n = or_none (trim (raw !! "Email Address")) ∧
    n_user_name n = trim (raw !! "Reviewer Name") ∧
    n_business_name n = trim (raw !! "Business Name") ∧
    n_review_ip_address n = trim (raw !! "Review IP Address") ∧
    n_source_file n = None ∧ n_source_row n = None ∧
    (Py.otruthy (n_user_id n) = false → "Reviewer Id is null/empty" ∈ errs) ∧
    (Py.otruthy (n_business_id n) = false → "Business Id is null/empty" ∈ errs) ∧
    (Py.otruthy (n_review_id n) = false → "Review Id is null/empty" ∈ errs) ∧
    (rating_in_range rating = false → rating_error raw ∈ errs) ∧
    (Py.otruthy (n_review_date n) = false →
       "Review Date unparsable: " +:+ Py.repr_opt (raw !! "Review Date") ∈ errs) ∧
    (∀ e, email_invalid raw e → "Email Address invalid: " +:+ Py.repr e ∈ errs) ∧
    (∀ i, ip_invalid raw i → "Review IP Address invalid: " +:+ Py.repr i ∈ errs).
Proof.
  unfold validate_row, rating_text. destruct (coerce_int _) as [rating|e]; [|done].
  simpl. intros [= <- <- <-]. exists rating. simpl.
  split_and!; try done.
  - intros ->. set_solver.
  - intros ->. set_solver.
  - intros ->. set_solver.
  - intros ->. unfold rating_error. set_solver.
  - intros ->. set_solver.
  - intros e (-> & -> & ->). set_solver.
  - intros i (-> & -> & ->). set_solver.
Qed.

Lemma validate_row_accepts raw errs n :
  validate_row raw = Ok (true, errs, n) →
  errs = [] ∧
  (∃ uid, n_user_id n = Some uid ∧ Py.truthy uid = true) ∧
  (∃ bid, n_business_id n = Some bid ∧ Py.truthy bid = true) ∧
  (∃ rid, n_review_id n = Some rid ∧ review_key raw = Some rid) ∧
  (∃ d, n_review_date n = Some d) ∧
  (∃ z, n_review_rating n = Some z ∧ 1 <= z <= 5) ∧
  n_email_address n ≠ Some "" ∧
  n_business_name n = trim (raw !! "Business Name").
Proof.
  intros (rating & Hc & Hok & Hu & Hb & Hr & Hrat & Hd & He & _ & Hbn & _ & _ & _ &
          Eu & Eb & Er & Erat & Ed & _)%validate_row_ok.
  symmetry in Hok. apply bool_decide_eq_true in Hok. subst errs.
  assert (Hnil : ∀ x : string, x ∈ @nil string → False) by (intros x Hx; inversion Hx).
  split_and!; try done.
  - destruct (n_user_id n) as [[|c s]|];
      [by destruct (Hnil _ (Eu eq_refl)) | eauto | by destruct (Hnil _ (Eu eq_refl))].
  - destruct (n_business_id n) as [[|c s]|];
      [by destruct (Hnil _ (Eb eq_refl)) | eauto | by destruct (Hnil _ (Eb eq_refl))].
  - unfold review_key. rewrite <- Hr.
    destruct (n_review_id n) as [[|c s]|];
      [by destruct (Hnil _ (Er eq_refl)) | eauto | by destruct (Hnil _ (Er eq_refl))].
  - destruct (n_review_date n) as [[|c s]|];
      [by destruct (Hnil _ (Ed eq_refl)) | eauto | by destruct (Hnil _ (Ed eq_refl))].
  - rewrite Hrat. destruct (rating_in_range rating) eqn:Hin;
      [|by destruct (Hnil _ (Erat eq_refl))].
    destruct rating as [z|]; [|done].
    exists z. split; [done|]. simpl in Hin. apply bool_decide_eq_true in Hin.
    set_unfold in Hin. lia.
  - rewrite He. unfold or_none.
    destruct (trim (raw !! "Email Address")) as [[|c s]|]; simpl; intros [=].
Qed.

Lemma rating_in_range_spec r :
  rating_in_range r = true ↔ ∃ z, r = Some z ∧ 1 <= z <= 5.
Proof.
  destruct r as [z|]; simpl.
  - rewrite bool_decide_eq_true. set_unfold. split.
    + intros H. exists z. split; [done|lia].
    + intros (z' & [= <-] & Hz). lia.
  - split; [done|]. by intros (z & ? & _).
Qed.

(** When [validate_row] returns, the rating error is among its errors
    exactly when the rating is not accepted. *)
Lemma validate_row_rating raw ok errs n :
  validate_row raw = Ok (ok, errs, n) →
  (rating_error raw ∈ errs ↔ ¬ rating_accepted raw).
Proof.
  intros Hv. split.
  - unfold validate_row in Hv. unfold rating_accepted, rating_text.
    destruct (coerce_int _) as [rating|e]; [|done]. simpl in Hv.
    injection Hv as _ <- _. intros Hin (z & [= ->] & Hz).
    assert (Hr : rating_in_range (Some z) = true) by (apply rating_in_range_spec; eauto).
    rewrite Hr in Hin. unfold rating_error, missing_column_errors in Hin. simpl in Hin.
    rewrite !elem_of_app in Hin.
    repeat match type of Hin with
           | _ ∨ _ => destruct Hin as [Hin|Hin]
           end;
    repeat match type of Hin with
           | _ ∈ (match ?x with _ => _ end) => destruct x
           | _ ∈ (if ?x then _ else _) => destruct x
           | _ ∈ [] => by inversion Hin
           | _ ∈ [_] => apply list_elem_of_singleton in Hin; vm_compute in Hin; discriminate Hin
           end.
  - intros Hno. apply validate_row_ok in Hv as (rating & Hc & _ & _ & _ & _ & _ & _ & _ & _ &
      _ & _ & _ & _ & _ & _ & _ & Erat & _).
    apply Erat. destruct (rating_in_range rating) eqn:Hr; [|done].
    destruct Hno. apply rating_in_range_spec in Hr as (z & -> & Hz). exists z. eauto.
Qed.
(** C5 (the code departs from the claim). A row whose rating is the text
    inf makes [validate_row] raise [OverflowError]: [coerce_int] catches
    the [ValueError] of [int(float(v))] only, and [int] of an infinity
    raises [OverflowError]. *)
Theorem validate_row_overflow_on_infinite_rating :
  validate_row infinite_rating_row = Raise OverflowError.
Proof. by vm_compute. Qed.

(** The rating 3.0 is the integer 3; a decimal just below one rounds to the
    double 1.0 and is the rating 1; a word is no rating. *)
Lemma coerce_int_examples :
  coerce_int (Some "3.0") = Ok (Some 3) ∧
  coerce_int (Some "0.99999999999999995") = Ok (Some 1) ∧
  coerce_int (Some "5.9999999999999996") = Ok (Some 6) ∧
  coerce_int (Some " 4 ") = Ok (Some 4) ∧
  coerce_int (Some "five") = Ok None ∧
  coerce_int (Some "nan") = Ok None ∧
  coerce_int (Some "1e999") = Raise OverflowError.
Proof. by vm_compute. Qed.

End ValidateRow.


(** ** Properties of [process_file] *)

Section IOFacts.

Context `{RT : Runtime}.
Implicit Types (w : World) (st : Store) (path : string).

Lemma bind_ok {A B} (m : IO A) (k : A → IO B) w b w' :
  (m ≫= k) w = (Ok b, w') ↔ ∃ a w1, m w = (Ok a, w1) ∧ k a w1 = (Ok b, w').
Proof.
  unfold mbind, IO_bind. destruct (m w) as [[a|e] w1]; split.
  - eauto.
  - intros (a' & w1' & Heq & Hk). by simplify_eq.
  - done.
  - intros (a' & w1' & Heq & _). by simplify_eq.
Qed.

Lemma bind_raise {A B} (m : IO A) (k : A → IO B) w e w' :
  (m ≫= k) w = (Raise e, w') ↔
  m w = (Raise e, w') ∨ ∃ a w1, m w = (Ok a, w1) ∧ k a w1 = (Raise e, w').
Proof.
  unfold mbind, IO_bind. destruct (m w) as [[a|e'] w1]; split.
  - eauto.
  - intros [Heq | (a' & w1' & Heq & Hk)]; by simplify_eq.
  - intros Heq. simplify_eq. eauto.
  - intros [Heq | (a' & w1' & Heq & _)]; by simplify_eq.
Qed.

Lemma io_rel_bind {A B} (R : relation World) `{!Transitive R}
    (m : IO A) (k : A → IO B) :
  io_rel R m → (∀ a, io_rel R (k a)) → io_rel R (m ≫= k).
Proof.
  intros Hm Hk w r w'. unfold mbind, IO_bind.
  destruct (m w) as [[a|e] w1] eqn:Hmw.
  - intros Hkw. etrans; [by eapply Hm | by eapply Hk].
  - intros [= <- <-]. by eapply Hm.
Qed.

Lemma io_rel_ret {A} (R : relation World) `{!Reflexive R} (a : A) : io_rel R (mret a).
Proof. by intros w r w' [= <- <-]. Qed.

Lemma io_rel_lift {A} (R : relation World) `{!Reflexive R} (r : Res A) : io_rel R (lift r).
Proof. by intros w r' w' [= <- <-]. Qed.

Lemma io_rel_query {A} (R : relation World) `{!Reflexive R} (f : Store → A) :
  io_rel R (query f).
Proof. by intros w r' w' [= <- <-]. Qed.

Lemma io_rel_for_each {A S} (R : relation World) `{!PreOrder R}
    (body : S → A → IO S) (l : list A) :
  (∀ s x, io_rel R (body s x)) → ∀ s, io_rel R (for_each_io body l s).
Proof.
  intros Hbody. induction l as [|x l IH]; intros s.
  - apply io_rel_ret. apply _.
  - apply (io_rel_bind R (body s x) (for_each_io body l)); [apply Hbody|apply IH].
Qed.

#[global] Instance same_outside_preorder : PreOrder same_outside.
Proof.
  split.
  - by intros w.
  - intros w1 w2 w3 (? & ? & ? & ?) (? & ? & ? & ?). unfold same_outside.
    split_and!; congruence.
Qed.

Lemma execute_same_outside f : io_rel same_outside (execute f).
Proof.
  intros w r w'. unfold execute. destruct (f (w_conn w)); by intros [= <- <-].
Qed.

Lemma sha256_file_inv path w r w' :
  sha256_file path w = (r, w') →
  w' = w ∧ r = match w_files w !! path with
               | Some bytes => Ok (sha256_hexdigest bytes)
               | None => Raise FileNotFoundError
               end.
Proof. unfold sha256_file. destruct (w_files w !! path); by intros [= <- <-]. Qed.

Lemma read_xlsx_rows_pure path w r w' : read_xlsx_rows path w = (r, w') → w' = w.
Proof.
  unfold read_xlsx_rows. destruct (w_files w !! path); [|by intros [= <- <-]].
  destruct (load_workbook _) as [[|[|c hr] rows]|e]; by intros [= <- <-].
Qed.

Lemma write_quarantine_same_outside b h rows : io_rel same_outside (write_quarantine b h rows).
Proof. by intros w r w' [= <- <-]. Qed.

Lemma load_row_same_outside k n : io_rel same_outside (load_row k n).
Proof.
  unfold load_row.
  repeat first [ apply io_rel_bind; [apply _| |intros ?] | apply execute_same_outside
               | apply io_rel_ret; apply _ ].
Qed.

Lemma process_file_same_outside path : io_rel same_outside (process_file path).
Proof.
  unfold process_file.
  apply io_rel_bind; [apply _| |intros file_hash].
  { intros w r w' [-> _]%sha256_file_inv. done. }
  apply io_rel_bind; [apply _|by apply io_rel_query|intros [|]].
  { by apply io_rel_ret. }
  apply io_rel_bind; [apply _| |intros [header raw_rows]].
  { intros w r w' ->%read_xlsx_rows_pure. done. }
  destruct (validate_batch raw_rows) as [dups errs].
  apply io_rel_bind; [apply _|by apply io_rel_lift|intros st].
  apply io_rel_bind; [apply _| |intros _].
  { destruct (l_bad_rows st); [by apply io_rel_ret|apply write_quarantine_same_outside]. }
  apply io_rel_bind; [apply _| |intros rows_loaded].
  { apply io_rel_for_each; [apply _|]. apply load_row_same_outside. }
  apply io_rel_bind; [apply _|apply execute_same_outside|intros _].
  by apply io_rel_ret.
Qed.

End IOFacts.
Section ProcessFile.

Context `{RT : Runtime}.
Implicit Types (w : World) (st : Store) (path : string).

(** [process_file], step by step. *)
Lemma process_file_unfold path w :
  process_file path w =
  match w_files w !! path with
  | None => (Raise FileNotFoundError, w)
  | Some bytes =>
      let file_hash := sha256_hexdigest bytes in
      if audit_exists path file_hash (w_conn w) then (Ok SKIPPED, w) else
      match load_workbook bytes with
      | Raise e => (Raise e, w)
      | Ok sheet =>
          let basename := Py.basename path in
          let '(header, raw_rows) := sheet_rows sheet in
          match validate_rows basename raw_rows with
          | Raise e => (Raise e, w)
          | Ok rl =>
              match for_each_io load_row (l_good_norm rl) 0
                      (after_quarantine basename header rl w) with
              | (Raise e, w2) => (Raise e, w2)
              | (Ok rows_loaded, w2) =>
                  (Ok (l_rows_in rl, rows_loaded, l_rows_rejected rl, l_dq_pass rl,
                       l_dq_fail rl, l_good_norm rl),
                   set_conn (set_load_audit
                               (load_audit (w_conn w2) ++
                                  [audit_row path file_hash rl rows_loaded])
                               (w_conn w2)) w2)
              end
          end
      end
  end.
Proof.
  unfold process_file, mbind, IO_bind, sha256_file, query, read_xlsx_rows, validate_rows,
    after_quarantine, sheet_rows, lift, execute, insert_audit, audit_row, SKIPPED.
  destruct (w_files w !! path) as [bytes|] eqn:Hf; [|done]. simpl.
  destruct (audit_exists _ _ _); [done|]. rewrite Hf.
  destruct (load_workbook bytes) as [[|[|c hr] rows]|e]; simpl; try done.
  destruct (validate_batch _) as [dups errs] eqn:Hb. simpl.
  destruct (for_each _ _ _) as [rl|e]; [|done].
  destruct (l_bad_rows rl) eqn:Hbad.
  - simpl. destruct (for_each_io _ _ _ _) as [[k|e] w2]; done.
  - simpl. destruct (for_each_io _ _ _ _) as [[k|e] w2]; done.
Qed.

Lemma audit_exists_audited path file_hash st :
  audit_exists path file_hash st = true ↔ audited path file_hash st.
Proof.
  unfold audit_exists, audited. rewrite existsb_exists. split.
  - intros (a & Hin & [Hf Hh]%andb_true_iff). exists a.
    apply String.eqb_eq in Hf, Hh. by rewrite list_elem_of_In.
  - intros (a & Hin & <- & <-). exists a. rewrite <- list_elem_of_In.
    by rewrite !String.eqb_refl.
Qed.

Lemma process_file_skip path w bytes :
  w_files w !! path = Some bytes →
  audited path (sha256_hexdigest bytes) (w_conn w) →
  process_file path w = (Ok SKIPPED, w).
Proof.
  intros Hf Ha%audit_exists_audited. rewrite process_file_unfold, Hf. simpl. by rewrite Ha.
Qed.

(** A file that has been processed is in the audit log of the connection. *)
Lemma process_file_audits path w r w1 :
  process_file path w = (Ok r, w1) →
  ∃ bytes, w_files w !! path = Some bytes ∧
           audited path (sha256_hexdigest bytes) (w_conn w1).
Proof.
  rewrite process_file_unfold. destruct (w_files w !! path) as [bytes|]; [|done].
  simpl. intros H. exists bytes. split; [done|].
  destruct (audit_exists _ _ _) eqn:Ha.
  { injection H as _ <-. by apply audit_exists_audited. }
  destruct (load_workbook bytes) as [sheet|e]; [|done].
  destruct (sheet_rows sheet) as [header raw_rows].
  destruct (validate_rows _ _) as [rl|e]; [|done].
  destruct (for_each_io _ _ _ _) as [[k|e] w2]; [|done].
  injection H as _ <-. exists (audit_row path (sha256_hexdigest bytes) rl k).
  simpl. split; [|done].
  apply elem_of_app. right. by apply list_elem_of_singleton.
Qed.

(** C1 (amended). A file whose path and content fingerprint are together in
    a row of [load_audit] is skipped: [process_file] returns the all-zero
    statistics and leaves the world as it is, so it writes no business, user
    or review row, no quarantine artifact and no audit row; and once
    [process_file] has returned for a file, a later call for the same path
    with the same bytes, on a connection that sees the same tables, is
    skipped in this way. *)
Theorem process_file_skips_audited_file path w bytes :
  w_files w !! path = Some bytes →
  (audited path (sha256_hexdigest bytes) (w_conn w) →
   process_file path w = (Ok SKIPPED, w)) ∧
  (∀ r w1 w2,
     process_file path w = (Ok r, w1) →
     w_conn w2 = w_conn w1 → w_files w2 !! path = Some bytes →
     process_file path w2 = (Ok SKIPPED, w2)).
Proof.
  intros Hf. split.
  - by apply process_file_skip.
  - intros r w1 w2 (bytes' & Hf' & Ha)%process_file_audits Hconn Hf2.
    apply process_file_skip with bytes; [done|]. rewrite Hconn. congruence.
Qed.

End ProcessFile.

(** The test file is processed, then processed again. *)
Lemma process_file_skips_audited_file_witness :
  let w := scenario_world [("/tmp/sample.xlsx", "placeholder")] in
  let w1 := (@process_file scenario_runtime "/tmp/sample.xlsx" w).2 in
  @process_file scenario_runtime "/tmp/sample.xlsx" w1 = (Ok SKIPPED, w1).
Proof.
  intros w w1.
  refine (proj2 (@process_file_skips_audited_file scenario_runtime "/tmp/sample.xlsx" w
                   "placeholder" _)
            (match (@process_file scenario_runtime "/tmp/sample.xlsx" w).1 with
             | Ok r => r
             | Raise _ => SKIPPED
             end) w1 w1 _ _ _).
  - vm_compute. reflexivity.
  - vm_compute. reflexivity.
  - reflexivity.
  - vm_compute. reflexivity.
Defined.

(** A copy of a processed file under another path has its fingerprint in
    the audit log and is processed all the same. *)
Lemma process_file_same_bytes_other_path :
  let w := scenario_world [("a.xlsx", "placeholder"); ("b.xlsx", "placeholder")] in
  let w1 := (@process_file scenario_runtime "a.xlsx" w).2 in
  w_files w1 !! "b.xlsx" = Some "placeholder" ∧
  (∃ a, a ∈ load_audit (w_conn w1) ∧
        la_sha256 a = @sha256_hexdigest scenario_runtime "placeholder") ∧
  (@process_file scenario_runtime "b.xlsx" w1).1 ≠ Ok SKIPPED ∧
  length (load_audit (w_conn (@process_file scenario_runtime "b.xlsx" w1).2)) = 2%nat.
Proof.
  split_and!.
  - vm_compute. reflexivity.
  - exists (mk_audit "a.xlsx" "sha256:placeholder" 2 1 1 1 1). split.
    + vm_compute. constructor.
    + reflexivity.
  - intros H. vm_compute in H. discriminate H.
  - vm_compute. reflexivity.
Qed.
(** ** Transactions: what a failed run leaves behind *)

Lemma good_file_is_processed :
  let w := scenario_world [("a.xlsx", "placeholder"); ("b.xlsx", "corrupt")] in
  @process_file scenario_runtime "a.xlsx" w =
  (Ok (match (@process_file scenario_runtime "a.xlsx" w).1 with
       | Ok r => r
       | Raise _ => SKIPPED
       end),
   (@process_file scenario_runtime "a.xlsx" w).2).
Proof. vm_compute. reflexivity. Qed.

Section Transactions.

Context `{RT : Runtime}.
Implicit Types (w : World) (st : Store) (path : string) (n : normalized).

#[global] Instance same_audit_preorder : PreOrder same_audit.
Proof.
  split.
  - by intros w.
  - intros w1 w2 w3 H1 H2. unfold same_audit in *. congruence.
Qed.

Lemma upsert_business_audit n st st' :
  upsert_business n st = Ok st' → load_audit st' = load_audit st.
Proof.
  unfold upsert_business. destruct (n_business_name n); [|done].
  destruct (n_business_id n); [destruct (business st !! _)|]; by intros [= <-].
Qed.

Lemma upsert_user_audit n st st' :
  upsert_user n st = Ok st' → load_audit st' = load_audit st.
Proof.
  unfold upsert_user.
  destruct (n_user_id n); [destruct (user st !! _)|]; by intros [= <-].
Qed.

Lemma upsert_review_audit n st st' :
  upsert_review n st = Ok st' → load_audit st' = load_audit st.
Proof.
  unfold upsert_review.
  destruct (n_user_id n), (n_business_id n), (n_review_date n), (n_review_rating n);
    try done.
  destruct (n_review_id n); [destruct (review st !! _)|];
    try destruct (foreign_keys_ok _ _); by intros [= <-].
Qed.

Lemma execute_same_audit f :
  (∀ st st', f st = Ok st' → load_audit st' = load_audit st) →
  io_rel same_audit (execute f).
Proof.
  intros Hf w r w'. unfold execute. destruct (f (w_conn w)) eqn:Hfw; intros [= <- <-].
  - by apply Hf.
  - done.
Qed.

Lemma load_row_same_audit k n : io_rel same_audit (load_row k n).
Proof.
  unfold load_row.
  apply io_rel_bind; [apply _| |intros _].
  { apply execute_same_audit, upsert_business_audit. }
  apply io_rel_bind; [apply _| |intros _].
  { apply execute_same_audit, upsert_user_audit. }
  apply io_rel_bind; [apply _| |intros _].
  { apply execute_same_audit, upsert_review_audit. }
  apply io_rel_ret. apply _.
Qed.

Lemma after_quarantine_conn b header rl w :
  w_conn (after_quarantine b header rl w) = w_conn w.
Proof. unfold after_quarantine. by destruct (l_bad_rows rl). Qed.

(** A call that raises has not written its audit row. *)
Lemma process_file_raise_same_audit path w e w' :
  process_file path w = (Raise e, w') → same_audit w w'.
Proof.
  rewrite process_file_unfold. destruct (w_files w !! path) as [bytes|];
    [|by intros [= _ <-]].
  simpl. destruct (audit_exists _ _ _); [done|].
  destruct (load_workbook bytes) as [sheet|e']; [|by intros [= _ <-]].
  destruct (sheet_rows sheet) as [header raw_rows].
  destruct (validate_rows _ _) as [rl|e']; [|by intros [= _ <-]].
  destruct (for_each_io _ _ _ _) as [[k|e'] w2] eqn:Hload; [done|].
  intros [= _ <-].
  pose proof (io_rel_for_each same_audit load_row (l_good_norm rl) load_row_same_audit
                _ _ _ _ Hload) as Hsame.
  unfold same_audit in *. by rewrite Hsame, after_quarantine_conn.
Qed.

(** A body that raises inside [with connect()] commits nothing. *)
Lemma connect_raise {A} (body : IO A) w e w' :
  io_rel same_outside body →
  connect body w = (Raise e, w') → w_db w' = w_db w ∧ w_conn w' = w_db w.
Proof.
  intros Hbody. unfold connect.
  destruct (body _) as [[a|e'] w1] eqn:Hrun; [done|]. intros [= _ <-].
  destruct (Hbody _ _ _ Hrun) as (Hdb & _). simpl in *. by rewrite Hdb.
Qed.

Lemma run_step_same_outside acc path : io_rel same_outside (run_step acc path).
Proof.
  unfold run_step. destruct acc as [[[[[a0 a1] a2] a3] a4] stage_rows].
  apply io_rel_bind; [apply _|apply process_file_same_outside|].
  intros [[[[[r_in r_loaded] r_rej] r_pass] r_fail] good_norm].
  apply io_rel_ret. apply _.
Qed.

Lemma build_stage_and_load_raise patterns stage_path w e w' :
  build_stage_and_load patterns stage_path w = (Raise e, w') → w_db w' = w_db w.
Proof.
  unfold build_stage_and_load.
  intros [H | (files & w1 & Hd & H)]%bind_raise; [done|].
  injection Hd as _ <-.
  apply bind_raise in H as [H | ([] & w2 & Hi & H)]; [done|].
  assert (Hdb2 : w_db w2 = w_db w ∧ w_conn w2 = w_db w).
  { unfold init_db, connect in Hi. simpl in Hi. injection Hi as <-. done. }
  destruct Hdb2 as [Hdb2 _]. rewrite <- Hdb2.
  apply bind_raise in H as [H | (acc & w3 & _ & H)].
  - eapply connect_raise; [|exact H].
    apply io_rel_for_each; [apply _|]. apply run_step_same_outside.
  - destruct acc as [[[[[a0 a1] a2] a3] a4] stage_rows].
    apply bind_raise in H as [H | ([written used] & w4 & _ & H)]; [|by inversion H].
    destruct stage_rows; [by inversion H|].
    apply bind_raise in H as [H | (? & ? & _ & H)]; by inversion H.
Qed.

(** C4 (amended). A call of [process_file] that raises has inserted no
    audit row and committed nothing; [with connect()] commits only when its
    body returns, so a file whose processing raises leaves the committed
    database as it was; and [build_stage_and_load] runs all the files of a
    run in one such block: when a file fails, the committed database is the
    one from before the run, without the rows and the fingerprints of the
    files that the run had completed. *)
Theorem failed_run_commits_nothing :
  (∀ path w e w', process_file path w = (Raise e, w') →
                  same_audit w w' ∧ w_db w' = w_db w) ∧
  (∀ path w e w', connect (process_file path) w = (Raise e, w') → w_db w' = w_db w) ∧
  (∀ patterns stage_path w e w',
     build_stage_and_load patterns stage_path w = (Raise e, w') → w_db w' = w_db w).
Proof.
  split_and!.
  - intros path w e w' H. split; [by eapply process_file_raise_same_audit|].
    by destruct (process_file_same_outside _ _ _ _ H).
  - intros path w e w' H.
    by destruct (connect_raise _ _ _ _ (process_file_same_outside path) H).
  - apply build_stage_and_load_raise.
Qed.

End Transactions.

(** A run over a good file and a corrupt one. *)
Lemma failed_run_commits_nothing_witness :
  let w := scenario_world [("a.xlsx", "placeholder"); ("b.xlsx", "corrupt")] in
  w_db (@build_stage_and_load scenario_runtime ["*.xlsx"] "data/stage/reviews.parquet" w).2
  = w_db w.
Proof.
  intros w.
  refine (proj2 (proj2 (@failed_run_commits_nothing scenario_runtime))
            ["*.xlsx"] "data/stage/reviews.parquet" w InvalidFileException _ _).
  vm_compute. reflexivity.
Defined.

(** The run processes the good file [a.xlsx], then fails on [b.xlsx]; the
    fingerprint of [a.xlsx] is not in the committed audit log, and a retry
    processes [a.xlsx] again. *)
Lemma completed_file_lost_when_later_file_fails :
  let w := scenario_world [("a.xlsx", "placeholder"); ("b.xlsx", "corrupt")] in
  let run := @build_stage_and_load scenario_runtime ["*.xlsx"] "data/stage/reviews.parquet" w in
  (@discover_files scenario_runtime ["*.xlsx"] w).1 = Ok ["a.xlsx"; "b.xlsx"] ∧
  (∃ r w1, @process_file scenario_runtime "a.xlsx" w = (Ok r, w1)) ∧
  run.1 = Raise InvalidFileException ∧
  ¬ audited "a.xlsx" (@sha256_hexdigest scenario_runtime "placeholder") (w_db run.2) ∧
  (connect (@process_file scenario_runtime "a.xlsx") run.2).1 ≠ Ok SKIPPED.
Proof.
  split_and!.
  - vm_compute. reflexivity.
  - eexists _, _. apply good_file_is_processed.
  - vm_compute. reflexivity.
  - intros H%audit_exists_audited. vm_compute in H. discriminate H.
  - intros H. vm_compute in H. discriminate H.
Qed.

(** ** A valid row that cannot be loaded *)

Section Loading.

Context `{RT : Runtime}.
Implicit Types (w : World) (st : Store) (path : string) (n : normalized) (raw : raw_row).

Lemma row_step_good_norm b dups rl ir rl' :
  row_step b dups rl ir = Ok rl' → ∃ l, l_good_norm rl' = l_good_norm rl ++ l.
Proof.
  unfold row_step. destruct ir as [idx raw].
  destruct (validate_row raw) as [[[ok errs] n]|e]; [|done]. simpl.
  destruct (_ && _); intros [= <-]; simpl.
  - eauto.
  - exists []. by rewrite app_nil_r.
Qed.

Lemma for_each_row_step_good_norm b dups irs : ∀ rl rl',
  for_each (row_step b dups) irs rl = Ok rl' → ∃ l, l_good_norm rl' = l_good_norm rl ++ l.
Proof.
  induction irs as [|ir irs IH]; intros rl rl'; simpl.
  - intros [= <-]. exists []. by rewrite app_nil_r.
  - destruct (row_step b dups rl ir) as [rl1|e] eqn:Hstep; [|done]. simpl.
    intros (l2 & ->)%IH. apply row_step_good_norm in Hstep as (l1 & ->).
    exists (l1 ++ l2). by rewrite app_assoc.
Qed.

Lemma first_row_not_duplicate (rows : list raw_row) : 0%nat ∉ (validate_batch rows).1.
Proof.
  destruct (validate_batch_refines rows) as [-> _].
  intros (rid & j & _ & Hj & _)%elem_of_duplicate_positions. lia.
Qed.

(** The first row, when it is accepted, is the first good row. *)
Lemma validate_rows_first b raw raw_rows errs n0 rl :
  validate_row raw = Ok (true, errs, n0) →
  validate_rows b (raw :: raw_rows) = Ok rl →
  ∃ rest, l_good_norm rl = with_lineage b 2 n0 :: rest.
Proof.
  intros Hv. unfold validate_rows. simpl.
  pose proof (validate_row_accepts _ _ _ Hv) as (-> & _).
  rewrite Hv. simpl.
  assert (Hd : bool_decide (0%nat ∈ (validate_batch (raw :: raw_rows)).1) = false)
    by apply bool_decide_eq_false_2, first_row_not_duplicate.
  rewrite Hd. simpl.
  intros (l & ->)%for_each_row_step_good_norm. simpl. eauto.
Qed.

Lemma upsert_business_no_name n st :
  n_business_name n = None → upsert_business n st = Raise NAME_NOT_NULL.
Proof. unfold upsert_business. by intros ->. Qed.

(** C10 (amended). There is a raw row that [validate_row] accepts and that
    has no Business Name; for every accepted row without a Business Name,
    [upsert_business] fails the NOT NULL constraint of [business_name],
    whether the business is stored or not; and when the first data row of a
    file not yet audited is such a row, [process_file] raises that error
    with the tables of the connection untouched: the row is neither loaded
    nor counted, and no audit row is written. *)
Theorem accepted_row_without_business_name_is_not_loadable :
  (∃ n, validate_row row_without_business_name = Ok (true, [], n) ∧
        row_without_business_name !! "Business Name" = None) ∧
  (∀ raw errs n b k st,
     validate_row raw = Ok (true, errs, n) → raw !! "Business Name" = None →
     upsert_business (with_lineage b k n) st = Raise NAME_NOT_NULL) ∧
  (∀ path w bytes header_row row rows errs n rl,
     w_files w !! path = Some bytes →
     ¬ audited path (sha256_hexdigest bytes) (w_conn w) →
     load_workbook bytes = Ok (header_row :: row :: rows) → header_row ≠ [] →
     let header := header_name <$> header_row in
     validate_row (read_row header row) = Ok (true, errs, n) →
     read_row header row !! "Business Name" = None →
     validate_rows (Py.basename path) (read_row header <$> row :: rows) = Ok rl →
     ∃ w', process_file path w = (Raise NAME_NOT_NULL, w') ∧
           w_conn w' = w_conn w ∧ w_db w' = w_db w).
Proof.
  split_and!.
  - eexists. split; by vm_compute.
  - intros raw errs n b k st Hv Hnone. apply upsert_business_no_name. simpl.
    apply validate_row_accepts in Hv as (_ & _ & _ & _ & _ & _ & _ & ->).
    by rewrite Hnone.
  - intros path w bytes header_row row rows errs n rl Hf Hna Hload Hne header Hv Hnone Hrl.
    rewrite process_file_unfold, Hf. simpl.
    destruct (audit_exists _ _ _) eqn:Ha; [by apply audit_exists_audited in Ha|].
    rewrite Hload. unfold sheet_rows. destruct header_row as [|c hr]; [done|].
    fold header. rewrite Hrl.
    destruct (validate_rows_first _ _ _ _ _ _ Hv Hrl) as (rest & ->).
    simpl. unfold mbind at 1, IO_bind, load_row, mbind at 1, IO_bind, execute.
    rewrite after_quarantine_conn, upsert_business_no_name.
    + eexists. split; [done|]. split; [apply after_quarantine_conn|].
      unfold after_quarantine. by destruct (l_bad_rows rl).
    + simpl. apply validate_row_accepts in Hv as (_ & _ & _ & _ & _ & _ & _ & ->).
      by rewrite Hnone.
Qed.

End Loading.

(** A file of one valid row, in a sheet without the column Business Name. *)
Lemma accepted_row_without_business_name_is_not_loadable_witness :
  let w := scenario_world [("a.xlsx", "no business name")] in
  ∃ w', @process_file scenario_runtime "a.xlsx" w = (Raise NAME_NOT_NULL, w') ∧
        w_conn w' = w_conn w ∧ w_db w' = w_db w.
Proof.
  intros w.
  refine (proj2 (proj2 (@accepted_row_without_business_name_is_not_loadable scenario_runtime))
            "a.xlsx" w "no business name"
            (CStr <$> ["Review Id"; "Reviewer Id"; "Business Id"; "Review Rating"; "Review Date"])
            (CStr <$> ["r-1"; "u-1"; "b-1"; "5"; "2024-01-01"]) [] []
            (mk_normalized (Some "u-1") None None None (Some "b-1") None (Some "r-1")
               (Some "2024-01-01T00:00:00Z") (Some 5) None None None None None)
            (mk_row_loop 1 0 1 0 []
               [mk_normalized (Some "u-1") None None None (Some "b-1") None (Some "r-1")
                  (Some "2024-01-01T00:00:00Z") (Some 5) None None None
                  (Some "a.xlsx") (Some 2)])
            _ _ _ _ _ _ _).
  - reflexivity.
  - intros H%audit_exists_audited. vm_compute in H. discriminate H.
  - reflexivity.
  - discriminate.
  - vm_compute. reflexivity.
  - vm_compute. reflexivity.
  - vm_compute. reflexivity.
Defined.

(** A row whose Business Name is there and empty is accepted and loaded:
    the empty string is not [NULL]. *)
Lemma empty_business_name_is_loaded :
  let w := scenario_world [("a.xlsx", "empty business name")] in
  ∃ n, validate_row row_with_empty_business_name = Ok (true, [], n) ∧
       row_with_empty_business_name !! "Business Name" = Some "" ∧
       (business <$> upsert_business (with_lineage "a.xlsx" 2 n) empty_store) =
         Ok {[ "b-1" := mk_business "" (Some "2024-01-01T00:00:00Z")
                          (Some "2024-01-01T00:00:00Z") 1 ]} ∧
       (@process_file scenario_runtime "a.xlsx" w).1 = Ok (1, 1, 0, 1, 0, [with_lineage "a.xlsx" 2 n]).
Proof. eexists. split_and!; by vm_compute. Qed.
(** ** The two-row scenario *)

Section TwoRows.

Context `{RT : Runtime}.
Implicit Types (w : World) (st : Store) (path : string) (n : normalized) (raw : raw_row).

Lemma upsert_business_named n st bid name :
  n_business_id n = Some bid → n_business_name n = Some name →
  ∃ st', upsert_business n st = Ok st' ∧
         is_Some (business st' !! bid) ∧
         user st' = user st ∧ review st' = review st ∧ review_null st' = review_null st ∧
         load_audit st' = load_audit st.
Proof.
  intros Hb Hn. unfold upsert_business. rewrite Hn, Hb.
  destruct (business st !! bid); eexists; (split; [done|]); simpl;
    rewrite lookup_insert_eq; eauto.
Qed.

Lemma upsert_user_keyed n st uid :
  n_user_id n = Some uid →
  ∃ st', upsert_user n st = Ok st' ∧
         is_Some (user st' !! uid) ∧
         business st' = business st ∧ review st' = review st ∧
         review_null st' = review_null st ∧ load_audit st' = load_audit st.
Proof.
  intros Hu. unfold upsert_user. rewrite Hu.
  destruct (user st !! uid); eexists; (split; [done|]); simpl;
    rewrite lookup_insert_eq; eauto.
Qed.

Lemma upsert_review_keyed n st uid bid rid d z :
  n_user_id n = Some uid → n_business_id n = Some bid → n_review_id n = Some rid →
  n_review_date n = Some d → n_review_rating n = Some z →
  is_Some (business st !! bid) → is_Some (user st !! uid) →
  ∃ st' rev, upsert_review n st = Ok st' ∧
             review st' = <[rid := rev]> (review st) ∧
             r_source_file rev = n_source_file n ∧ r_source_row rev = n_source_row n ∧
             review_null st' = review_null st ∧ load_audit st' = load_audit st.
Proof.
  intros Hu Hb Hr Hd Hz HB HU. unfold upsert_review. rewrite Hu, Hb, Hr, Hd, Hz.
  destruct (review st !! rid).
  - eexists _, _. split; [done|]. done.
  - unfold foreign_keys_ok. simpl.
    rewrite !bool_decide_eq_true_2 by done. simpl.
    eexists _, _. split; [done|]. done.
Qed.

(** A row with its keys, a name, a date and a rating is loaded. *)
Lemma load_row_valid n w k uid bid rid name d z :
  n_user_id n = Some uid → n_business_id n = Some bid → n_review_id n = Some rid →
  n_business_name n = Some name → n_review_date n = Some d → n_review_rating n = Some z →
  ∃ st' rev, load_row k n w = (Ok (k + 1), set_conn st' w) ∧
             review st' = <[rid := rev]> (review (w_conn w)) ∧
             r_source_file rev = n_source_file n ∧ r_source_row rev = n_source_row n ∧
             review_null st' = review_null (w_conn w) ∧
             load_audit st' = load_audit (w_conn w).
Proof.
  intros Hu Hb Hr Hn Hd Hz.
  destruct (upsert_business_named n (w_conn w) bid name Hb Hn)
    as (st1 & H1 & HB & Hu1 & Hr1 & Hrn1 & Ha1).
  destruct (upsert_user_keyed n st1 uid Hu) as (st2 & H2 & HU & Hb2 & Hr2 & Hrn2 & Ha2).
  rewrite <- Hb2 in HB.
  destruct (upsert_review_keyed n st2 uid bid rid d z Hu Hb Hr Hd Hz HB HU)
    as (st3 & rev & H3 & Hrev & Hsf & Hsr & Hrn3 & Ha3).
  exists st3, rev. split.
  - unfold load_row, mbind, IO_bind, execute. rewrite H1. simpl. rewrite H2. simpl.
    rewrite H3. done.
  - rewrite Hrev, Hr2, Hr1. split_and!; congruence.
Qed.

Lemma second_row_duplicate raw1 raw2 rid :
  review_key raw1 = Some rid → review_key raw2 = Some rid →
  1%nat ∈ (validate_batch [raw1; raw2]).1.
Proof.
  intros H1 H2. destruct (validate_batch_refines [raw1; raw2]) as [-> _].
  apply elem_of_duplicate_positions. exists rid, 0%nat. unfold key_at. simpl.
  split_and!; (done || lia).
Qed.

(** The loop over the two rows: one good row, one bad row. *)
Lemma validate_rows_two b raw1 raw2 errs1 n1 ok2 errs2 n2 :
  validate_row raw1 = Ok (true, errs1, n1) →
  validate_row raw2 = Ok (ok2, errs2, n2) →
  review_key raw2 = review_key raw1 →
  validate_rows b [raw1; raw2] =
  Ok (mk_row_loop 2 1 1 1 [(3, raw2, errs2 ++ [DUPLICATE_MSG])] [with_lineage b 2 n1]).
Proof.
  intros Hv1 Hv2 Hkey.
  pose proof (validate_row_accepts _ _ _ Hv1) as (-> & _ & _ & (rid & _ & Hk1) & _).
  rewrite Hk1 in Hkey.
  unfold validate_rows. simpl. rewrite Hv1. simpl.
  assert (Hd0 : bool_decide (0%nat ∈ (validate_batch [raw1; raw2]).1) = false)
    by apply bool_decide_eq_false_2, first_row_not_duplicate.
  assert (Hd1 : bool_decide (1%nat ∈ (validate_batch [raw1; raw2]).1) = true)
    by (apply bool_decide_eq_true_2; by eapply second_row_duplicate).
  rewrite Hd0. simpl. rewrite Hv2. simpl. rewrite Hd1.
  assert (Hne : bool_decide (errs2 ++ [DUPLICATE_MSG] = []) = false).
  { apply bool_decide_eq_false_2. by destruct errs2. }
  rewrite Hne, andb_false_r. done.
Qed.

(** C8 (amended). For a file not yet audited with two data rows, where
    row 1 is accepted by [validate_row] and has a Business Name, and row 2
    has the review identifier of row 1, an invalid e-mail address and an
    invalid IP address: [process_file] returns rows_in = 2, rows_loaded = 1,
    rows_rejected = 1, dq_pass = 1, dq_fail = 1 and the one good row; it
    writes one review row, under the identifier of row 1, tagged with the
    base name of the file and the row number 2; it writes one quarantine
    artifact, with the header and one record, whose last column joins the
    errors of [validate_row] for row 2, among them the e-mail and the IP
    error, and the duplicate message; and it appends one audit row. *)
Theorem two_row_file_loads_one_and_quarantines_one
    path w bytes header_row row1 row2 errs1 n1 name ok2 errs2 n2 e i :
  w_files w !! path = Some bytes →
  ¬ audited path (sha256_hexdigest bytes) (w_conn w) →
  load_workbook bytes = Ok [header_row; row1; row2] → header_row ≠ [] →
  let header := header_name <$> header_row in
  let raw1 := read_row header row1 in
  let raw2 := read_row header row2 in
  let basename := Py.basename path in
  validate_row raw1 = Ok (true, errs1, n1) →
  n_business_name n1 = Some name →
  validate_row raw2 = Ok (ok2, errs2, n2) →
  review_key raw2 = review_key raw1 →
  email_invalid raw2 e → ip_invalid raw2 i →
  ∃ w' rid rev reasons,
    process_file path w = (Ok (2, 1, 1, 1, 1, [with_lineage basename 2 n1]), w') ∧
    n_review_id n1 = Some rid ∧
    review (w_conn w') = <[rid := rev]> (review (w_conn w)) ∧
    review_null (w_conn w') = review_null (w_conn w) ∧
    r_source_file rev = Some basename ∧ r_source_row rev = Some 2 ∧
    w_quarantine w' =
      <[quarantine_path basename (w_utcnow w) :=
          [header ++ ["__reason__"];
           ((λ col, default "" (raw2 !! col)) <$> header) ++ [Py.join "; " reasons]]]>
        (w_quarantine w) ∧
    reasons = errs2 ++ [DUPLICATE_MSG] ∧
    "Email Address invalid: " +:+ Py.repr e ∈ reasons ∧
    "Review IP Address invalid: " +:+ Py.repr i ∈ reasons ∧
    DUPLICATE_MSG ∈ reasons ∧
    load_audit (w_conn w') =
      load_audit (w_conn w) ++ [mk_audit path (sha256_hexdigest bytes) 2 1 1 1 1].
Proof.
  intros Hf Hna Hload Hne header raw1 raw2 basename Hv1 Hname Hv2 Hkey Hemail Hip.
  pose proof (validate_rows_two basename _ _ _ _ _ _ _ Hv1 Hv2 Hkey) as Hrows.
  pose proof (validate_row_accepts _ _ _ Hv1)
    as (_ & (uid & Hu & _) & (bid & Hb & _) & (rid & Hr & _) & (d & Hd) & (z & Hz & _) & _).
  pose proof (validate_row_ok _ _ _ _ Hv2) as (_ & _ & _ & _ & _ & _ & _ & _ & _ & _ & _ & _ &
    _ & _ & _ & _ & _ & _ & _ & He & Hi).
  rewrite process_file_unfold, Hf. simpl.
  destruct (audit_exists _ _ _) eqn:Ha; [by apply audit_exists_audited in Ha|].
  rewrite Hload. unfold sheet_rows. destruct header_row as [|c hr]; [done|].
  fold header. simpl fmap. fold raw1 raw2 basename. rewrite Hrows.
  set (w1 := after_quarantine basename header _ w).
  destruct (load_row_valid (with_lineage basename 2 n1) w1 0 uid bid rid name d z)
    as (st' & rev & Hrun & Hrev & Hsf & Hsr & Hrn & Hau); try done.
  simpl. unfold mbind at 1, IO_bind. rewrite Hrun. simpl.
  eexists _, rid, rev, (errs2 ++ [DUPLICATE_MSG]). split; [done|].
  simpl. rewrite Hrev, Hsf, Hsr, Hrn, Hau. unfold w1, after_quarantine. simpl.
  split_and!; try done.
  - apply elem_of_app. left. by apply He.
  - apply elem_of_app. left. by apply Hi.
  - apply elem_of_app. right. by apply list_elem_of_singleton.
Qed.

End TwoRows.


(** The file of the test. *)
Lemma two_row_file_loads_one_and_quarantines_one_witness :
  let w := scenario_world [("/tmp/sample.xlsx", "placeholder")] in
  ∃ w' good,
    @process_file scenario_runtime "/tmp/sample.xlsx" w = (Ok (2, 1, 1, 1, 1, [good]), w') ∧
    n_source_file good = Some "sample.xlsx" ∧ n_source_row good = Some 2.
Proof.
  intros w.
  set (header := @header_name scenario_runtime <$> (CStr <$> scenario_header)).
  set (row1 := CStr <$> ["r-1"; "u-1"; "b-1"; "5"; "2024-01-01T12:00:00Z"; "Great";
                         "Loved it"; "user@example.com"; "1.2.3.4"; "Alice"; "GB";
                         "Widgets Inc"]).
  set (row2 := [CStr "r-1"; CStr "u-2"; CStr "b-1"; CStr "4"; CStr "2024-01-02"; CNone;
                CNone; CStr "bad-email"; CStr "not-an-ip"]).
  destruct (@two_row_file_loads_one_and_quarantines_one scenario_runtime
              "/tmp/sample.xlsx" w "placeholder" (CStr <$> scenario_header) row1 row2
              [] (normalized_of (@read_row scenario_runtime header row1)) "Widgets Inc"
              false (errors_of (@read_row scenario_runtime header row2))
              (normalized_of (@read_row scenario_runtime header row2))
              "bad-email" "not-an-ip")
    as (w' & rid & rev & reasons & Hrun & _).
  - reflexivity.
  - intros H%audit_exists_audited. vm_compute in H. discriminate H.
  - reflexivity.
  - discriminate.
  - vm_compute. reflexivity.
  - vm_compute. reflexivity.
  - vm_compute. reflexivity.
  - vm_compute. reflexivity.
  - split_and!; vm_compute; reflexivity.
  - split_and!; vm_compute; reflexivity.
  - eexists w', _. split; [exact Hrun|]. split; reflexivity.
Defined.

(** The same two rows in a sheet without the column Business Name: row 1
    is accepted, row 2 is the duplicate with the bad addresses, and the call
    raises. *)
Lemma two_row_file_without_business_name_raises :
  let w := scenario_world [("a.xlsx", "two rows, no business name")] in
  let rows := (@sheet_rows scenario_runtime two_rows_no_business_name_sheet).2 in
  ∃ raw1 raw2 n1,
    rows = [raw1; raw2] ∧
    validate_row raw1 = Ok (true, [], n1) ∧
    review_key raw2 = review_key raw1 ∧
    email_invalid raw2 "bad-email" ∧ ip_invalid raw2 "not-an-ip" ∧
    ¬ audited "a.xlsx" (@sha256_hexdigest scenario_runtime "two rows, no business name")
        (w_conn w) ∧
    (@process_file scenario_runtime "a.xlsx" w).1 = Raise NAME_NOT_NULL.
Proof.
  eexists _, _, _. split; [reflexivity|]. split_and!.
  - vm_compute. reflexivity.
  - vm_compute. reflexivity.
  - split_and!; vm_compute; reflexivity.
  - split_and!; vm_compute; reflexivity.
  - intros H%audit_exists_audited. vm_compute in H. discriminate H.
  - vm_compute. reflexivity.
Qed.
(** ** The private projection *)

Section Redaction.

Context `{RT : Runtime}.
Implicit Types (w : World) (st : Store) (path : string) (n : normalized) (raw : raw_row).

Lemma lstrip_first s c t : Py.lstrip s = String c t → Py.isspace c = false.
Proof.
  induction s as [|d s IH]; [done|]. simpl.
  destruct (Py.isspace d) eqn:Hd; [done|]. by intros [= <- _].
Qed.

Lemma rstrip_first c t : Py.isspace c = false → ∃ t', Py.rstrip (String c t) = String c t'.
Proof. intros Hc. simpl. rewrite Hc. destruct (Py.rstrip t); eauto. Qed.

Lemma rstrip_idemp s : Py.rstrip (Py.rstrip s) = Py.rstrip s.
Proof.
  induction s as [|c s IH]; [done|]. simpl.
  destruct (Py.rstrip s) as [|d r] eqn:Hr.
  - destruct (Py.isspace c) eqn:Hc; [done|]. simpl. by rewrite Hc.
  - simpl. simpl in IH. destruct (Py.rstrip r) as [|d' r'] eqn:Hr'.
    + destruct (Py.isspace d); [done|]. by rewrite IH.
    + by rewrite IH.
Qed.

Lemma strip_idemp s : Py.strip (Py.strip s) = Py.strip s.
Proof.
  unfold Py.strip. destruct (Py.lstrip s) as [|c t] eqn:Hl; [done|].
  pose proof (lstrip_first _ _ _ Hl) as Hc.
  destruct (rstrip_first c t Hc) as (t' & Ht). rewrite Ht.
  simpl Py.lstrip. rewrite Hc. rewrite <- Ht. apply rstrip_idemp.
Qed.

Lemma redact_name_trimmed (o : option string) :
  redact_name (trim o) = None ∧ (trim o = None ∨ trim o = Some "") ∨
  ∃ s, trim o = Some s ∧ Py.truthy s = true ∧
       redact_name (trim o) = Some (Py.first_char s +:+ "***") ∧ Py.strip s = s.
Proof.
  destruct o as [s0|]; simpl; [|by left; eauto].
  destruct (Py.strip s0) as [|c t] eqn:Hs; [by left; eauto|].
  right. exists (String c t). rewrite <- Hs, strip_idemp, Hs. done.
Qed.

Lemma redact_name_masked (o : option string) : masked_or_absent (redact_name o).
Proof.
  destruct o as [s|]; [|by left]. unfold redact_name.
  destruct (Py.truthy s); [|by left].
  destruct (Py.truthy (Py.strip s)) eqn:Ht; [|by left].
  right. eauto.
Qed.

Lemma accepted_row_fields n :
  accepted_row n →
  n_email_address n ≠ Some "" ∧ ∃ o, n_user_name n = trim o.
Proof.
  intros (raw & errs & n0 & b & k & Hv & ->). simpl.
  pose proof (validate_row_accepts _ _ _ Hv) as (_ & _ & _ & _ & _ & _ & He & _).
  split; [done|].
  apply validate_row_ok in Hv as (_ & _ & _ & _ & _ & _ & _ & _ & _ & Hn & _). eauto.
Qed.

Lemma excluded_user_ok n :
  accepted_row n →
  user_row_ok (mk_user (n_email_address n) (email_hash_value (n_email_address n))
                 (n_user_name n) (redact_name (n_user_name n))
                 (n_reviewer_country n) (n_review_date n) 1).
Proof. intros _. split_and!; simpl; [done|done|apply redact_name_masked]. Qed.

Lemma user_on_conflict_ok n old :
  accepted_row n → user_row_ok old →
  user_row_ok (user_on_conflict
                 (mk_user (n_email_address n) (email_hash_value (n_email_address n))
                    (n_user_name n) (redact_name (n_user_name n))
                    (n_reviewer_country n) (n_review_date n) 1) old).
Proof.
  intros (He & o & Hn)%accepted_row_fields (Hh & Hr & Hm).
  unfold user_row_ok, user_on_conflict. simpl. split_and!.
  - destruct (n_email_address n) as [[|c e]|]; simpl; done.
  - rewrite Hn. destruct (redact_name_trimmed o) as [[Hnone Hcase] | (s & Hs & Ht & Hred & _)].
    + rewrite Hnone. destruct Hcase as [-> | ->]; simpl; [done|]. by intros [].
    + rewrite Hs in *. rewrite Hred. done.
  - rewrite Hn. destruct (redact_name (trim o)) eqn:Hred; simpl; [|done].
    rewrite <- Hred. apply redact_name_masked.
Qed.

Lemma upsert_business_inv n st st' :
  upsert_business n st = Ok st' → redaction_inv st → redaction_inv st'.
Proof.
  unfold upsert_business. destruct (n_business_name n); [|done].
  destruct (n_business_id n); [destruct (business st !! _)|]; by intros [= <-].
Qed.

Lemma upsert_user_inv n st st' :
  accepted_row n → upsert_user n st = Ok st' → redaction_inv st → redaction_inv st'.
Proof.
  intros Hacc. unfold upsert_user.
  destruct (n_user_id n) as [uid|]; [|by intros [= <-]].
  destruct (user st !! uid) as [old|] eqn:Hold; intros [= <-] (Hu & Hr & Hn);
    (split; [|done]); simpl; intros uid' u'; rewrite lookup_insert;
    case_decide; try apply Hu; intros [= <-].
  - apply user_on_conflict_ok; [done|]. by eapply Hu.
  - by apply excluded_user_ok.
Qed.

Lemma upsert_review_inv n st st' :
  upsert_review n st = Ok st' → redaction_inv st → redaction_inv st'.
Proof.
  unfold upsert_review.
  destruct (n_user_id n), (n_business_id n), (n_review_date n), (n_review_rating n);
    try done.
  destruct (n_review_id n) as [rid|].
  - destruct (review st !! rid) as [old|] eqn:Hold;
      [|destruct (foreign_keys_ok _ _); [|done]];
      intros [= <-] (Hu & Hr & Hn); (split; [done|]); (split; [|done]); simpl;
      intros rid' r'; rewrite lookup_insert; case_decide; try apply Hr; by intros [= <-].
  - destruct (foreign_keys_ok _ _); [|done].
    intros [= <-] (Hu & Hr & Hn). split; [done|]. split; [done|]. simpl.
    apply Forall_app. split; [done|]. by repeat constructor.
Qed.

(** Every reachable store keeps its derived columns in step with the raw
    ones. *)
Lemma reachable_redaction_inv st : reachable st → redaction_inv st.
Proof.
  induction 1 as [|st n st' _ IH _ Hstep|st n st' _ IH Hacc Hstep|st n st' _ IH _ Hstep
                  |st a st' _ IH Hstep].
  - split_and!; simpl; [intros k x Hl; by rewrite lookup_empty in Hl..|constructor].
  - by eapply upsert_business_inv.
  - by eapply upsert_user_inv.
  - by eapply upsert_review_inv.
  - by injection Hstep as <-.
Qed.

Lemma elem_of_review_rows st key r :
  (key, r) ∈ review_rows st ↔
  (∃ rid, key = Some rid ∧ review st !! rid = Some r) ∨ (key = None ∧ r ∈ review_null st).
Proof.
  unfold review_rows. rewrite elem_of_app, !list_elem_of_fmap. split.
  - intros [([rid r'] & [= -> ->] & Hin%elem_of_map_to_list) | (r' & [= -> ->] & Hin)]; eauto.
  - intros [(rid & -> & Hl) | (-> & Hin)].
    + left. exists (rid, r). split; [done|]. by apply elem_of_map_to_list.
    + right. eauto.
Qed.

(** The rows of the private view: a review, joined to its user. *)
Lemma elem_of_v_reviews_private st p :
  p ∈ v_reviews_private st ↔
  ∃ key r u, (key, r) ∈ review_rows st ∧ user st !! r_user_id r = Some u ∧
             p = private_row key r u.
Proof.
  unfold v_reviews_private. rewrite list_elem_of_omap. split.
  - intros ([key r] & Hin & Hrow). simpl in Hrow.
    destruct (user st !! r_user_id r) as [u|] eqn:Hu; [|done].
    injection Hrow as <-. by exists key, r, u.
  - intros (key & r & u & Hin & Hu & ->). exists (key, r). split; [done|].
    simpl. by rewrite Hu.
Qed.

Lemma review_rows_erase st :
  review_rows (erase_raw st) = prod_map id erase_review <$> review_rows st.
Proof.
  unfold review_rows, erase_raw. simpl.
  rewrite map_to_list_fmap, fmap_app, <- !list_fmap_compose.
  f_equal; by apply list_fmap_ext; intros ? [].
Qed.

Lemma private_join_erase st key r :
  (erase_user <$> user st) !! r_user_id (erase_review r)
    ≫= (λ u, Some (private_row key (erase_review r) u)) =
  user st !! r_user_id r ≫= (λ u, Some (private_row key r u)).
Proof. rewrite lookup_fmap. simpl. by destruct (user st !! r_user_id r). Qed.

(** The private view does not read the raw columns. *)
Lemma v_reviews_private_erase st :
  v_reviews_private (erase_raw st) = v_reviews_private st.
Proof.
  unfold v_reviews_private. rewrite review_rows_erase.
  change (user (erase_raw st)) with (erase_user <$> user st).
  induction (review_rows st) as [|[key r] l IH]; [done|].
  rewrite fmap_cons. cbn [omap list_omap]. rewrite IH.
  pose proof (private_join_erase st key r) as Hj. unfold private_row in Hj.
  cbn [prod_map fst snd id] in *. by rewrite Hj.
Qed.

(** *** The pipeline reaches such stores only *)

#[global] Instance keeps_reachable_preorder : PreOrder keeps_reachable.
Proof.
  split.
  - intros w Hr. exact Hr.
  - intros w1 w2 w3 H12 H23 Hr. apply H23, H12, Hr.
Qed.

Lemma row_step_accepted b dups rl ir rl' :
  row_step b dups rl ir = Ok rl' →
  Forall accepted_row (l_good_norm rl) → Forall accepted_row (l_good_norm rl').
Proof.
  unfold row_step. destruct ir as [idx raw].
  destruct (validate_row raw) as [[[ok errs] n]|e] eqn:Hv; [|done]. simpl.
  destruct ok; simpl; [|by intros [= <-]].
  destruct (bool_decide _); intros [= <-]; simpl; [|done].
  intros Hall. apply Forall_app. split; [done|]. constructor; [|done].
  by exists raw, errs, n, b, (Z.of_nat idx + 2).
Qed.

Lemma for_each_row_step_accepted b dups irs : ∀ rl rl',
  for_each (row_step b dups) irs rl = Ok rl' →
  Forall accepted_row (l_good_norm rl) → Forall accepted_row (l_good_norm rl').
Proof.
  induction irs as [|ir irs IH]; intros rl rl'; simpl.
  - by intros [= <-].
  - destruct (row_step b dups rl ir) as [rl1|e] eqn:Hstep; [|done]. simpl.
    intros Hrest Hall. eapply IH; [done|]. by eapply row_step_accepted.
Qed.

(** The rows that [process_file] loads are accepted rows. *)
Lemma validate_rows_accepted b raw_rows rl :
  validate_rows b raw_rows = Ok rl → Forall accepted_row (l_good_norm rl).
Proof. intros H. eapply for_each_row_step_accepted; [exact H|]. constructor. Qed.

Lemma execute_keeps_reachable f :
  (∀ st st', f st = Ok st' → reachable st → reachable st') →
  io_rel keeps_reachable (execute f).
Proof.
  intros Hf w r w'. unfold execute, keeps_reachable.
  destruct (f (w_conn w)) as [st|e] eqn:Hrun; intros [= _ <-]; [|done].
  simpl. by apply Hf.
Qed.

Lemma load_row_keeps_reachable k n :
  accepted_row n → io_rel keeps_reachable (load_row k n).
Proof.
  intros Hacc. unfold load_row.
  apply io_rel_bind; [apply _| |intros _].
  { apply execute_keeps_reachable. intros st st' Hrun Hr. by eapply reachable_business. }
  apply io_rel_bind; [apply _| |intros _].
  { apply execute_keeps_reachable. intros st st' Hrun Hr. by eapply reachable_user. }
  apply io_rel_bind; [apply _| |intros _].
  { apply execute_keeps_reachable. intros st st' Hrun Hr. by eapply reachable_review. }
  apply io_rel_ret. apply _.
Qed.

Lemma for_each_load_row_keeps_reachable (l : list normalized) :
  Forall accepted_row l → ∀ k, io_rel keeps_reachable (for_each_io load_row l k).
Proof.
  induction 1 as [|n l Hn _ IH]; intros k.
  - apply io_rel_ret. apply _.
  - apply (io_rel_bind keeps_reachable (load_row k n) (for_each_io load_row l));
      [by apply load_row_keeps_reachable|apply IH].
Qed.

(** [process_file] takes the connection from a reachable store to a
    reachable store, whether it returns or raises. *)
Lemma process_file_keeps_reachable path : io_rel keeps_reachable (process_file path).
Proof.
  intros w r w'. rewrite process_file_unfold. unfold keeps_reachable.
  destruct (w_files w !! path) as [bytes|]; [|by intros [= _ <-]].
  simpl. destruct (audit_exists _ _ _); [by intros [= _ <-]|].
  destruct (load_workbook bytes) as [sheet|e']; [|by intros [= _ <-]].
  destruct (sheet_rows sheet) as [header raw_rows].
  destruct (validate_rows _ _) as [rl|e'] eqn:Hrl; [|by intros [= _ <-]].
  pose proof (validate_rows_accepted _ _ _ Hrl) as Hall.
  destruct (for_each_io _ _ _ _) as [[k|e'] w2] eqn:Hload; intros [= _ <-] Hr.
  - simpl. eapply reachable_audit; [|done].
    eapply (for_each_load_row_keeps_reachable _ Hall); [exact Hload|].
    by rewrite after_quarantine_conn.
  - eapply (for_each_load_row_keeps_reachable _ Hall); [exact Hload|].
    by rewrite after_quarantine_conn.
Qed.




End Redaction.

Section IpFacts.

Lemma split_cons sep s : ∃ h t, Py.split sep s = h :: t.
Proof.
  induction s as [|c s (h & t & IH)]; simpl; [by eauto|].
  destruct (Ascii.eqb c sep); [by eauto|]. rewrite IH. eauto.
Qed.

Lemma join_cons sep h t :
  Py.join sep (h :: t) = match t with [] => h | _ => h +:+ sep +:+ Py.join sep t end.
Proof. by destruct t. Qed.

(** [sep.join(s.split(sep)) == s] *)
Lemma join_split sep s : Py.join (String sep "") (Py.split sep s) = s.
Proof.
  induction s as [|c s IH]; [done|]. simpl.
  destruct (split_cons sep s) as (h & t & Hs). rewrite Hs in *.
  destruct (Ascii.eqb c sep) eqn:Hc.
  - apply Ascii.eqb_eq in Hc as ->. rewrite join_cons, IH.
    by rewrite app_empty_l, app_cons, app_empty_l.
  - rewrite join_cons in *. destruct t as [|h' t]; [by rewrite IH|].
    by rewrite app_cons, IH.
Qed.

Lemma is_ipv4_split v :
  IpAddress.is_ipv4 v = true → ∃ a b c d, Py.split "." v = [a; b; c; d].
Proof.
  unfold IpAddress.is_ipv4. intros [_ H]%andb_prop.
  destruct (Py.split "." v) as [|a [|b [|c [|d [|? ?]]]]]; try done. eauto 6.
Qed.


Lemma split_no_sep sep s : Forall (λ p, Py.contains sep p = false) (Py.split sep s).
Proof.
  induction s as [|c s IH]; simpl; [by repeat constructor|].
  destruct (Ascii.eqb c sep) eqn:Hc; [by constructor|].
  destruct (Py.split sep s) as [|h t].
  - repeat constructor. simpl. by rewrite Ascii.eqb_sym, Hc.
  - inversion IH as [|? ? Hh Ht]; subst. constructor; [|done]. simpl.
    by rewrite Ascii.eqb_sym, Hc.
Qed.

Lemma set_last_snoc (init : list string) (x y : string) :
  set_last (init ++ [x]) y = init ++ [y].
Proof.
  unfold set_last. rewrite removelast_last. by destruct init.
Qed.

Lemma split_snoc sep s : ∃ init last, Py.split sep s = init ++ [last].
Proof.
  destruct (split_cons sep s) as (h & t & ->).
  destruct (exists_last (l := h :: t)) as (init & last & ->); [done|]. eauto.
Qed.

Lemma join_snoc sep (init : list string) (x : string) :
  Py.join sep (init ++ [x]) =
  match init with [] => x | _ => Py.join sep init +:+ sep +:+ x end.
Proof.
  induction init as [|h init IH]; [done|].
  destruct init as [|h' init]; [done|].
  change ((h :: h' :: init) ++ [x]) with (h :: ((h' :: init) ++ [x])).
  rewrite (join_cons sep h ((h' :: init) ++ [x])), IH.
  rewrite (join_cons sep h (h' :: init)). simpl.
  by rewrite !app_assoc_str.
Qed.

Lemma split_absent sep a : Py.contains sep a = false → Py.split sep a = [a].
Proof.
  induction a as [|c a IH]; [done|]. cbn [Py.contains Py.split].
  intros [H1 H2]%orb_false_elim. by rewrite Ascii.eqb_sym, H1, (IH H2).
Qed.

(** The first part of a split has no more characters than the text. *)
Lemma split_head_contains sep c v a l :
  Py.contains c v = false → Py.split sep v = a :: l → Py.contains c a = false.
Proof.
  revert a l. induction v as [|d v IH]; intros a l; cbn [Py.contains Py.split].
  - by intros _ [= <- _].
  - intros [H1 H2]%orb_false_elim. destruct (Ascii.eqb d sep); [by intros [= <- _]|].
    destruct (Py.split sep v) as [|h t] eqn:Hs.
    + intros [= <- _]. cbn [Py.contains]. by rewrite H1.
    + intros [= <- _]. cbn [Py.contains]. rewrite H1. by eapply IH.
Qed.

(** An IPv6 address has a colon. *)
Lemma is_ipv6_colon v : IpAddress.is_ipv6 v = true → Py.contains ":" v = true.
Proof.
  intros H6. destruct (Py.contains ":" v) eqn:Hc; [done|]. exfalso.
  unfold IpAddress.is_ipv6 in H6. apply andb_prop in H6 as [_ H6].
  unfold IpAddress.split_scope_id in H6.
  assert (Hone : ∀ a, Py.contains ":" a = false → IpAddress.ipv6_body a = false).
  { intros a Ha. unfold IpAddress.ipv6_body. rewrite (split_absent _ _ Ha).
    by destruct (Py.truthy a). }
  destruct (Py.split "%" v) as [|a [|b [|? ?]]] eqn:Hsp; try done.
  - rewrite Hone in H6; [done|]. by eapply split_head_contains.
  - destruct (Py.truthy b); [|done]. rewrite Hone in H6; [done|].
    by eapply split_head_contains.
Qed.

End IpFacts.

(** X1. In a store that the upserts of the pipeline have made, every row
    of [v_reviews_private] is a review joined to its user, and its three
    sensitive columns are derived ones: the e-mail column is
    [email_hash_value] of the stored address, the IP column is [redact_ip]
    of the stored address, and the name column is absent or a first
    character and the mask; it is [redact_name] of the stored name unless
    that name is the empty string, which leaves the earlier redacted name
    in place. *)
Theorem private_view_shows_derived_columns `{RT : Runtime} (st : Store) (p : PrivateRow) :
  reachable st → p ∈ v_reviews_private st →
  ∃ key r u,
    (key, r) ∈ review_rows st ∧ user st !! r_user_id r = Some u ∧
    p = private_row key r u ∧
    prv_email_address p = email_hash_value (u_email_address u) ∧
    prv_review_ip_address p = redact_ip (r_review_ip_address r) ∧
    (u_user_name u ≠ Some "" → prv_user_name p = redact_name (u_user_name u)) ∧
    masked_or_absent (prv_user_name p).
Proof.
  intros (Hu & Hr & Hn)%reachable_redaction_inv (key & r & u & Hin & Hlook & ->)%elem_of_v_reviews_private.
  exists key, r, u. destruct (Hu _ _ Hlook) as (Hh & Hname & Hm).
  assert (Hip : review_row_ok r).
  { apply elem_of_review_rows in Hin as [(rid & _ & Hl) | (_ & Hl)]; [by eapply Hr|].
    by eapply (proj1 (Forall_forall _ _) Hn). }
  split_and!; done.
Qed.

(** The store after the file of the test. *)
Lemma private_view_shows_derived_columns_witness :
  let st := w_conn (@process_file scenario_runtime "/tmp/sample.xlsx"
                      (scenario_world [("/tmp/sample.xlsx", "placeholder")])).2 in
  let p := mk_private (Some "r-1") "b-1" "u-1" "2024-01-01T12:00:00Z" 5 (Some "Great")
             (Some "Loved it") (Some "sha256:user@example.com") (Some "A***")
             (Some "1.2.3.0") in
  ∃ key r u,
    (key, r) ∈ review_rows st ∧ user st !! r_user_id r = Some u ∧
    p = private_row key r u ∧
    prv_email_address p = @email_hash_value scenario_runtime (u_email_address u) ∧
    prv_review_ip_address p = redact_ip (r_review_ip_address r) ∧
    (u_user_name u ≠ Some "" → prv_user_name p = redact_name (u_user_name u)) ∧
    masked_or_absent (prv_user_name p).
Proof.
  intros st p. apply (@private_view_shows_derived_columns scenario_runtime st p).
  - eapply (@process_file_keeps_reachable scenario_runtime); [apply surjective_pairing|].
    apply reachable_empty.
  - vm_compute. apply list_elem_of_here.
Defined.

(** X2. [v_reviews_private] reads none of the raw columns
    [email_address], [user_name] and [review_ip_address]: on the store with
    these three columns erased it has the same rows. *)
Theorem private_view_ignores_raw_columns (st : Store) :
  v_reviews_private (erase_raw st) = v_reviews_private st.
Proof. apply v_reviews_private_erase. Qed.



(** X4. [redact_ip] of an IPv4 address keeps the first three octets and
    puts 0 for the fourth; the text around the address is stripped. *)
Theorem redact_ip_ipv4_zeroes_last_octet (s : string) :
  Py.truthy s = true → IpAddress.ip_version (Py.strip s) = Some IpAddress.V4 →
  ∃ a b c d,
    Py.strip s = a +:+ "." +:+ b +:+ "." +:+ c +:+ "." +:+ d ∧
    Py.contains "." d = false ∧
    redact_ip (Some s) = Some (a +:+ "." +:+ b +:+ "." +:+ c +:+ ".0").
Proof.
  intros Ht Hv. unfold redact_ip. rewrite Ht, Hv.
  unfold IpAddress.ip_version in Hv.
  destruct (IpAddress.is_ipv4 (Py.strip s)) eqn:H4;
    [|by destruct (IpAddress.is_ipv6 _)].
  destruct (is_ipv4_split _ H4) as (a & b & c & d & Hs).
  pose proof (join_split "." (Py.strip s)) as Hj.
  pose proof (split_no_sep "." (Py.strip s)) as Hno.
  rewrite Hs in *. exists a, b, c, d. split_and!.
  - by rewrite <- Hj.
  - apply Forall_cons_1 in Hno as [_ Hno]. apply Forall_cons_1 in Hno as [_ Hno].
    apply Forall_cons_1 in Hno as [_ Hno]. by apply Forall_cons_1 in Hno as [Hd _].
  - done.
Qed.

Lemma redact_ip_ipv4_zeroes_last_octet_witness :
  ∃ a b c d,
    Py.strip " 192.168.10.77 " = a +:+ "." +:+ b +:+ "." +:+ c +:+ "." +:+ d ∧
    Py.contains "." d = false ∧
    redact_ip (Some " 192.168.10.77 ") = Some (a +:+ "." +:+ b +:+ "." +:+ c +:+ ".0").
Proof. apply (redact_ip_ipv4_zeroes_last_octet " 192.168.10.77 "); reflexivity. Defined.

(** X5. [redact_ip] of an IPv6 address puts 0000 for what follows the last
    colon and keeps the text before it; a zone after a percent sign is in
    what is replaced. A text that is no address gives the marker, and an
    absent or empty one gives nothing. *)
Theorem redact_ip_ipv6_zeroes_last_group (s : string) :
  Py.truthy s = true → IpAddress.ip_version (Py.strip s) = Some IpAddress.V6 →
  ∃ before last,
    Py.strip s = before +:+ ":" +:+ last ∧
    Py.contains ":" last = false ∧
    redact_ip (Some s) = Some (before +:+ ":0000").
Proof.
  intros Ht Hv. unfold redact_ip. rewrite Ht, Hv.
  destruct (split_snoc ":" (Py.strip s)) as (init & last & Hs).
  pose proof (join_split ":" (Py.strip s)) as Hj.
  pose proof (split_no_sep ":" (Py.strip s)) as Hno.
  rewrite Hs in *. rewrite set_last_snoc. rewrite join_snoc in Hj. rewrite join_snoc.
  apply Forall_app in Hno as [_ Hlast]. apply Forall_cons_1 in Hlast as [Hlast _].
  destruct init as [|h init].
  - (* an address has a colon *)
    exfalso. unfold IpAddress.ip_version in Hv.
    destruct (IpAddress.is_ipv4 _); [done|].
    destruct (IpAddress.is_ipv6 (Py.strip s)) eqn:H6; [|done].
    apply is_ipv6_colon in H6. rewrite <- Hj in H6. simpl in Hj. congruence.
  - exists (Py.join ":" (h :: init)), last. split_and!; [by rewrite <- Hj|done|done].
Qed.

Lemma redact_ip_ipv6_zeroes_last_group_witness :
  ∃ before last,
    Py.strip "fe80::1%eth0" = before +:+ ":" +:+ last ∧
    Py.contains ":" last = false ∧
    redact_ip (Some "fe80::1%eth0") = Some (before +:+ ":0000").
Proof. apply (redact_ip_ipv6_zeroes_last_group "fe80::1%eth0"); reflexivity. Defined.
(** ** The statistics, the lineage and the quarantine of a file *)

Section Statistics.

Context `{RT : Runtime}.
Implicit Types (w : World) (st : Store) (path : string) (n : normalized) (raw : raw_row).

Lemma elem_of_enumerate {A} (l : list A) k i x :
  (i, x) ∈ Py.enumerate k l ↔ (k <= i)%nat ∧ l !! (i - k)%nat = Some x.
Proof.
  revert k. induction l as [|y l IH]; intros k; simpl.
  - rewrite elem_of_nil. naive_solver.
  - rewrite elem_of_cons, IH. split.
    + intros [[= -> ->] | [Hk Hl]].
      * rewrite Nat.sub_diag. split; [lia|done].
      * split; [lia|]. replace (i - k)%nat with (S (i - S k)) by lia. done.
    + intros [Hk Hl]. destruct (decide (i = k)) as [->|Hne].
      * rewrite Nat.sub_diag in Hl. left. by injection Hl as ->.
      * right. split; [lia|]. replace (i - k)%nat with (S (i - S k)) in Hl by lia. done.
Qed.

Lemma row_step_spec b rows dups rl idx raw rl' :
  dups = (validate_batch rows).1 → rows !! idx = Some raw →
  row_step b dups rl (idx, raw) = Ok rl' →
  l_rows_in rl' = l_rows_in rl + 1 ∧
  ((∃ n, good_row_of b rows n ∧
         l_good_norm rl' = l_good_norm rl ++ [n] ∧ l_bad_rows rl' = l_bad_rows rl ∧
         l_dq_pass rl' = l_dq_pass rl + 1 ∧ l_dq_fail rl' = l_dq_fail rl ∧
         l_rows_rejected rl' = l_rows_rejected rl) ∨
   (∃ bad, bad_row_of rows bad ∧
         l_good_norm rl' = l_good_norm rl ∧ l_bad_rows rl' = l_bad_rows rl ++ [bad] ∧
         l_dq_pass rl' = l_dq_pass rl ∧ l_dq_fail rl' = l_dq_fail rl + 1 ∧
         l_rows_rejected rl' = l_rows_rejected rl + 1)).
Proof.
  intros -> Hidx. unfold row_step.
  destruct (validate_row raw) as [[[ok errs] n0]|e] eqn:Hv; [|done]. simpl.
  pose proof (validate_row_ok _ _ _ _ Hv) as (_ & _ & Hok & _).
  destruct (bool_decide (idx ∈ (validate_batch rows).1)) eqn:Hdup.
  - (* a duplicate *)
    assert (Hne : errs ++ [DUPLICATE_MSG] ≠ []) by by destruct errs.
    rewrite (bool_decide_eq_false_2 _ Hne), andb_false_r. intros [= <-]. simpl.
    split; [done|]. right. eexists. split; [|done].
    exists idx, ok, errs, n0. simpl. by rewrite Hdup.
  - apply bool_decide_eq_false in Hdup. rewrite <- Hok.
    destruct ok; simpl; intros [= <-]; simpl; (split; [done|]).
    + left. eexists. split; [|done]. exists idx, raw, n0.
      symmetry in Hok. apply bool_decide_eq_true in Hok. by subst errs.
    + right. eexists. split; [|done]. exists idx, false, errs, n0. simpl.
      rewrite bool_decide_eq_false_2 by done. split_and!; try done.
      symmetry in Hok. by apply bool_decide_eq_false in Hok.
Qed.

Lemma for_each_row_step_spec b rows dups irs : ∀ rl rl' k,
  dups = (validate_batch rows).1 →
  (∀ idx raw, (idx, raw) ∈ irs → rows !! idx = Some raw) →
  for_each (row_step b dups) irs rl = Ok rl' →
  counts_inv k rl →
  Forall (good_row_of b rows) (l_good_norm rl) → Forall (bad_row_of rows) (l_bad_rows rl) →
  counts_inv (k + length irs) rl' ∧
  Forall (good_row_of b rows) (l_good_norm rl') ∧ Forall (bad_row_of rows) (l_bad_rows rl').
Proof.
  induction irs as [|[idx raw] irs IH]; intros rl rl' k Hd Hin; cbn [for_each length].
  - intros [= <-] Hc Hg Hb. by rewrite Nat.add_0_r.
  - destruct (row_step b dups rl (idx, raw)) as [rl1|e] eqn:Hstep;
      cbn [mbind Res_bind]; [|by intros [=]].
    intros Hrest (Hi & Hrej & Hfail & Hpass & Hlen) Hg Hb.
    assert (Hidx : rows !! idx = Some raw) by (apply Hin; left).
    pose proof (row_step_spec _ _ _ _ _ _ _ Hd Hidx Hstep) as (Hin1 & Hcase).
    replace (k + S (length irs))%nat with (S k + length irs)%nat by lia.
    apply (IH rl1 rl' (S k) Hd); [by intros i r Hir; apply Hin; right|done|..].
    + unfold counts_inv.
      destruct Hcase as [(n & _ & -> & -> & -> & -> & ->) | (bad & _ & -> & -> & -> & -> & ->)];
        rewrite ?length_app; simpl; split_and!; lia.
    + destruct Hcase as [(n & Hn & -> & _) | (bad & _ & -> & _)]; [|done].
      apply Forall_app. split; [done|]. by constructor.
    + destruct Hcase as [(n & _ & _ & -> & _) | (bad & Hbad & _ & -> & _)]; [done|].
      apply Forall_app. split; [done|]. by constructor.
Qed.

(** The loop over the rows of a file: the counters count the two lists,
    the good rows are accepted rows of the sheet with their lineage, and
    every rejected row has a reason. *)
Lemma validate_rows_spec b rows rl :
  validate_rows b rows = Ok rl →
  counts_inv (length rows) rl ∧
  Forall (good_row_of b rows) (l_good_norm rl) ∧ Forall (bad_row_of rows) (l_bad_rows rl).
Proof.
  intros H. unfold validate_rows in H.
  assert (Hlen : ∀ {A} (l : list A) k, length (Py.enumerate k l) = length l).
  { intros A l. induction l as [|x l IH]; intros k; simpl; [done|]. by rewrite IH. }
  rewrite <- (Hlen _ rows 0%nat).
  apply (for_each_row_step_spec b rows _ _ _ _ 0%nat eq_refl) in H; try done.
  intros idx raw [_ Hl]%elem_of_enumerate. by rewrite Nat.sub_0_r in Hl.
Qed.

(** [for n in good_norm] counts the rows that it loads. *)
Lemma for_each_load_row_counts (l : list normalized) : ∀ k w k' w',
  for_each_io load_row l k w = (Ok k', w') → k' = k + Z.of_nat (length l).
Proof.
  induction l as [|n l IH]; intros k w k' w'; simpl.
  - intros [= <- _]. lia.
  - unfold mbind, IO_bind. destruct (load_row k n w) as [[k1|e] w1] eqn:Hrow; [|done].
    intros Hrest%IH. assert (k1 = k + 1); [|lia].
    unfold load_row, mbind, IO_bind in Hrow.
    destruct (execute (upsert_business n) w) as [[[]|?] ?]; [|done].
    destruct (execute (upsert_user n) _) as [[[]|?] ?]; [|done].
    destruct (execute (upsert_review n) _) as [[[]|?] ?]; [|done].
    by injection Hrow as <- _.
Qed.

#[global] Instance same_quarantine_preorder : PreOrder same_quarantine.
Proof.
  split; [done|]. intros w1 w2 w3 H12 H23. unfold same_quarantine in *. congruence.
Qed.



End Statistics.

Section FileStatistics.

Context `{RT : Runtime}.
Implicit Types (w : World) (st : Store) (path : string) (n : normalized) (raw : raw_row).

(** What a call of [process_file] that returns has done: nothing for an
    audited file, and for another file the loop over its rows, the
    quarantine step, the loads and the audit row. *)
Lemma process_file_returns path w r w' :
  process_file path w = (Ok r, w') →
  ∃ bytes, w_files w !! path = Some bytes ∧
    ((audited path (sha256_hexdigest bytes) (w_conn w) ∧ r = SKIPPED ∧ w' = w) ∨
     (¬ audited path (sha256_hexdigest bytes) (w_conn w) ∧
      ∃ sheet rl w2,
        load_workbook bytes = Ok sheet ∧
        validate_rows (Py.basename path) (sheet_rows sheet).2 = Ok rl ∧
        for_each_io load_row (l_good_norm rl) 0
          (after_quarantine (Py.basename path) (sheet_rows sheet).1 rl w)
          = (Ok (Z.of_nat (length (l_good_norm rl))), w2) ∧
        r = (l_rows_in rl, Z.of_nat (length (l_good_norm rl)), l_rows_rejected rl,
             l_dq_pass rl, l_dq_fail rl, l_good_norm rl) ∧
        w' = set_conn (set_load_audit
                         (load_audit (w_conn w2) ++
                            [audit_row path (sha256_hexdigest bytes) rl
                               (Z.of_nat (length (l_good_norm rl)))])
                         (w_conn w2)) w2)).
Proof.
  rewrite process_file_unfold. destruct (w_files w !! path) as [bytes|]; [|done].
  simpl. intros H. exists bytes. split; [done|].
  destruct (audit_exists _ _ _) eqn:Ha.
  { left. apply audit_exists_audited in Ha. by injection H as <- <-. }
  right. split; [by intros Hau%audit_exists_audited; congruence|].
  destruct (load_workbook bytes) as [sheet|e]; [|done].
  destruct (sheet_rows sheet) as [header raw_rows] eqn:Hsheet.
  destruct (validate_rows _ _) as [rl|e] eqn:Hrl; [|done].
  destruct (for_each_io _ _ _ _) as [[k|e] w2] eqn:Hload; [|done].
  pose proof (for_each_load_row_counts _ _ _ _ _ Hload) as Hk. simpl in Hk. subst k.
  injection H as <- <-. exists sheet, rl, w2. rewrite Hsheet. done.
Qed.

End FileStatistics.

Section FileTheorems.

Context `{RT : Runtime}.
Implicit Types (w : World) (st : Store) (path : string) (n : normalized) (raw : raw_row).



(** X6. The statistics of a call of [process_file] that returns add up:
    rows_in = rows_loaded + rows_rejected, dq_pass = rows_loaded,
    dq_fail = rows_rejected, and rows_loaded is the number of the good rows
    returned; and for a file that was not audited before, rows_in is the
    number of data rows of the sheet, and the call appends one audit row,
    which carries these numbers. *)
Theorem process_file_statistics_add_up
    path w (rows_in rows_loaded rows_rejected dq_pass dq_fail : Z) good w' :
  process_file path w =
    (Ok (rows_in, rows_loaded, rows_rejected, dq_pass, dq_fail, good), w') →
  rows_in = rows_loaded + rows_rejected ∧ dq_pass = rows_loaded ∧
  dq_fail = rows_rejected ∧ rows_loaded = Z.of_nat (length good) ∧
  0 <= rows_rejected ∧
  ∃ bytes, w_files w !! path = Some bytes ∧
    (¬ audited path (sha256_hexdigest bytes) (w_conn w) →
     ∃ sheet, load_workbook bytes = Ok sheet ∧
       rows_in = Z.of_nat (length (sheet_rows sheet).2) ∧
       load_audit (w_conn w') =
         load_audit (w_conn w) ++
           [mk_audit path (sha256_hexdigest bytes) rows_in rows_loaded rows_rejected
              dq_pass dq_fail]).
Proof.
  intros (bytes & Hf & Hcase)%process_file_returns.
  destruct Hcase as [(Ha & Hr & ->) | (Hna & sheet & rl & w2 & Hload & Hrl & Hrun & Hr & ->)].
  - injection Hr as -> -> -> -> -> ->. split_and!; try done. by exists bytes.
  - injection Hr as -> -> -> -> -> ->.
    pose proof (validate_rows_spec _ _ _ Hrl) as ((Hin & Hrej & Hfail & Hpass & Hlen) & _ & _).
    split_and!; try lia. exists bytes. split; [done|]. intros _.
    exists sheet. split; [done|]. split; [done|]. simpl.
    pose proof (io_rel_for_each same_audit load_row (l_good_norm rl) load_row_same_audit
                  _ _ _ _ Hrun) as Hsame.
    unfold same_audit in Hsame. by rewrite Hsame, after_quarantine_conn.
Qed.

(** X7. The good rows that [process_file] returns for a file not audited
    before are rows of the sheet: each is the normalized form of a row that
    [validate_row] accepts without an error and that is no duplicate, and
    it carries the base name of the file and the number of the row in the
    sheet, where the first data row has the number 2. *)
Theorem process_file_good_rows_have_lineage
    path w bytes sheet (rows_in rows_loaded rows_rejected dq_pass dq_fail : Z) good w' :
  w_files w !! path = Some bytes → load_workbook bytes = Ok sheet →
  ¬ audited path (sha256_hexdigest bytes) (w_conn w) →
  process_file path w =
    (Ok (rows_in, rows_loaded, rows_rejected, dq_pass, dq_fail, good), w') →
  Forall (λ n, good_row_of (Py.basename path) (sheet_rows sheet).2 n ∧
               n_source_file n = Some (Py.basename path) ∧
               ∃ k, n_source_row n = Some k ∧ 2 <= k < rows_in + 2) good.
Proof.
  intros Hf Hload Hna (bytes' & Hf' & Hcase)%process_file_returns.
  assert (bytes' = bytes) as -> by congruence.
  destruct Hcase as [(Ha & _) | (_ & sheet' & rl & w2 & Hload' & Hrl & Hrun & Hr & ->)];
    [done|].
  assert (sheet' = sheet) as -> by congruence.
  injection Hr as -> -> -> -> -> ->.
  pose proof (validate_rows_spec _ _ _ Hrl) as ((Hin & _) & Hgood & _).
  eapply Forall_impl; [exact Hgood|]. intros n Hn. split; [done|].
  destruct Hn as (idx & raw & n0 & Hidx & _ & _ & ->). simpl. split; [done|].
  exists (Z.of_nat idx + 2). split; [done|].
  apply lookup_lt_Some in Hidx. lia.
Qed.


End FileTheorems.

(** The file of the test: two rows, one loaded, one rejected. *)
Lemma process_file_statistics_add_up_witness :
  let w := scenario_world [("/tmp/sample.xlsx", "placeholder")] in
  let run := @process_file scenario_runtime "/tmp/sample.xlsx" w in
  load_audit (w_conn run.2) = [mk_audit "/tmp/sample.xlsx" "sha256:placeholder" 2 1 1 1 1].
Proof.
  intros w run.
  destruct (@process_file_statistics_add_up scenario_runtime "/tmp/sample.xlsx" w 2 1 1 1 1
              (match run.1 with Ok r => r.2 | Raise _ => [] end) run.2)
    as (_ & _ & _ & _ & _ & bytes & Hf & Haudit).
  - vm_compute. reflexivity.
  - assert (bytes = "placeholder") as ->.
    { vm_compute in Hf. by injection Hf as <-. }
    destruct Haudit as (sheet & _ & _ & ->).
    + intros H%audit_exists_audited. vm_compute in H. discriminate H.
    + reflexivity.
Defined.

Lemma process_file_good_rows_have_lineage_witness :
  let w := scenario_world [("/tmp/sample.xlsx", "placeholder")] in
  let run := @process_file scenario_runtime "/tmp/sample.xlsx" w in
  Forall (λ n, good_row_of "sample.xlsx" (@sheet_rows scenario_runtime scenario_sheet).2 n ∧
               n_source_file n = Some "sample.xlsx" ∧
               ∃ k, n_source_row n = Some k ∧ 2 <= k < 2 + 2)
    (match run.1 with Ok r => r.2 | Raise _ => [] end).
Proof.
  intros w run.
  apply (@process_file_good_rows_have_lineage scenario_runtime "/tmp/sample.xlsx" w
           "placeholder" scenario_sheet 2 1 1 1 1 _ run.2).
  - reflexivity.
  - reflexivity.
  - intros H%audit_exists_audited. vm_compute in H. discriminate H.
  - vm_compute. reflexivity.
Defined.

(** ** A second run over the same files *)

Section SecondRun.

Context `{RT : Runtime}.
Implicit Types (w : World) (st : Store) (path : string) (n : normalized) (raw : raw_row).

#[global] Instance audit_grows_preorder : PreOrder audit_grows.
Proof.
  split.
  - intros w. unfold audit_grows. done.
  - intros w1 w2 w3 H12 H23. unfold audit_grows in *. by etrans.
Qed.

Lemma audited_grows path h w w' :
  audit_grows w w' → audited path h (w_conn w) → audited path h (w_conn w').
Proof.
  intros [l Hl] (a & Ha & Hfile & Hhash). exists a. rewrite Hl.
  split; [|done]. apply elem_of_app. by left.
Qed.

Lemma process_file_audit_grows path : io_rel audit_grows (process_file path).
Proof.
  intros w [r|e] w' Hrun.
  - apply process_file_returns in Hrun as (bytes & _ & Hcase).
    destruct Hcase as [(_ & _ & ->) | (_ & sheet & rl & w2 & _ & _ & Hload & _ & ->)];
      [done|].
    pose proof (io_rel_for_each same_audit load_row (l_good_norm rl) load_row_same_audit
                  _ _ _ _ Hload) as Hsame.
    unfold same_audit in Hsame. rewrite after_quarantine_conn in Hsame.
    unfold audit_grows. simpl. rewrite Hsame. by apply prefix_app_r.
  - apply process_file_raise_same_audit in Hrun. unfold same_audit in Hrun.
    unfold audit_grows. by rewrite Hrun.
Qed.

Lemma run_step_audit_grows acc path : io_rel audit_grows (run_step acc path).
Proof.
  unfold run_step. destruct acc as [[[[[a0 a1] a2] a3] a4] stage_rows].
  apply io_rel_bind; [apply _|apply process_file_audit_grows|].
  intros [[[[[r_in r_loaded] r_rej] r_pass] r_fail] good_norm].
  apply io_rel_ret. apply _.
Qed.

Lemma run_step_ok acc path w acc' w' :
  run_step acc path w = (Ok acc', w') → ∃ r, process_file path w = (Ok r, w').
Proof.
  unfold run_step. destruct acc as [[[[[a0 a1] a2] a3] a4] stage_rows].
  unfold mbind, IO_bind. destruct (process_file path w) as [[r|e] w1]; [|done].
  destruct r as [[[[[r_in r_loaded] r_rej] r_pass] r_fail] good_norm].
  intros [= _ <-]. eauto.
Qed.

(** After the loop of a run, every file of the run is in the audit log. *)
Lemma run_loop_audits files : ∀ acc w acc' w',
  for_each_io run_step files acc w = (Ok acc', w') →
  ∀ path, path ∈ files →
  ∃ bytes, w_files w !! path = Some bytes ∧
           audited path (sha256_hexdigest bytes) (w_conn w').
Proof.
  induction files as [|p files IH]; intros acc w acc' w'; cbn [for_each_io].
  - intros _ path Hin. by apply elem_of_nil in Hin.
  - unfold mbind, IO_bind. destruct (run_step acc p w) as [[acc1|e] w1] eqn:Hstep; [|done].
    intros Hrest path Hin.
    pose proof (run_step_same_outside _ _ _ _ _ Hstep) as (_ & Hfiles & _).
    apply elem_of_cons in Hin as [->|Hin].
    + apply run_step_ok in Hstep as (r & Hrun).
      apply process_file_audits in Hrun as (bytes & Hf & Ha). exists bytes.
      split; [done|]. eapply audited_grows; [|exact Ha].
      eapply (io_rel_for_each audit_grows run_step files); [|exact Hrest].
      apply run_step_audit_grows.
    + destruct (IH _ _ _ _ Hrest path Hin) as (bytes & Hf & Ha).
      exists bytes. by rewrite <- Hfiles.
Qed.

(** Over files that are all in the audit log the loop of a run does
    nothing. *)
Lemma run_loop_skips files : ∀ acc w,
  (∀ path, path ∈ files →
     ∃ bytes, w_files w !! path = Some bytes ∧
              audited path (sha256_hexdigest bytes) (w_conn w)) →
  for_each_io run_step files acc w = (Ok acc, w).
Proof.
  induction files as [|p files IH]; intros acc w Hall; cbn [for_each_io]; [done|].
  destruct (Hall p) as (bytes & Hf & Ha); [by left|].
  unfold mbind, IO_bind, run_step. destruct acc as [[[[[a0 a1] a2] a3] a4] stage_rows].
  unfold mbind, IO_bind. rewrite (process_file_skip _ _ _ Hf Ha). unfold SKIPPED.
  cbn [mret IO_ret]. rewrite !Z.add_0_r, app_nil_r.
  apply IH. intros path Hin. apply Hall. by right.
Qed.

Lemma set_conn_id w : w_conn w = w_db w → set_conn (w_db w) w = w.
Proof. destruct w. simpl. by intros ->. Qed.

Lemma set_db_id w : w_conn w = w_db w → set_db (w_conn w) w = w.
Proof. destruct w. simpl. by intros ->. Qed.

Lemma connect_id {A} (body : IO A) a w :
  w_conn w = w_db w → body w = (Ok a, w) → connect body w = (Ok a, w).
Proof.
  intros Hc Hbody. unfold connect. rewrite (set_conn_id _ Hc), Hbody.
  by rewrite (set_db_id _ Hc).
Qed.

(** The world after a run that returns: the connection is committed, the
    files are the same, and every file of the run is in the audit log. *)
Lemma build_stage_and_load_returns patterns stage_path w r w1 :
  build_stage_and_load patterns stage_path w = (Ok r, w1) →
  w_conn w1 = w_db w1 ∧ w_files w1 = w_files w ∧
  r.1.1.1.1.1.1.1 = Z.of_nat (length (discovered patterns w)) ∧
  ∀ path, path ∈ discovered patterns w →
    ∃ bytes, w_files w1 !! path = Some bytes ∧
             audited path (sha256_hexdigest bytes) (w_conn w1).
Proof.
  unfold build_stage_and_load, mbind, IO_bind, discover_files, init_db.
  fold (discovered patterns w). cbn [connect mret IO_ret].
  set (w0 := set_db _ _). unfold connect.
  destruct (for_each_io run_step _ _ _) as [[acc|e] wl] eqn:Hloop; [|done].
  pose proof (io_rel_for_each same_outside run_step _ run_step_same_outside _ _ _ _ Hloop)
    as (_ & Hfiles & _).
  pose proof (run_loop_audits _ _ _ _ _ Hloop) as Haud.
  destruct acc as [[[[[a0 a1] a2] a3] a4] stage_rows].
  assert (Hw : ∀ w3, w_conn w3 = w_conn wl → w_db w3 = w_conn wl →
                     w_files w3 = w_files wl →
                     w_conn w3 = w_db w3 ∧ w_files w3 = w_files w ∧
                     ∀ path, path ∈ discovered patterns w →
                       ∃ bytes, w_files w3 !! path = Some bytes ∧
                                audited path (sha256_hexdigest bytes) (w_conn w3)).
  { intros w3 Hc Hd Hf. split; [congruence|]. split; [by rewrite Hf, Hfiles|].
    intros path Hin. destruct (Haud path Hin) as (bytes & Hb & Ha).
    exists bytes. rewrite Hf, Hfiles, Hc. done. }
  destruct stage_rows as [|n l]; cbn [mret IO_ret write_stage_parquet];
    intros [= <- <-]; cbn [fst snd];
    match goal with
    | |- w_conn ?W = _ ∧ _ => destruct (Hw W) as (? & ? & ?); [done..|done]
    end.
Qed.

(** X9. A run that has returned has put every file that it found in the
    audit log, so a second run over the same files loads nothing: it
    returns the number of the files and zeros, writes no stage file and
    leaves the world, with the committed tables, as it is. *)
Theorem second_run_loads_nothing patterns stage_path w w1
    (total_files rows_in loaded rejected dq_pass dq_fail written : Z) (used : string) :
  build_stage_and_load patterns stage_path w =
    (Ok (total_files, rows_in, loaded, rejected, dq_pass, dq_fail, written, used), w1) →
  build_stage_and_load patterns stage_path w1 =
    (Ok (total_files, 0, 0, 0, 0, 0, 0, ""), w1).
Proof.
  intros (Hc & Hf & Hn & Haud)%build_stage_and_load_returns. cbn [fst] in Hn.
  unfold build_stage_and_load, mbind, IO_bind, discover_files.
  fold (discovered patterns w1).
  assert (Hd : discovered patterns w1 = discovered patterns w)
    by (unfold discovered; by rewrite Hf).
  rewrite Hd. unfold init_db. rewrite (connect_id (mret tt) tt w1 Hc eq_refl).
  cbv beta iota.
  match goal with
  | |- context [connect ?body w1] =>
      rewrite (connect_id body _ w1 Hc (run_loop_skips _ _ _ Haud))
  end.
  cbn [mret IO_ret]. by rewrite Hn.
Qed.

End SecondRun.

(** A run over two files, and the run after it. *)
Lemma second_run_loads_nothing_witness :
  let w := scenario_world [("a.xlsx", "placeholder"); ("b.xlsx", "blank name")] in
  let w1 := (@build_stage_and_load scenario_runtime ["*.xlsx"] "data/stage/reviews.parquet" w).2 in
  @build_stage_and_load scenario_runtime ["*.xlsx"] "data/stage/reviews.parquet" w1 =
    (Ok (2, 0, 0, 0, 0, 0, 0, ""), w1).
Proof.
  intros w w1.
  apply (@second_run_loads_nothing scenario_runtime ["*.xlsx"] "data/stage/reviews.parquet"
           w w1 2 4 3 1 3 1 3 "data/stage/reviews.csv").
  vm_compute. reflexivity.
Defined.
